(** * YouDownloader: the classification-and-ranking engine

    A shallow embedding of the decision logic of [YouDownloader.py]
    (class [YouDownloader]): [detect_video_type],
    [get_enhanced_resolution_info], the bucketing loop of [get_video_info]
    and the option-list assembly of [display_format_options].

    Conventions of the embedding.
    - A Python dictionary that is used as a record is a Rocq record whose
      fields are of type [field A]: the key is missing, or it is present
      with the value [None], or it is present with a value of the expected
      type. The three ways the source reads a key ([d.get(k)],
      [d.get(k, default)], [d[k]]) are three functions on [field].
    - A Python value that is "a string or None" is an [option string]; the
      same for numbers.
    - Height, width and file size are whole numbers ([Z]), which is what
      the extraction backend gives. The frame rate and the two bitrates
      are whole numbers or floats ([num]); a float is given by the decimal
      Python writes for it, which fixes its text, its truth value and its
      order.
    - Strings are byte strings holding UTF-8; a substring test on bytes
      agrees with Python's test on code points because UTF-8 is
      self-synchronising, and a slice counts code points. [lower] and
      [upper] change ASCII letters only.
    - Exceptions are the [Raise] branch of [result].
    - [print] is not modelled; the expressions a [print] evaluates are,
      because they can raise. *)

From Stdlib Require Import ZArith String Ascii List Bool Lia.
From Stdlib Require Import Sorting.Permutation Sorting.Sorted.
From Stdlib Require Import QArith Lqa.
From stdpp Require Import gmap strings pretty.
Import ListNotations.

Local Open Scope string_scope.
Local Open Scope Z_scope.

(** ** Python values and dictionaries *)

Module Py.

Inductive exn : Type := KeyError | AttributeError | TypeError.

Inductive result (A : Type) : Type :=
| Ok (a : A)
| Raise (e : exn).
Arguments Ok {A} a.
Arguments Raise {A} e.

Definition bind {A B : Type} (m : result A) (k : A -> result B) : result B :=
  match m with
  | Ok a => k a
  | Raise e => Raise e
  end.

(** [try: m except Exception: h] *)
Definition try_except {A : Type} (m : result A) (h : exn -> A) : A :=
  match m with
  | Ok a => a
  | Raise e => h e
  end.

(** One key of a dictionary. *)
Inductive field (A : Type) : Type :=
| Missing
| Null
| Val (a : A).
Arguments Missing {A}.
Arguments Null {A}.
Arguments Val {A} a.

(** [d.get(k)] *)
Definition get {A : Type} (f : field A) : option A :=
  match f with
  | Val a => Some a
  | Missing | Null => None
  end.

(** [d.get(k, default)]: the default stands in for a missing key only. *)
Definition get_default {A : Type} (f : field A) (default : A) : option A :=
  match f with
  | Missing => Some default
  | Null => None
  | Val a => Some a
  end.

(** [d[k]] *)
Definition subscript {A : Type} (f : field A) : result (option A) :=
  match f with
  | Missing => Raise KeyError
  | Null => Ok None
  | Val a => Ok (Some a)
  end.

(** [{k: v}]: storing a value under a key. *)
Definition store {A : Type} (v : option A) : field A :=
  match v with
  | Some a => Val a
  | None => Null
  end.

(** [x or 0] on a whole number or [None]. *)
Definition or0 (v : option Z) : Z :=
  match v with
  | Some z => z
  | None => 0
  end.

(** Truth value of a whole number or [None]. *)
Definition truthy_num (v : option Z) : bool :=
  match v with
  | Some z => negb (z =? 0)
  | None => false
  end.

Definition lower_ascii (c : ascii) : ascii :=
  let n := nat_of_ascii c in
  if (65 <=? n)%nat && (n <=? 90)%nat then ascii_of_nat (n + 32) else c.

Definition upper_ascii (c : ascii) : ascii :=
  let n := nat_of_ascii c in
  if (97 <=? n)%nat && (n <=? 122)%nat then ascii_of_nat (n - 32) else c.

Fixpoint map_string (f : ascii -> ascii) (s : string) : string :=
  match s with
  | EmptyString => EmptyString
  | String c s' => String (f c) (map_string f s')
  end.

Definition str_lower (s : string) : string := map_string lower_ascii s.
Definition str_upper (s : string) : string := map_string upper_ascii s.

(** [v.lower()] where [v] may be [None]. *)
Definition lower (v : option string) : result string :=
  match v with
  | Some s => Ok (str_lower s)
  | None => Raise AttributeError
  end.

(** [v.upper()] where [v] may be [None]. *)
Definition upper (v : option string) : result string :=
  match v with
  | Some s => Ok (str_upper s)
  | None => Raise AttributeError
  end.

(** [sub in s] on strings. *)
Fixpoint contains (sub s : string) : bool :=
  String.prefix sub s ||
  match s with
  | EmptyString => false
  | String _ s' => contains sub s'
  end.

(** [x in l] on a list of strings. *)
Definition mem (x : string) (l : list string) : bool :=
  existsb (String.eqb x) l.

(** [sep.join(l)] *)
Fixpoint join (sep : string) (l : list string) : string :=
  match l with
  | [] => EmptyString
  | [x] => x
  | x :: rest => x +:+ sep +:+ join sep rest
  end.

(** A byte that continues a character of a UTF-8 text. *)
Definition is_continuation (c : ascii) : bool :=
  let n := nat_of_ascii c in (128 <=? n)%nat && (n <? 192)%nat.

(** [s[:n]] on a string: its first [n] characters, a character being the
    byte that starts it and the bytes that continue it. *)
Fixpoint slice_to (n : nat) (s : string) : string :=
  match s with
  | EmptyString => EmptyString
  | String c s' =>
      if is_continuation c then String c (slice_to n s')
      else match n with
           | O => EmptyString
           | S n' => String c (slice_to n' s')
           end
  end.

(** [v[:n]] where [v] may be [None]. *)
Definition slice (n : nat) (v : option string) : result string :=
  match v with
  | Some s => Ok (slice_to n s)
  | None => Raise TypeError
  end.

(** [f"{v}"] for a string or [None]. *)
Definition fmt_str (v : option string) : string :=
  match v with
  | Some s => s
  | None => "None"
  end.

(** [f"{v}"] for a whole number or [None]. *)
Definition fmt_num (v : option Z) : string :=
  match v with
  | Some z => pretty z
  | None => "None"
  end.

(** A number that is an [int] or a [float]. [Float m p] is the float that
    Python writes as the decimal [m / 10^p]: [Float 2997 2] is [29.97],
    [Float 30 0] and [Float 300 1] are [30.0]. The decimal Python writes
    for a float is the shortest one that rounds to it, so floats and whole
    numbers below 2^53 are ordered as these decimals are. Infinities, NaN
    and the negative zero are left out. *)
Inductive num : Type :=
| Int (z : Z)
| Float (m : Z) (p : nat).

#[global] Instance num_eq_dec : EqDecision num.
Proof. solve_decision. Defined.

(** The value of a number. *)
Definition num_value (n : num) : Q :=
  match n with
  | Int z => inject_Z z
  | Float m p => Qmake m (Z.to_pos (10 ^ Z.of_nat p))
  end.

(** [a < b] and [a == b] on numbers. *)
Definition num_ltb (a b : num) : bool :=
  negb (Qle_bool (num_value b) (num_value a)).

Definition num_eqb (a b : num) : bool :=
  Qeq_bool (num_value a) (num_value b).

(** Truth value of a number. *)
Definition num_truthy (n : num) : bool := negb (num_eqb n (Int 0)).

(** [x or 0] on a number or [None]. *)
Definition num_or0 (v : option num) : num :=
  match v with
  | Some n => if num_truthy n then n else Int 0
  | None => Int 0
  end.

(** [s.rstrip('0')] *)
Fixpoint rstrip_zeros (s : string) : string :=
  match s with
  | EmptyString => EmptyString
  | String c s' =>
      match rstrip_zeros s' with
      | EmptyString => if Ascii.eqb c "0" then EmptyString
                       else String c EmptyString
      | r => String c r
      end
  end.

(** ['0' * n] *)
Fixpoint zeros (n : nat) : string :=
  match n with
  | O => EmptyString
  | S n' => String "0" (zeros n')
  end.

(** [repr] of the float written as [m / 10^p]. With [digits] the digits
    of the decimal without leading and trailing zeros and [decpt] the
    place of the point counted from the first digit, Python writes the
    digits with a point, adding zeros where the point falls outside them,
    and goes over to the exponent form when [decpt <= -4] or
    [decpt > 16]. *)
Definition float_repr (m : Z) (p : nat) : string :=
  if m =? 0 then "0.0"
  else
    let all := pretty (Z.abs m) in
    let digits := rstrip_zeros all in
    let n := String.length digits in
    let decpt := Z.of_nat (String.length all) - Z.of_nat p in
    (if m <? 0 then "-" else "") +:+
    (if (-4 <? decpt) && (decpt <=? 16) then
       if decpt <=? 0
       then "0." +:+ zeros (Z.to_nat (- decpt)) +:+ digits
       else if decpt <? Z.of_nat n
       then String.substring 0 (Z.to_nat decpt) digits +:+ "."
            +:+ String.substring (Z.to_nat decpt) (n - Z.to_nat decpt) digits
       else digits +:+ zeros (Z.to_nat decpt - n) +:+ ".0"
     else
       let e := decpt - 1 in
       String.substring 0 1 digits
       +:+ (if (1 <? n)%nat then "." +:+ String.substring 1 (n - 1) digits
            else "")
       +:+ "e" +:+ (if e <? 0 then "-" else "+")
       +:+ (if Z.abs e <? 10 then "0" else "") +:+ pretty (Z.abs e)).

(** [str(n)] *)
Definition num_str (n : num) : string :=
  match n with
  | Int z => pretty z
  | Float m p => float_repr m p
  end.

(** [f"{v}"] for a number or [None]. *)
Definition fmt_number (v : option num) : string :=
  match v with
  | Some n => num_str n
  | None => "None"
  end.

End Py.

Import Py.

#[global] Instance result_ret : MRet result := fun A a => Ok a.
#[global] Instance result_bind : MBind result := fun A B k m => bind m k.

(** ** The dictionaries of the program *)

(** A format dictionary: both the raw descriptor handed over by the
    extraction backend and the dictionaries [get_video_info] builds from
    it. The latter carry ['type'] and ['video_types'] and leave other keys
    out. *)
Record fmt_dict : Type := {
  format_id : field string;
  ext : field string;
  resolution : field string;
  height : field Z;
  width : field Z;
  filesize : field Z;
  vcodec : field string;
  acodec : field string;
  fps : field num;
  vbr : field num;
  abr : field num;
  type_ : field string;
  video_types : field (list string);
  format_note : field string
}.

(** The video metadata dictionary [info], as far as the engine reads it.
    A value of this type stands for a dictionary that Python counts as
    true; a false result of the extraction ([None] or an empty dictionary)
    is [None : option info_dict]. *)
Record info_dict : Type := {
  title : field string;
  description : field string;
  formats : field (list fmt_dict)
}.

(** A raw descriptor with the given keys and no others. *)
Definition empty_fmt : fmt_dict :=
  {| format_id := Missing; ext := Missing; resolution := Missing;
     height := Missing; width := Missing; filesize := Missing;
     vcodec := Missing; acodec := Missing; fps := Missing; vbr := Missing;
     abr := Missing; type_ := Missing; video_types := Missing;
     format_note := Missing |}.

(** ** TypeDetector: [detect_video_type] *)

Definition stereo_keywords : list (string * string) :=
  [ ("3d", "3D");
    ("stereoscopic", "3D");
    ("stereo", "3D");
    ("sbs", "SBS-3D");
    ("side by side", "SBS-3D");
    ("side-by-side", "SBS-3D");
    ("top bottom", "TB-3D");
    ("top-bottom", "TB-3D");
    ("anaglyph", "Anaglyph-3D");
    ("dual fisheye", "DualFisheye-3D") ].

Definition vr_keywords : list (string * string) :=
  [ ("360", "360°");
    ("vr", "VR");
    ("virtual reality", "VR");
    ("spherical", "360°");
    ("equirectangular", "360°-EQR") ].

Definition vr180_keywords : list string :=
  [ "180"; "vr180"; "half sphere"; "hemispherical" ].

Definition hdr_keywords : list string :=
  [ "hdr"; "hdr10"; "hdr10+"; "dolby vision"; "high dynamic range";
    "rec2020"; "bt2020" ].

(** [keyword in format_note or keyword in title or keyword in description] *)
Definition in_texts (keyword format_note title description : string) : bool :=
  contains keyword format_note || contains keyword title
  || contains keyword description.

(** The first loop: append the type of the first keyword found and [break]. *)
Fixpoint stereo_scan (kws : list (string * string))
    (format_note title description : string) (video_type : list string)
    : list string :=
  match kws with
  | [] => video_type
  | (keyword, format_type) :: rest =>
      if in_texts keyword format_note title description
      then video_type ++ [format_type]
      else stereo_scan rest format_note title description video_type
  end.

(** The second loop: every keyword is tried; a type is appended unless it is
    in the list already. *)
Fixpoint vr_scan (kws : list (string * string))
    (format_note title description : string) (video_type : list string)
    : list string :=
  match kws with
  | [] => video_type
  | (keyword, format_type) :: rest =>
      vr_scan rest format_note title description
        (if in_texts keyword format_note title description
         then if mem format_type video_type then video_type
              else video_type ++ [format_type]
         else video_type)
  end.

(** The third loop. *)
Fixpoint vr180_scan (kws : list string)
    (format_note title description : string) (video_type : list string)
    : list string :=
  match kws with
  | [] => video_type
  | keyword :: rest =>
      vr180_scan rest format_note title description
        (if in_texts keyword format_note title description
         then if mem "180°" video_type then video_type
              else video_type ++ ["180°"]
         else video_type)
  end.

(** The fourth loop, over the format note and the format identifier. *)
Fixpoint hdr_scan (kws : list string) (format_note format_id : string)
    (video_type : list string) : list string :=
  match kws with
  | [] => video_type
  | keyword :: rest =>
      hdr_scan rest format_note format_id
        (if contains keyword format_note || contains keyword format_id
         then if mem "HDR" video_type then video_type
              else video_type ++ ["HDR"]
         else video_type)
  end.

(** The list [video_type] as the four loops leave it. *)
Definition scan_tags (format_note format_id title description : string)
    : list string :=
  let video_type := [] in
  let video_type :=
    stereo_scan stereo_keywords format_note title description video_type in
  let video_type :=
    vr_scan vr_keywords format_note title description video_type in
  let video_type :=
    vr180_scan vr180_keywords format_note title description video_type in
  hdr_scan hdr_keywords format_note format_id video_type.

(** The special combination for 3D 180° content. *)
Definition combine_3d_180 (video_type : list string) : list string :=
  if existsb (contains "3D") video_type && mem "180°" video_type
  then "3D-180°-VR"
       :: List.filter
            (fun vtype => negb (contains "3D" vtype)
                          && negb (String.eqb vtype "180°"))
            video_type
  else video_type.

(** The four texts the function reads, lower-cased. [info] is [None] when
    the caller passes a false value. *)
Definition detect_texts (fmt : fmt_dict) (info : option info_dict)
    : result (string * string * string * string) :=
  note ← lower (get_default (format_note fmt) "");
  fid ← lower (get_default (format_id fmt) "");
  ttl ← match info with
        | Some i => lower (get_default (title i) "")
        | None => Ok ""
        end;
  desc ← match info with
         | Some i => lower (get_default (description i) "")
         | None => Ok ""
         end;
  Ok (note, fid, ttl, desc).

(** [video_type] just before the combination step. *)
Definition accumulated_types (fmt : fmt_dict) (info : option info_dict)
    : result (list string) :=
  '(note, fid, ttl, desc) ← detect_texts fmt info;
  Ok (scan_tags note fid ttl desc).

Definition detect_video_type (fmt : fmt_dict) (info : option info_dict)
    : result (list string) :=
  '(note, fid, ttl, desc) ← detect_texts fmt info;
  Ok (combine_3d_180 (scan_tags note fid ttl desc)).



(** ** ResolutionClassifier: [get_enhanced_resolution_info] *)

Definition base_res (height : Z) : string :=
  if 4320 <=? height then "8K"
  else if 2160 <=? height then "4K"
  else if 1440 <=? height then "2K"
  else if 1080 <=? height then "1080p"
  else if 720 <=? height then "720p"
  else pretty height +:+ "p".

Definition get_enhanced_resolution_info (fmt : fmt_dict) : option string :=
  let height := get (height fmt) in
  let width := get (width fmt) in
  if truthy_num height && truthy_num width
  then Some (base_res (or0 height) +:+ " (" +:+ fmt_num width +:+ "x"
             +:+ fmt_num height +:+ ")")
  else get_default (resolution fmt) "Unknown resolution".

(** ** FormatAggregator: the loop of [get_video_info] *)

(** [v != 'none'] *)
Definition not_none (v : option string) : bool :=
  match v with
  | Some s => negb (String.eqb s "none")
  | None => true
  end.

(** [v == 'none'] *)
Definition is_none (v : option string) : bool := negb (not_none v).

Definition video_audio_entry (fmt : fmt_dict) (vts : list string)
    : result fmt_dict :=
  fid ← subscript (format_id fmt);
  e ← subscript (ext fmt);
  Ok {| format_id := store fid;
        ext := store e;
        resolution := store (get_default (resolution fmt) "unknown");
        height := store (get (height fmt));
        width := store (get (width fmt));
        filesize := store (get (filesize fmt));
        vcodec := store (get_default (vcodec fmt) "unknown");
        acodec := store (get_default (acodec fmt) "unknown");
        fps := store (get (fps fmt));
        vbr := store (get (vbr fmt));
        abr := store (get (abr fmt));
        type_ := Val "video+audio";
        video_types := Val vts;
        format_note := store (get_default (format_note fmt) "") |}.

Definition video_only_entry (fmt : fmt_dict) (vts : list string)
    : result fmt_dict :=
  fid ← subscript (format_id fmt);
  e ← subscript (ext fmt);
  Ok {| format_id := store fid;
        ext := store e;
        resolution := store (get_default (resolution fmt) "unknown");
        height := store (get (height fmt));
        width := store (get (width fmt));
        filesize := store (get (filesize fmt));
        vcodec := store (get_default (vcodec fmt) "unknown");
        acodec := Missing;
        fps := store (get (fps fmt));
        vbr := store (get (vbr fmt));
        abr := Missing;
        type_ := Val "video_only";
        video_types := Val vts;
        format_note := store (get_default (format_note fmt) "") |}.

Definition audio_entry (fmt : fmt_dict) : result fmt_dict :=
  fid ← subscript (format_id fmt);
  e ← subscript (ext fmt);
  Ok {| format_id := store fid;
        ext := store e;
        resolution := Missing;
        height := Missing;
        width := Missing;
        filesize := store (get (filesize fmt));
        vcodec := Missing;
        acodec := store (get_default (acodec fmt) "unknown");
        fps := Missing;
        vbr := Missing;
        abr := store (get (abr fmt));
        type_ := Val "audio";
        video_types := Missing;
        format_note := Missing |}.

(** The [if]/[elif] chain of the loop body, given the detected types: what
    is appended to [video_formats] and to [audio_formats]. *)
Definition bucket (fmt : fmt_dict) (vts : list string)
    : result (list fmt_dict * list fmt_dict) :=
  if not_none (get (vcodec fmt)) && not_none (get (acodec fmt)) then
    d ← video_audio_entry fmt vts; Ok ([d], [])
  else if not_none (get (vcodec fmt)) && is_none (get (acodec fmt)) then
    d ← video_only_entry fmt vts; Ok ([d], [])
  else if not_none (get (acodec fmt)) && is_none (get (vcodec fmt)) then
    d ← audio_entry fmt; Ok ([], [d])
  else Ok ([], []).

(** One iteration of [for fmt in formats]. *)
Definition process_format (fmt : fmt_dict) (info : option info_dict)
    : result (list fmt_dict * list fmt_dict) :=
  vts ← detect_video_type fmt info;
  bucket fmt vts.

Fixpoint bucket_loop (fmts : list fmt_dict) (info : option info_dict)
    (video_formats audio_formats : list fmt_dict)
    : result (list fmt_dict * list fmt_dict) :=
  match fmts with
  | [] => Ok (video_formats, audio_formats)
  | fmt :: rest =>
      '(v, a) ← process_format fmt info;
      bucket_loop rest info (video_formats ++ v) (audio_formats ++ a)
  end.

(** The body of the [try] block, [info] being what the extraction returned. *)
Definition get_video_info_body (info : option info_dict)
    : result (option info_dict * list fmt_dict * list fmt_dict) :=
  match info with
  | None => Ok (None, [], [])
  | Some i =>
      fmts ← match get_default (formats i) [] with
             | Some l => Ok l
             | None => Raise TypeError
             end;
      '(video_formats, audio_formats) ← bucket_loop fmts info [] [];
      Ok (info, video_formats, audio_formats)
  end.

(** [get_video_info], from the result of the extraction on: every exception
    ends in [return None, [], []]. *)
Definition get_video_info (info : option info_dict)
    : option info_dict * list fmt_dict * list fmt_dict :=
  try_except (get_video_info_body info) (fun _ => (None, [], [])).

(** ** [str(video_formats)] *)

(** Python's [repr] of the values that occur in the dictionaries built by
    [get_video_info]. A string is quoted with ['] unless it holds a ['] and
    no double quote; the quote in use and the backslash are escaped, tab,
    newline and carriage return are written as two characters, other
    control characters as [\xhh]; bytes from 128 on are copied (exact for
    printable non-ASCII characters). The keys of a dictionary come in the
    order in which [get_video_info] writes them, which is the order of the
    fields of [fmt_dict]. *)
Module Repr.

Definition backslash : ascii := ascii_of_nat 92.
Definition squote : ascii := ascii_of_nat 39.
Definition dquote : ascii := ascii_of_nat 34.

Definition str1 (c : ascii) : string := String c EmptyString.

Definition hex_digit (n : nat) : ascii :=
  if (n <? 10)%nat then ascii_of_nat (48 + n) else ascii_of_nat (87 + n).

Definition is_control (c : ascii) : bool :=
  (nat_of_ascii c <? 32)%nat || (nat_of_ascii c =? 127)%nat.

Definition repr_char (quote c : ascii) : string :=
  let n := nat_of_ascii c in
  if Ascii.eqb c backslash then String backslash (str1 backslash)
  else if Ascii.eqb c quote then String backslash (str1 c)
  else if (n =? 9)%nat then String backslash "t"
  else if (n =? 10)%nat then String backslash "n"
  else if (n =? 13)%nat then String backslash "r"
  else if is_control c
  then String backslash
         (String "x" (String (hex_digit (n / 16)) (str1 (hex_digit (n mod 16)))))
  else str1 c.

Fixpoint repr_chars (quote : ascii) (s : string) : string :=
  match s with
  | EmptyString => EmptyString
  | String c s' => repr_char quote c +:+ repr_chars quote s'
  end.

Definition quote_for (s : string) : ascii :=
  if contains (str1 squote) s && negb (contains (str1 dquote) s)
  then dquote else squote.

Definition repr_str (s : string) : string :=
  let q := quote_for s in
  String q (repr_chars q s +:+ str1 q).

Definition repr_str_value (v : field string) : option string :=
  match v with
  | Missing => None
  | Null => Some "None"
  | Val s => Some (repr_str s)
  end.

Definition repr_num_value (v : field Z) : option string :=
  match v with
  | Missing => None
  | Null => Some "None"
  | Val z => Some (pretty z)
  end.

Definition repr_number_value (v : field num) : option string :=
  match v with
  | Missing => None
  | Null => Some "None"
  | Val n => Some (num_str n)
  end.

Definition repr_list (l : list string) : string :=
  "[" +:+ join ", " (map repr_str l) +:+ "]".

Definition repr_list_value (v : field (list string)) : option string :=
  match v with
  | Missing => None
  | Null => Some "None"
  | Val l => Some (repr_list l)
  end.

(** ['key': value], for a key that is present. *)
Definition item (key : string) (v : option string) : list string :=
  match v with
  | Some r => [repr_str key +:+ ": " +:+ r]
  | None => []
  end.

Definition repr_fmt (fmt : fmt_dict) : string :=
  "{" +:+
  join ", "
    (item "format_id" (repr_str_value (format_id fmt))
     ++ item "ext" (repr_str_value (ext fmt))
     ++ item "resolution" (repr_str_value (resolution fmt))
     ++ item "height" (repr_num_value (height fmt))
     ++ item "width" (repr_num_value (width fmt))
     ++ item "filesize" (repr_num_value (filesize fmt))
     ++ item "vcodec" (repr_str_value (vcodec fmt))
     ++ item "acodec" (repr_str_value (acodec fmt))
     ++ item "fps" (repr_number_value (fps fmt))
     ++ item "vbr" (repr_number_value (vbr fmt))
     ++ item "abr" (repr_number_value (abr fmt))
     ++ item "type" (repr_str_value (type_ fmt))
     ++ item "video_types" (repr_list_value (video_types fmt))
     ++ item "format_note" (repr_str_value (format_note fmt)))
  +:+ "}".

(** [str(video_formats)] *)
Definition str_formats (l : list fmt_dict) : string :=
  "[" +:+ join ", " (map repr_fmt l) +:+ "]".

End Repr.

(** ** OptionRanker: the two sorts *)

(** [l.sort(key=key, reverse=True)]: the stable sort by descending key.
    Elements whose keys are equal keep their order. *)
Section StableSort.
Context {A K : Type} (key : A -> K) (ltb : K -> K -> bool).

Fixpoint insert_desc (x : A) (l : list A) : list A :=
  match l with
  | [] => [x]
  | y :: l' =>
      if ltb (key x) (key y) then y :: insert_desc x l' else x :: l
  end.

Fixpoint sort_desc (l : list A) : list A :=
  match l with
  | [] => []
  | x :: l' => insert_desc x (sort_desc l')
  end.
End StableSort.

(** Python's order on 4-tuples of numbers: the first place where the two
    differ decides. *)
Definition tuple_ltb (a b : Z * Z * num * num) : bool :=
  let '(a1, a2, a3, a4) := a in
  let '(b1, b2, b3, b4) := b in
  (a1 <? b1)
  || (a1 =? b1) && ((a2 <? b2)
  || (a2 =? b2) && (num_ltb a3 b3
  || num_eqb a3 b3 && num_ltb a4 b4)).

(** The local function [sort_key]. *)
Definition special_priority (fmt : fmt_dict) : Z :=
  match get (video_types fmt) with
  | Some ((_ :: _) as vts) =>
      if mem "SBS-3D" vts && mem "180°" vts then 2000
      else if mem "3D-180°-VR" vts then 1800
      else if mem "SBS-3D" vts then 1500
      else if mem "HDR" vts then 1000
      else if mem "360°" vts || mem "VR" vts then 500
      else if existsb (contains "3D") vts then 300
      else if mem "180°" vts then 200
      else 0
  | _ => 0
  end.

Definition sort_key (fmt : fmt_dict) : Z * Z * num * num :=
  (special_priority fmt,
   or0 (get (height fmt)),
   num_or0 (get (fps fmt)),
   num_or0 (get (vbr fmt))).

(** [video_formats.sort(key=sort_key, reverse=True)] *)
Definition sort_video (video_formats : list fmt_dict) : list fmt_dict :=
  sort_desc sort_key tuple_ltb video_formats.

(** [audio_formats.sort(key=lambda x: x.get('abr') or 0, reverse=True)] *)
Definition sort_audio (audio_formats : list fmt_dict) : list fmt_dict :=
  sort_desc (fun x => num_or0 (get (abr x))) num_ltb audio_formats.

(** ** OptionListBuilder: [display_format_options] *)

(** One dictionary of the list [options]. The key ['description'] is absent
    from the ranked entries and the key ['info'] from the fixed ones. *)
Record download_option : Type := {
  opt_num : Z;
  opt_description : field string;
  opt_format : option string;
  opt_ext : option string;
  opt_type : string;
  opt_info : field fmt_dict
}.

(** The two local variables [options] and [option_num]. *)
Record menu : Type := {
  options : list download_option;
  option_num : Z
}.

(** A dictionary with the keys of the fixed entries. *)
Definition fixed_entry (num : Z) (description format ext type : string)
    : download_option :=
  {| opt_num := num;
     opt_description := Val description;
     opt_format := Some format;
     opt_ext := Some ext;
     opt_type := type;
     opt_info := Missing |}.

(** [options.append({...}); print(...); option_num += 1] for an entry whose
    [print] cannot raise. *)
Definition append_fixed (m : menu) (description format ext type : string)
    : menu :=
  {| options :=
       options m ++ [fixed_entry (option_num m) description format ext type];
     option_num := option_num m + 1 |}.

Definition vr_indicators : list string :=
  [ "360"; "vr"; "180"; "3d"; "stereoscopic"; "virtual reality" ].

Definition is_vr (title description : string) : bool :=
  existsb
    (fun indicator => contains indicator title || contains indicator description)
    vr_indicators.

Definition has_3d_180 (title description : string) : bool :=
  existsb (fun t => contains "3d" t && contains "180" t) [title; description].

Definition has_sbs (title description : string) (video_formats : list fmt_dict)
    : bool :=
  existsb
    (fun text => contains "sbs" text || contains "side by side" text
                 || contains "side-by-side" text)
    [title; description; Repr.str_formats video_formats].

(** The block under [if is_vr_content:]. *)
Definition vr_options (m : menu) (title description : string)
    (video_formats : list fmt_dict) : menu :=
  let m :=
    if has_3d_180 title description || has_sbs title description video_formats
    then append_fixed m "🥽 Best 3D 180° VR (Side-by-Side MKV)"
           "bestvideo+bestaudio/best" "mkv" "3d_180_sbs_video"
    else m in
  let m := append_fixed m "🌐 Best 360° VR Video (MKV)"
             "bestvideo+bestaudio/best" "mkv" "vr_360_video" in
  let m := append_fixed m "📹 Best 180° VR Video (MKV)"
             "bestvideo+bestaudio/best" "mkv" "vr_180_video" in
  append_fixed m "🥽 Best 3D Stereoscopic Video (MKV)"
    "bestvideo+bestaudio/best" "mkv" "3d_video".

(** The standard quality options. *)
Definition quick_options (m : menu) : menu :=
  let m := append_fixed m "🎬 Best Quality Video (MKV - Supports 4K/8K/HDR)"
             "bestvideo+bestaudio/best" "mkv" "quick_video_mkv" in
  let m := append_fixed m "🎬 Best Quality Video (MP4 - More Compatible)"
             "bestvideo[ext=mp4]+bestaudio[ext=m4a]/best[ext=mp4]/best"
             "mp4" "quick_video_mp4" in
  append_fixed m "🎵 Best Quality Audio (MP3 320kbps)"
    "bestaudio/best" "mp3" "quick_audio".

(** [f"{fmt['ext']}_{fmt.get('abr', 0)}"] *)
Definition audio_key (fmt : fmt_dict) : result string :=
  e ← subscript (ext fmt);
  Ok (fmt_str e +:+ "_" +:+ fmt_number (get_default (abr fmt) (Int 0))).

(** The entry appended for a ranked format. *)
Definition ranked_option (num : Z) (type : string) (fmt : fmt_dict)
    : result download_option :=
  fid ← subscript (format_id fmt);
  e ← subscript (ext fmt);
  Ok {| opt_num := num;
        opt_description := Missing;
        opt_format := fid;
        opt_ext := e;
        opt_type := type;
        opt_info := Val fmt |}.

(** What the [print] of an audio line evaluates. *)
Definition audio_print (fmt : fmt_dict) : result unit :=
  e ← subscript (ext fmt);
  _ ← upper e;
  Ok tt.

(** One iteration of [for fmt in audio_formats]. *)
Definition audio_step (displayed_audio : gset string) (m : menu)
    (fmt : fmt_dict) : result (gset string * menu) :=
  key ← audio_key fmt;
  if bool_decide (key ∈ displayed_audio) then Ok (displayed_audio, m)
  else
    let displayed_audio := displayed_audio ∪ {[ key ]} in
    o ← ranked_option (option_num m) "audio" fmt;
    _ ← audio_print fmt;
    Ok (displayed_audio,
        {| options := options m ++ [o]; option_num := option_num m + 1 |}).

Fixpoint audio_loop (fmts : list fmt_dict) (displayed_audio : gset string)
    (m : menu) : result (gset string * menu) :=
  match fmts with
  | [] => Ok (displayed_audio, m)
  | fmt :: rest =>
      '(displayed_audio, m) ← audio_step displayed_audio m fmt;
      audio_loop rest displayed_audio m
  end.

(** The block under [if audio_formats:]. *)
Definition audio_section (audio_formats : list fmt_dict) (m : menu)
    : result menu :=
  match audio_formats with
  | [] => Ok m
  | _ :: _ =>
      '(_, m) ← audio_loop (sort_audio audio_formats) ∅ m;
      Ok m
  end.

(** The dedup key of a video format. *)
Definition video_key (fmt : fmt_dict) : result string :=
  vts ← match get_default (video_types fmt) [] with
        | Some l => Ok l
        | None => Raise TypeError
        end;
  let special_types_str := join "+" vts in
  e ← subscript (ext fmt);
  vc ← slice 10 (get_default (vcodec fmt) "unknown");
  Ok (fmt_str e +:+ "_" +:+ fmt_num (get_default (height fmt) 0) +:+ "_"
      +:+ fmt_number (get_default (fps fmt) (Int 0)) +:+ "_" +:+ vc +:+ "_"
      +:+ special_types_str).

(** [v == 'video+audio'] *)
Definition is_video_audio (v : option string) : bool :=
  match v with
  | Some s => String.eqb s "video+audio"
  | None => false
  end.

(** What the lines between [options.append] and [option_num += 1] of the
    video loop evaluate, as far as it can raise. *)
Definition video_print (fmt : fmt_dict) : result unit :=
  _ ← slice 12 (get_default (vcodec fmt) "unknown");
  ty ← subscript (type_ fmt);
  _ ← (if is_video_audio ty
       then slice 8 (get_default (acodec fmt) "unknown")
       else Ok "");
  e ← subscript (ext fmt);
  _ ← upper e;
  Ok tt.

(** One iteration of [for fmt in video_formats]. *)
Definition video_step (displayed_video : gset string) (m : menu)
    (fmt : fmt_dict) : result (gset string * menu) :=
  key ← video_key fmt;
  if negb (bool_decide (key ∈ displayed_video))
     && (size displayed_video <? 20)%nat
  then
    let displayed_video := displayed_video ∪ {[ key ]} in
    o ← ranked_option (option_num m) "video" fmt;
    _ ← video_print fmt;
    Ok (displayed_video,
        {| options := options m ++ [o]; option_num := option_num m + 1 |})
  else Ok (displayed_video, m).

Fixpoint video_loop (fmts : list fmt_dict) (displayed_video : gset string)
    (m : menu) : result (gset string * menu) :=
  match fmts with
  | [] => Ok (displayed_video, m)
  | fmt :: rest =>
      '(displayed_video, m) ← video_step displayed_video m fmt;
      video_loop rest displayed_video m
  end.

(** The block under [if video_formats:]. *)
Definition video_section (video_formats : list fmt_dict) (m : menu)
    : result menu :=
  match video_formats with
  | [] => Ok m
  | _ :: _ =>
      '(_, m) ← video_loop (sort_video video_formats) ∅ m;
      Ok m
  end.

(** The VR check at the top of the function: [is_vr_content] and the two
    lower-cased texts (empty when [info] is false; they are not read then). *)
Definition vr_check (info : option info_dict)
    : result (bool * string * string) :=
  match info with
  | Some i =>
      ttl ← lower (get_default (title i) "");
      desc ← lower (get_default (description i) "");
      Ok (is_vr ttl desc, ttl, desc)
  | None => Ok (false, "", "")
  end.

Definition display_format_options (video_formats audio_formats : list fmt_dict)
    (info : option info_dict) : result (list download_option) :=
  let m := {| options := []; option_num := 1 |} in
  '(is_vr_content, ttl, desc) ← vr_check info;
  let m := if (is_vr_content : bool)
           then vr_options m ttl desc video_formats else m in
  let m := quick_options m in
  m ← audio_section audio_formats m;
  m ← video_section video_formats m;
  Ok (options m).

(** The whole engine: from the result of the extraction to the option list,
    as [run] chains the two functions. [None] is the branch
    [if not info: ... continue]. *)
Definition pipeline (info : option info_dict)
    : option (result (list download_option)) :=
  match get_video_info info with
  | (Some i, video_formats, audio_formats) =>
      Some (display_format_options video_formats audio_formats (Some i))
  | (None, _, _) => None
  end.

(** ** Vocabulary of the specification *)

(** The stereoscopic family of tags ([ThreeD], [SBS3D], [TB3D],
    [Anaglyph3D], [DualFisheye3D] in the specification). *)
Definition stereo_family : list string :=
  [ "3D"; "SBS-3D"; "TB-3D"; "Anaglyph-3D"; "DualFisheye-3D" ].

(** The independent tags: [HDR], the two tags the code has for the
    specification's [VR360], and [VR360EQR]. *)
Definition independent_tags : list string :=
  [ "HDR"; "360°"; "VR"; "360°-EQR" ].

Definition is_stereo (t : string) : bool := mem t stereo_family.
Definition is_independent (t : string) : bool := mem t independent_tags.

Definition count_stereo (l : list string) : nat :=
  length (List.filter is_stereo l).

(** The keywords of the stereoscopic scan, in the order of the
    specification. *)
Definition stereo_keyword_order : list string :=
  [ "3d"; "stereoscopic"; "stereo"; "sbs"; "side by side"; "side-by-side";
    "top bottom"; "top-bottom"; "anaglyph"; "dual fisheye" ].

(** The text of a field, a missing one counting as empty. *)
Definition text_of (f : field string) : string :=
  match f with
  | Val s => s
  | Missing | Null => ""
  end.

(** The same for a field of the metadata, which may be absent as a whole. *)
Definition info_text (key : info_dict -> field string)
    (info : option info_dict) : string :=
  match info with
  | Some i => text_of (key i)
  | None => ""
  end.

(** The keyword occurs in the format note, in the title or in the
    description. *)
Definition found_in (keyword note ttl desc : string) : Prop :=
  contains keyword note = true \/ contains keyword ttl = true
  \/ contains keyword desc = true.

(** The tier rule in the words of the specification: the first row of the
    table whose threshold the height reaches, else ["{height}p"]. *)
Definition tier_table : list (Z * string) :=
  [ (4320, "8K"); (2160, "4K"); (1440, "2K"); (1080, "1080p"); (720, "720p") ].

Definition resolution_tier (h : Z) : string :=
  match List.find (fun row => fst row <=? h) tier_table with
  | Some row => snd row
  | None => pretty h +:+ "p"
  end.

(** ["{tier} ({width}x{height})"] *)
Definition resolution_display (h w : Z) : string :=
  resolution_tier h +:+ " (" +:+ pretty w +:+ "x" +:+ pretty h +:+ ")".

(** The priority table in the words of the specification, over a reading
    of the tag set: first matching row. *)
Record tag_reading : Type := {
  has_sbs3d : bool;
  has_vr180 : bool;
  has_combined : bool;
  has_hdr : bool;
  has_vr360 : bool;
  has_vr360eqr : bool;
  has_stereo : bool
}.

Definition priority_table (r : tag_reading) : Z :=
  if has_sbs3d r && has_vr180 r then 2000
  else if has_combined r then 1800
  else if has_sbs3d r then 1500
  else if has_hdr r then 1000
  else if has_vr360 r || has_vr360eqr r then 500
  else if has_stereo r then 300
  else if has_vr180 r then 200
  else 0.

(** How a list of the code's tags reads in the specification's terms. *)
Definition read_tags (vts : list string) : tag_reading :=
  {| has_sbs3d := mem "SBS-3D" vts;
     has_vr180 := mem "180°" vts;
     has_combined := mem "3D-180°-VR" vts;
     has_hdr := mem "HDR" vts;
     has_vr360 := mem "360°" vts || mem "VR" vts;
     has_vr360eqr := mem "360°-EQR" vts;
     has_stereo := existsb is_stereo vts |}.

(** The tags [detect_video_type] can return. *)
Definition all_tags : list string :=
  [ "3D"; "SBS-3D"; "TB-3D"; "Anaglyph-3D"; "DualFisheye-3D";
    "360°"; "VR"; "360°-EQR"; "180°"; "HDR"; "3D-180°-VR" ].

(** A reading in which the equirectangular tag is not looked at. *)
Definition without_eqr (r : tag_reading) : tag_reading :=
  {| has_sbs3d := has_sbs3d r;
     has_vr180 := has_vr180 r;
     has_combined := has_combined r;
     has_hdr := has_hdr r;
     has_vr360 := has_vr360 r;
     has_vr360eqr := false;
     has_stereo := has_stereo r |}.

(** Keeping the first entry of every key. *)
Fixpoint first_occurrences {A : Type} (seen : list string)
    (l : list (string * A)) : list (string * A) :=
  match l with
  | [] => []
  | (k, x) :: rest =>
      if mem k seen then first_occurrences seen rest
      else (k, x) :: first_occurrences (k :: seen) rest
  end.

(** A function that can raise, over a list. *)
Fixpoint map_result {A B : Type} (f : A -> result B) (l : list A)
    : result (list B) :=
  match l with
  | [] => Ok []
  | x :: rest =>
      y ← f x;
      ys ← map_result f rest;
      Ok (y :: ys)
  end.

(** The format dictionaries of the entries of one type, in list order. *)
Definition ranked_infos (type : string) (opts : list download_option)
    : list fmt_dict :=
  flat_map
    (fun o =>
       if String.eqb (opt_type o) type
       then match opt_info o with
            | Val fmt => [fmt]
            | _ => []
            end
       else [])
    opts.

(** Side-by-side evidence in one text. *)
Definition sbs_evidence (text : string) : bool :=
  contains "sbs" text || contains "side by side" text
  || contains "side-by-side" text.

(** The four special entries and the three quick entries, by number. *)
Definition entry_3d_180_sbs (num : Z) : download_option :=
  fixed_entry num "🥽 Best 3D 180° VR (Side-by-Side MKV)"
    "bestvideo+bestaudio/best" "mkv" "3d_180_sbs_video".

Definition entry_vr_360 (num : Z) : download_option :=
  fixed_entry num "🌐 Best 360° VR Video (MKV)"
    "bestvideo+bestaudio/best" "mkv" "vr_360_video".

Definition entry_vr_180 (num : Z) : download_option :=
  fixed_entry num "📹 Best 180° VR Video (MKV)"
    "bestvideo+bestaudio/best" "mkv" "vr_180_video".

Definition entry_3d (num : Z) : download_option :=
  fixed_entry num "🥽 Best 3D Stereoscopic Video (MKV)"
    "bestvideo+bestaudio/best" "mkv" "3d_video".

Definition quick_entries (num : Z) : list download_option :=
  [ fixed_entry num "🎬 Best Quality Video (MKV - Supports 4K/8K/HDR)"
      "bestvideo+bestaudio/best" "mkv" "quick_video_mkv";
    fixed_entry (num + 1) "🎬 Best Quality Video (MP4 - More Compatible)"
      "bestvideo[ext=mp4]+bestaudio[ext=m4a]/best[ext=mp4]/best"
      "mp4" "quick_video_mp4";
    fixed_entry (num + 2) "🎵 Best Quality Audio (MP3 320kbps)"
      "bestaudio/best" "mp3" "quick_audio" ].

(** The special entries of a video whose VR check fired. *)
Definition vr_entries (with_sbs : bool) : list download_option :=
  if with_sbs
  then [entry_3d_180_sbs 1; entry_vr_360 2; entry_vr_180 3; entry_3d 4]
  else [entry_vr_360 1; entry_vr_180 2; entry_3d 3].

(** The menu after the fixed entries. *)
Definition fixed_menu (b : bool) (ttl desc : string)
    (video_formats : list fmt_dict) : menu :=
  quick_options
    (if b
     then vr_options {| options := []; option_num := 1 |} ttl desc
            video_formats
     else {| options := []; option_num := 1 |}).

(** The special entries as a list: none when the check did not fire. *)
Definition special_part (b : bool) (ttl desc : string)
    (video_formats : list fmt_dict) : list download_option :=
  if b
  then vr_entries (has_3d_180 ttl desc || has_sbs ttl desc video_formats)
  else [].

(** The types of the special VR entries and of the quick entries. *)
Definition vr_special_types : list string :=
  [ "3d_180_sbs_video"; "vr_360_video"; "vr_180_video"; "3d_video" ].

Definition quick_types : list string :=
  [ "quick_video_mkv"; "quick_video_mp4"; "quick_audio" ].

(** A text field that does not hold [None]. *)
Definition not_null {A : Type} (f : field A) : Prop := f <> Null.

(** A key that is present with a value. *)
Definition has_value {A : Type} (f : field A) : Prop := exists a, f = Val a.

(** A descriptor as the data model of the specification has it: the format
    identifier and the container extension are there, and no text field
    holds [None]. *)
Record well_formed (fmt : fmt_dict) : Prop := {
  wf_format_id : has_value (format_id fmt);
  wf_ext : has_value (ext fmt);
  wf_resolution : not_null (resolution fmt);
  wf_vcodec : not_null (vcodec fmt);
  wf_acodec : not_null (acodec fmt);
  wf_format_note : not_null (format_note fmt)
}.

Record well_formed_info (i : info_dict) : Prop := {
  wf_title : not_null (title i);
  wf_description : not_null (description i);
  wf_formats : match formats i with
               | Val l => Forall well_formed l
               | Missing => True
               | Null => False
               end
}.

(** A built dictionary on which no expression of [display_format_options]
    raises. *)
Record displayable (fmt : fmt_dict) : Prop := {
  dp_ext : has_value (ext fmt);
  dp_format_id : format_id fmt <> Missing;
  dp_vcodec : not_null (vcodec fmt);
  dp_acodec : not_null (acodec fmt);
  dp_video_types : not_null (video_types fmt);
  dp_type : type_ fmt <> Missing
}.

(** The five values the dedup key of a video format is made of: extension,
    height, fps, the first 10 characters of the video codec, the tags. *)
Definition dedup_tuple (fmt : fmt_dict)
    : result (option string) * option Z * option num * result string
      * option (list string) :=
  (subscript (ext fmt),
   get_default (height fmt) 0,
   get_default (fps fmt) (Int 0),
   slice 10 (get_default (vcodec fmt) "unknown"),
   get_default (video_types fmt) []).

(** ** Predicates of the statements *)

(** No element is followed by one with a greater key. *)
Definition descending {A K : Type} (key : A -> K) (ltb : K -> K -> bool)
    (l : list A) : Prop :=
  Sorted (fun a b => ltb (key a) (key b) = false) l.

(** [sub] occurs in [s]. *)
Definition occurs_in (sub s : string) : Prop :=
  exists pre post, s = pre +:+ sub +:+ post.

(** A character that [repr] copies, whatever the quote. *)
Definition plain_char (c : ascii) : bool :=
  negb (Ascii.eqb c Repr.backslash) && negb (Ascii.eqb c Repr.squote)
  && negb (Ascii.eqb c Repr.dquote) && negb (Repr.is_control c).

Fixpoint plain (s : string) : bool :=
  match s with
  | EmptyString => true
  | String c s' => plain_char c && plain s'
  end.

(** The entries carry 1, 2, ... and [option_num] is the next number. *)
Definition numbered (m : menu) : Prop :=
  map opt_num (options m) = map Z.of_nat (seq 1 (length (options m)))
  /\ option_num m = 1 + Z.of_nat (length (options m)).

(** [m'] is [m] with entries of the given types appended and numbered on. *)
Definition extends (types : list string) (m m' : menu) : Prop :=
  exists new,
    options m' = (options m ++ new)%list
    /\ Forall (fun o => In (opt_type o) types) new
    /\ (numbered m -> numbered m').

(** ** Further definitions

    The rest of [YouDownloader.py] as far as it decides something:
    [create_download_options], the prompt loops [get_user_choice] and
    [get_url_from_user] over the lines the user types, [validate_url],
    [format_duration], [format_filesize], the badge of a tag on a video line
    and the selection step of [run]. [str.strip] and [int] are parameters of
    the prompt loops. What only prints, or talks to the file system or to
    the download backend, is left out. *)

(** Which keyword evidence the four scans found. *)
Definition stereo_evidence (note ttl desc : string) : Prop :=
  exists k, In k stereo_keyword_order /\ found_in k note ttl desc.

Definition vr180_evidence (note ttl desc : string) : Prop :=
  exists k, In k vr180_keywords /\ found_in k note ttl desc.

Definition hdr_evidence (note fid : string) : Prop :=
  exists k, In k hdr_keywords
            /\ (contains k note = true \/ contains k fid = true).

(** ** FormatAggregator: what the two lists hold *)

(** The descriptor has a video stream: [fmt.get('vcodec') != 'none'], the
    part the first two branches of the loop body share. *)
Definition has_video (fmt : fmt_dict) : bool := not_none (get (vcodec fmt)).

(** The third branch: an audio stream and no video stream. *)
Definition audio_only (fmt : fmt_dict) : bool :=
  not_none (get (acodec fmt)) && is_none (get (vcodec fmt)).

(** The case the loop body has no branch for: both codecs are ['none']. *)
Definition no_stream (fmt : fmt_dict) : bool :=
  is_none (get (vcodec fmt)) && is_none (get (acodec fmt)).

(** [d] is the dictionary the loop body builds for [video_formats] from the
    descriptor [fmt]. *)
Record built_video (info : option info_dict) (fmt d : fmt_dict) : Prop := {
  bv_format_id : format_id fmt <> Missing /\ format_id d = format_id fmt;
  bv_ext : ext fmt <> Missing /\ ext d = ext fmt;
  bv_type :
    type_ d
    = Val (if not_none (get (acodec fmt)) then "video+audio" else "video_only");
  bv_video_types :
    exists vts, detect_video_type fmt info = Ok vts /\ video_types d = Val vts;
  bv_height : height d = store (get (height fmt));
  bv_width : width d = store (get (width fmt));
  bv_fps : fps d = store (get (fps fmt));
  bv_vbr : vbr d = store (get (vbr fmt));
  bv_vcodec : vcodec d = store (get_default (vcodec fmt) "unknown");
  bv_acodec :
    acodec d
    = if not_none (get (acodec fmt))
      then store (get_default (acodec fmt) "unknown") else Missing;
  bv_format_note : format_note d = store (get_default (format_note fmt) "");
  bv_resolution :
    resolution d = store (get_default (resolution fmt) "unknown")
}.

(** [d] is the dictionary the loop body builds for [audio_formats]. The
    detector has run on the descriptor, although its tags are not kept. *)
Record built_audio (info : option info_dict) (fmt d : fmt_dict) : Prop := {
  ba_format_id : format_id fmt <> Missing /\ format_id d = format_id fmt;
  ba_ext : ext fmt <> Missing /\ ext d = ext fmt;
  ba_type : type_ d = Val "audio";
  ba_detected : exists vts, detect_video_type fmt info = Ok vts;
  ba_abr : abr d = store (get (abr fmt));
  ba_acodec : acodec d = store (get_default (acodec fmt) "unknown");
  ba_filesize : filesize d = store (get (filesize fmt))
}.

(** The descriptors on which an iteration of the loop raises: a text the
    detector lower-cases holds [None], or the descriptor has a stream and
    lacks the key ['format_id'] or ['ext']. *)
Definition raising_descriptor (i : info_dict) (fmt : fmt_dict) : Prop :=
  format_note fmt = Null \/ format_id fmt = Null
  \/ title i = Null \/ description i = Null
  \/ ((vcodec fmt <> Val "none" \/ acodec fmt <> Val "none")
      /\ (format_id fmt = Missing \/ ext fmt = Missing)).

(** ** OptionListBuilder: the ranked entries *)

(** [o] is the entry the builder appends for the format dictionary [fmt]:
    no description, the dictionary under ['info'], and the dictionary's own
    identifier and extension as the selector. *)
Record ranked_from (type : string) (o : download_option) (fmt : fmt_dict)
    : Prop := {
  rf_type : opt_type o = type;
  rf_info : opt_info o = Val fmt;
  rf_description : opt_description o = Missing;
  rf_format : format_id fmt <> Missing /\ opt_format o = get (format_id fmt);
  rf_ext : ext fmt <> Missing /\ opt_ext o = get (ext fmt)
}.

(** The audio entries and the video entries of an option list stand for
    these format dictionaries, keyed by their dedup keys. *)
Definition ranked_audio (audio : list download_option)
    (kept : list (string * fmt_dict)) : Prop :=
  Forall2 (fun o p => ranked_from "audio" o (snd p)) audio kept.

Definition ranked_video (video : list download_option)
    (kept : list (string * fmt_dict)) : Prop :=
  Forall2 (fun o p => ranked_from "video" o (snd p)
                      /\ type_ (snd p) <> Missing)
    video kept.

(** The seven fixed entries, all with one number. *)
Definition fixed_entries_at (num : Z) : list download_option :=
  [ entry_3d_180_sbs num; entry_vr_360 num; entry_vr_180 num; entry_3d num;
    fixed_entry num "🎬 Best Quality Video (MKV - Supports 4K/8K/HDR)"
      "bestvideo+bestaudio/best" "mkv" "quick_video_mkv";
    fixed_entry num "🎬 Best Quality Video (MP4 - More Compatible)"
      "bestvideo[ext=mp4]+bestaudio[ext=m4a]/best[ext=mp4]/best"
      "mp4" "quick_video_mp4";
    fixed_entry num "🎵 Best Quality Audio (MP3 320kbps)"
      "bestaudio/best" "mp3" "quick_audio" ].

(** ** [create_download_options] *)

(** An entry of the list under ['postprocessors']. *)
Record postprocessor : Type := {
  pp_key : string;
  preferredcodec : string;
  preferredquality : string
}.

(** The dictionary [base_opts] handed to the download backend. *)
Record ydl_opts : Type := {
  outtmpl : string;
  ignoreerrors : bool;
  ydl_format : field string;
  merge_output_format : field string;
  writeinfojson : field bool;
  postprocessors : field (list postprocessor)
}.

(** [base_opts.update({'format': f, 'merge_output_format': m})] *)
Definition update_format_merge (base_opts : ydl_opts) (f m : string)
    : ydl_opts :=
  {| outtmpl := outtmpl base_opts;
     ignoreerrors := ignoreerrors base_opts;
     ydl_format := Val f;
     merge_output_format := Val m;
     writeinfojson := writeinfojson base_opts;
     postprocessors := postprocessors base_opts |}.

(** The same with ['writeinfojson': True]. *)
Definition update_format_merge_json (base_opts : ydl_opts) (f m : string)
    : ydl_opts :=
  {| outtmpl := outtmpl base_opts;
     ignoreerrors := ignoreerrors base_opts;
     ydl_format := Val f;
     merge_output_format := Val m;
     writeinfojson := Val true;
     postprocessors := postprocessors base_opts |}.

(** [base_opts.update({'format': f, 'postprocessors': pps})] *)
Definition update_format_postprocessors (base_opts : ydl_opts) (f : string)
    (pps : list postprocessor) : ydl_opts :=
  {| outtmpl := outtmpl base_opts;
     ignoreerrors := ignoreerrors base_opts;
     ydl_format := Val f;
     merge_output_format := merge_output_format base_opts;
     writeinfojson := writeinfojson base_opts;
     postprocessors := Val pps |}.

(** [base_opts['format'] = v] *)
Definition set_format (base_opts : ydl_opts) (v : option string) : ydl_opts :=
  {| outtmpl := outtmpl base_opts;
     ignoreerrors := ignoreerrors base_opts;
     ydl_format := store v;
     merge_output_format := merge_output_format base_opts;
     writeinfojson := writeinfojson base_opts;
     postprocessors := postprocessors base_opts |}.

(** [selected_option['info']['type']] *)
Definition info_type (selected_option : download_option)
    : result (option string) :=
  info ← subscript (opt_info selected_option);
  match info with
  | Some fmt => subscript (type_ fmt)
  | None => Raise TypeError
  end.

(** [v == 'video_only'] *)
Definition is_video_only (v : option string) : bool :=
  match v with
  | Some s => String.eqb s "video_only"
  | None => false
  end.

(** [v in l] for a string or [None] and a list of strings. *)
Definition mem_opt (v : option string) (l : list string) : bool :=
  match v with
  | Some s => mem s l
  | None => false
  end.

(** [base_opts] as the function starts with it, [download_dir] being
    [self.download_dir]. *)
Definition initial_opts (download_dir : string) : ydl_opts :=
  {| outtmpl := download_dir +:+ "/%(title)s.%(ext)s";
     ignoreerrors := false;
     ydl_format := Missing;
     merge_output_format := Missing;
     writeinfojson := Missing;
     postprocessors := Missing |}.

Definition create_download_options (download_dir : string)
    (selected_option : download_option) : result ydl_opts :=
  let base_opts := initial_opts download_dir in
  let type := opt_type selected_option in
  if String.eqb type "quick_video_mkv" then
    Ok (update_format_merge base_opts "bestvideo+bestaudio/best" "mkv")
  else if String.eqb type "quick_video_mp4" then
    Ok (update_format_merge base_opts
          "bestvideo[ext=mp4]+bestaudio[ext=m4a]/best[ext=mp4]/best" "mp4")
  else if String.eqb type "vr_video" then
    Ok (update_format_merge_json base_opts "bestvideo+bestaudio/best" "mkv")
  else if String.eqb type "3d_video" then
    Ok (update_format_merge_json base_opts "bestvideo+bestaudio/best" "mkv")
  else if String.eqb type "quick_audio" then
    Ok (update_format_postprocessors base_opts "bestaudio/best"
          [ {| pp_key := "FFmpegExtractAudio";
               preferredcodec := "mp3";
               preferredquality := "320" |} ])
  else if mem type ["video"; "video_only"] then
    ty ← info_type selected_option;
    if is_video_only ty then
      Ok (update_format_merge base_opts
            (fmt_str (opt_format selected_option) +:+ "+bestaudio/best")
            (if mem_opt (opt_ext selected_option) ["webm"; "mkv"]
             then "mkv" else "mp4"))
    else Ok (set_format base_opts (opt_format selected_option))
  else Ok (set_format base_opts (opt_format selected_option)).

(** ** The prompts of [run] *)

(** What a call of [input] gives: a line, or the user's interrupt. The end
    of the list is the end of the input. *)
Inductive input_event : Type :=
| Line (s : string)
| KeyboardInterrupt.

(** How a prompt loop ends: it returns, or it leaves through [sys.exit(0)],
    or [input] raises at the end of the input. *)
Inductive outcome (A : Type) : Type :=
| Returned (a : A)
| SysExit
| EOFError.
Arguments Returned {A} a.
Arguments SysExit {A}.
Arguments EOFError {A}.

Section Prompts.

(** [str.strip], and [int] on a string, [None] standing for [ValueError]. *)
Variable strip : string -> string.
Variable int : string -> option Z.

(** [get_user_choice]: the outcome and the input that is left. *)
Fixpoint get_user_choice (max_options : Z) (inputs : list input_event)
    : outcome Z * list input_event :=
  match inputs with
  | [] => (EOFError, [])
  | KeyboardInterrupt :: rest => (SysExit, rest)
  | Line s :: rest =>
      let choice := strip s in
      if String.eqb choice "" then get_user_choice max_options rest
      else
        match int choice with
        | None => get_user_choice max_options rest
        | Some choice_num =>
            if choice_num =? 0 then (Returned 0, rest)
            else if (1 <=? choice_num) && (choice_num <=? max_options)
            then (Returned choice_num, rest)
            else get_user_choice max_options rest
        end
  end.

(** A line [get_user_choice] asks again after. *)
Definition rejected (max_options : Z) (s : string) : Prop :=
  strip s = ""
  \/ int (strip s) = None
  \/ exists k, int (strip s) = Some k /\ k <> 0
                /\ ~ (1 <= k <= max_options).

End Prompts.

(** [l[i]] on a list: a negative index counts from the end, [None] stands
    for [IndexError]. *)
Definition py_index {A : Type} (l : list A) (i : Z) : option A :=
  let n := Z.of_nat (length l) in
  if (0 <=? i) && (i <? n) then nth_error l (Z.to_nat i)
  else if (i <? 0) && (- n <=? i) then nth_error l (Z.to_nat (n + i))
  else None.

(** [int] on a string of ASCII digits, an instance for the examples. *)
Fixpoint digits_value (s : string) (acc : Z) : option Z :=
  match s with
  | EmptyString => Some acc
  | String c s' =>
      let n := Z.of_nat (nat_of_ascii c) in
      if (48 <=? n) && (n <=? 57) then digits_value s' (10 * acc + (n - 48))
      else None
  end.

Definition int_of_digits (s : string) : option Z :=
  match s with
  | EmptyString => None
  | _ => digits_value s 0
  end.

(** ** [format_duration] *)

(** [f"{n:02d}"] *)
Definition pad2 (n : Z) : string :=
  if (0 <=? n) && (n <? 10) then "0" +:+ pretty n else pretty n.

(** [format_duration], the duration being an integer or [None]. *)
Definition format_duration (seconds : option Z) : string :=
  if negb (truthy_num seconds) then "Unknown"
  else
    let s := or0 seconds in
    let hours := s / 3600 in
    let minutes := (s mod 3600) / 60 in
    let seconds := s mod 60 in
    if 0 <? hours
    then pad2 hours +:+ ":" +:+ pad2 minutes +:+ ":" +:+ pad2 seconds
    else pad2 minutes +:+ ":" +:+ pad2 seconds.

(** ** The badges of a video line *)

(** The [if]/[elif] chain that turns a tag into its badge. *)
Definition special_tag (vtype : string) : string :=
  if String.eqb vtype "3D-180°-VR" then "🥽3D-180°-VR"
  else if String.eqb vtype "SBS-3D" then "🥽SBS-3D"
  else if String.eqb vtype "TB-3D" then "🥽TB-3D"
  else if String.eqb vtype "DualFisheye-3D" then "🥽DualFish-3D"
  else if String.eqb vtype "360°-EQR" then "🌐360°-EQR"
  else if String.eqb vtype "360°" then "🌐360°"
  else if String.eqb vtype "VR" then "🌐VR"
  else if String.eqb vtype "3D" then "🥽3D"
  else if String.eqb vtype "180°" then "📹180°VR"
  else if String.eqb vtype "HDR" then "✨HDR"
  else "🎯" +:+ vtype.

(** ** [format_filesize] *)

(** The nearest whole number to [n / d], a tie going to the even one. *)
Definition round_half_even (n d : Z) : Z :=
  let q := n / d in
  let r := n mod d in
  if 2 * r <? d then q
  else if d <? 2 * r then q + 1
  else if Z.even q then q else q + 1.

(** [f"{x:.1f}"] for the number [x = n / d] with [d] positive: [x] rounded
    to the nearest tenth, a tie going to the even tenth. *)
Definition fixed1 (n d : Z) : string :=
  let tenths := round_half_even (10 * Z.abs n) d in
  (if n <? 0 then "-" else "")
  +:+ pretty (tenths / 10) +:+ "." +:+ pretty (tenths mod 10).

(** The loop over the units. The running value of [size] is the number
    [n / d]: a division by [1024.0] is exact in binary floating point, and
    so is the conversion of a whole number below 2^53. *)
Fixpoint filesize_loop (units : list string) (n d : Z) : string :=
  match units with
  | [] => fixed1 n d +:+ " TB"
  | unit :: rest =>
      if n <? 1024 * d then fixed1 n d +:+ " " +:+ unit
      else filesize_loop rest n (1024 * d)
  end.

(** [format_filesize], the size being a whole number or [None]. *)
Definition format_filesize (size : option Z) : string :=
  if negb (truthy_num size) then "Unknown size"
  else filesize_loop ["B"; "KB"; "MB"; "GB"] (or0 size) 1.

(** ** [validate_url] *)

(** Regular expressions over the characters of a string, as far as the
    pattern of [validate_url] needs them. *)
Inductive regex : Type :=
| RNone
| REps
| RChr (p : ascii -> bool)
| RSeq (r1 r2 : regex)
| RAlt (r1 r2 : regex)
| RStar (r : regex).

(** The strings a regular expression matches from end to end. *)
Inductive Matches : regex -> string -> Prop :=
| MEps : Matches REps ""
| MChr (p : ascii -> bool) (c : ascii) :
    p c = true -> Matches (RChr p) (String c "")
| MSeq (r1 r2 : regex) (s1 s2 : string) :
    Matches r1 s1 -> Matches r2 s2 -> Matches (RSeq r1 r2) (s1 +:+ s2)
| MAltL (r1 r2 : regex) (s : string) :
    Matches r1 s -> Matches (RAlt r1 r2) s
| MAltR (r1 r2 : regex) (s : string) :
    Matches r2 s -> Matches (RAlt r1 r2) s
| MStarNil (r : regex) : Matches (RStar r) ""
| MStarApp (r : regex) (s1 s2 : string) :
    Matches r s1 -> Matches (RStar r) s2 -> Matches (RStar r) (s1 +:+ s2).

(** Matching by derivatives: whether the expression matches the empty
    string, and what is left of it after one character. *)
Fixpoint nullable (r : regex) : bool :=
  match r with
  | RNone => false
  | REps => true
  | RChr _ => false
  | RSeq r1 r2 => nullable r1 && nullable r2
  | RAlt r1 r2 => nullable r1 || nullable r2
  | RStar _ => true
  end.

Fixpoint deriv (c : ascii) (r : regex) : regex :=
  match r with
  | RNone => RNone
  | REps => RNone
  | RChr p => if p c then REps else RNone
  | RSeq r1 r2 =>
      if nullable r1
      then RAlt (RSeq (deriv c r1) r2) (deriv c r2)
      else RSeq (deriv c r1) r2
  | RAlt r1 r2 => RAlt (deriv c r1) (deriv c r2)
  | RStar r0 => RSeq (deriv c r0) (RStar r0)
  end.

(** [pattern.match(s) is not None] for a pattern anchored at both ends. *)
Fixpoint matches (r : regex) (s : string) : bool :=
  match s with
  | EmptyString => nullable r
  | String c s' => matches (deriv c r) s'
  end.

(** [r?], [r+], [r{n}], [r{0,n}] and [r{lo,hi}] *)
Definition ROpt (r : regex) : regex := RAlt r REps.

Definition RPlus (r : regex) : regex := RSeq r (RStar r).

Fixpoint RTimes (n : nat) (r : regex) : regex :=
  match n with
  | O => REps
  | S n' => RSeq r (RTimes n' r)
  end.

Fixpoint RUpTo (n : nat) (r : regex) : regex :=
  match n with
  | O => REps
  | S n' => ROpt (RSeq r (RUpTo n' r))
  end.

Definition RBetween (lo hi : nat) (r : regex) : regex :=
  RSeq (RTimes lo r) (RUpTo (hi - lo) r).

(** The character classes of the pattern, read with [re.IGNORECASE] on
    ASCII text. *)
Definition is_digit (c : ascii) : bool :=
  let n := nat_of_ascii c in (48 <=? n)%nat && (n <=? 57)%nat.

Definition is_alpha (c : ascii) : bool :=
  let n := nat_of_ascii c in
  (65 <=? n)%nat && (n <=? 90)%nat || (97 <=? n)%nat && (n <=? 122)%nat.

Definition is_alnum (c : ascii) : bool := is_alpha c || is_digit c.

Definition is_alnum_dash (c : ascii) : bool := is_alnum c || Ascii.eqb c "-".

(** A character of the pattern, matched without regard to case. *)
Definition same_letter (k c : ascii) : bool :=
  Ascii.eqb (lower_ascii c) (lower_ascii k).

(** [str.isspace] on an ASCII character, which is also what [\s] matches. *)
Definition is_space (c : ascii) : bool :=
  let n := nat_of_ascii c in
  (9 <=? n)%nat && (n <=? 13)%nat || (28 <=? n)%nat && (n <=? 32)%nat.

Definition non_space (c : ascii) : bool := negb (is_space c).

Definition slash_or_question (c : ascii) : bool :=
  Ascii.eqb c "/" || Ascii.eqb c "?".

(** A word of the pattern. *)
Fixpoint RWord (s : string) : regex :=
  match s with
  | EmptyString => REps
  | String k s' => RSeq (RChr (same_letter k)) (RWord s')
  end.

(** [[A-Z0-9](?:[A-Z0-9-]{0,61}[A-Z0-9])?] *)
Definition label : regex :=
  RSeq (RChr is_alnum)
    (ROpt (RSeq (RUpTo 61 (RChr is_alnum_dash)) (RChr is_alnum))).

(** [(?:label\.)+[A-Z]{2,6}\.?] *)
Definition domain : regex :=
  RSeq (RPlus (RSeq label (RChr (Ascii.eqb "."))))
    (RSeq (RBetween 2 6 (RChr is_alpha)) (ROpt (RChr (Ascii.eqb ".")))).

(** [\d{1,3}\.\d{1,3}\.\d{1,3}\.\d{1,3}] *)
Definition dotted_quad : regex :=
  RSeq (RBetween 1 3 (RChr is_digit))
    (RSeq (RChr (Ascii.eqb "."))
       (RSeq (RBetween 1 3 (RChr is_digit))
          (RSeq (RChr (Ascii.eqb "."))
             (RSeq (RBetween 1 3 (RChr is_digit))
                (RSeq (RChr (Ascii.eqb "."))
                   (RBetween 1 3 (RChr is_digit))))))).

Definition host : regex := RAlt domain (RAlt (RWord "localhost") dotted_quad).

(** [(?::\d+)?] *)
Definition port : regex :=
  ROpt (RSeq (RChr (Ascii.eqb ":")) (RPlus (RChr is_digit))).

(** [(?:/?|[/?]\S+)] *)
Definition path : regex :=
  RAlt (ROpt (RChr (Ascii.eqb "/")))
    (RSeq (RChr slash_or_question) (RPlus (RChr non_space))).

(** The pattern, between [^] and [$]. *)
Definition url_pattern : regex :=
  RSeq (RWord "http")
    (RSeq (ROpt (RChr (same_letter "s")))
       (RSeq (RWord "://") (RSeq host (RSeq port path)))).

(** Every character is an ASCII character. *)
Fixpoint is_ascii (s : string) : bool :=
  match s with
  | EmptyString => true
  | String c s' => (nat_of_ascii c <? 128)%nat && is_ascii s'
  end.

(** [str.strip] on ASCII text, an instance for the examples. *)
Fixpoint lstrip (s : string) : string :=
  match s with
  | EmptyString => EmptyString
  | String c s' => if is_space c then lstrip s' else s
  end.

Fixpoint rstrip (s : string) : string :=
  match s with
  | EmptyString => EmptyString
  | String c s' =>
      match rstrip s' with
      | EmptyString => if is_space c then EmptyString else String c EmptyString
      | r => String c r
      end
  end.

Definition strip_ascii (s : string) : string := rstrip (lstrip s).

Section Url.

(** [str.strip]. *)
Variable strip : string -> string.

(** [validate_url]. The pattern is read as on ASCII text; on other text
    [re.IGNORECASE], [\d] and [\S] have more to say. The stripped text has
    no newline at its end, so [$] is the end of the text. *)
Definition validate_url (url : string) : bool :=
  if String.eqb url "" || String.eqb (strip url) "" then false
  else
    let url := strip url in
    matches url_pattern url.

(** [get_url_from_user]: the outcome and the input that is left. *)
Fixpoint get_url_from_user (inputs : list input_event)
    : outcome string * list input_event :=
  match inputs with
  | [] => (EOFError, [])
  | KeyboardInterrupt :: rest => (SysExit, rest)
  | Line s :: rest =>
      let url := strip s in
      if mem (str_lower url) ["quit"; "exit"; "q"] then (SysExit, rest)
      else if String.eqb url "" then get_url_from_user rest
      else if negb (validate_url url) then get_url_from_user rest
      else (Returned url, rest)
  end.

End Url.

(** Every character of the string is in the class. *)
Fixpoint all_chars (p : ascii -> bool) (s : string) : bool :=
  match s with
  | EmptyString => true
  | String c s' => p c && all_chars p s'
  end.

(** The class [p] lies within the class [q], checked on the 256
    characters. *)
Definition class_within (p q : ascii -> bool) : bool :=
  forallb (fun n => implb (p (ascii_of_nat n)) (q (ascii_of_nat n)))
    (seq 0 256).

(** Every class of the expression lies within [q]. *)
Fixpoint classes_within (q : ascii -> bool) (r : regex) : bool :=
  match r with
  | RNone | REps => true
  | RChr p => class_within p q
  | RSeq r1 r2 | RAlt r1 r2 => classes_within q r1 && classes_within q r2
  | RStar r0 => classes_within q r0
  end.

(** The characters of a host name in the pattern. *)
Definition host_char (c : ascii) : bool := is_alnum_dash c || Ascii.eqb c ".".

(** One to three digits. *)
Definition digit_group (s : string) : Prop :=
  all_chars is_digit s = true /\ (1 <= String.length s <= 3)%nat.

(** A line [get_url_from_user] asks again after. *)
Definition refused_url (strip : string -> string) (s : string) : Prop :=
  strip s = "" \/ validate_url strip (strip s) = false.

(** ** The selection step of [run] *)

(** How one pass of the loop of [run] goes on after the formats are shown:
    no formats, the choice 0, an entry with its download options and the
    text of the confirmation line, an exception, or the way out through a
    prompt. *)
Inductive selection : Type :=
| NoFormats
| Cancelled
| Selected (selected_option : download_option) (download_opts : ydl_opts)
    (description : option string)
| IndexError
| Raised (e : exn)
| Exited
| InputEnded.

Section Selection.

Variable strip : string -> string.
Variable int : string -> option Z.

(** From [if not options] to the confirmation text of [run]. *)
Definition select_option (download_dir : string)
    (options : list download_option) (inputs : list input_event)
    : selection * list input_event :=
  match options with
  | [] => (NoFormats, inputs)
  | _ :: _ =>
      match get_user_choice strip int (Z.of_nat (length options)) inputs with
      | (Returned choice, rest) =>
          if choice =? 0 then (Cancelled, rest)
          else
            match py_index options (choice - 1) with
            | None => (IndexError, rest)
            | Some selected_option =>
                match create_download_options download_dir selected_option with
                | Raise e => (Raised e, rest)
                | Ok download_opts =>
                    (Selected selected_option download_opts
                       (get_default (opt_description selected_option)
                          (opt_type selected_option +:+ " format")),
                     rest)
                end
            end
      | (SysExit, rest) => (Exited, rest)
      | (EOFError, rest) => (InputEnded, rest)
      end
  end.

End Selection.

(** ** OptionRanker: the dedup keys as texts *)

(** A character other than the underscore. *)
Definition not_underscore (c : ascii) : bool := negb (Ascii.eqb c "_").

(** A character of a whole number as Python writes it: a digit or the
    sign. *)
Definition whole_char (c : ascii) : bool :=
  Ascii.eqb c "-"
  || ((48 <=? nat_of_ascii c)%nat && (nat_of_ascii c <=? 57)%nat).

(** The five values the dedup key of a video format is made of, as the key
    writes them: extension, height, fps, the first 10 characters of the
    video codec, the tags joined by [+]. *)
Definition key_texts (fmt : fmt_dict)
    : result (string * string * string * string * string) :=
  vts ← match get_default (video_types fmt) [] with
        | Some l => Ok l
        | None => Raise TypeError
        end;
  e ← subscript (ext fmt);
  vc ← slice 10 (get_default (vcodec fmt) "unknown");
  Ok (fmt_str e, fmt_num (get_default (height fmt) 0),
      fmt_number (get_default (fps fmt) (Int 0)), vc, join "+" vts).

(** The two values the dedup key of an audio format is made of, as the key
    writes them: extension and bitrate. *)
Definition audio_key_texts (fmt : fmt_dict) : result (string * string) :=
  e ← subscript (ext fmt);
  Ok (fmt_str e, fmt_number (get_default (abr fmt) (Int 0))).

(** Two numbers, or [None] twice, that are equal. *)
Definition same_number (a b : option num) : Prop :=
  match a, b with
  | Some x, Some y => num_eqb x y = true
  | None, None => True
  | _, _ => False
  end.

(** The dedup key in the words of the specification, as a tuple of values:
    two video formats have an identical key when they agree on extension,
    height, fps, the first 10 characters of the video codec and the joined
    tags. *)
Definition identical_key (f1 f2 : fmt_dict) : Prop :=
  subscript (ext f1) = subscript (ext f2)
  /\ get_default (height f1) 0 = get_default (height f2) 0
  /\ same_number (get_default (fps f1) (Int 0))
       (get_default (fps f2) (Int 0))
  /\ slice 10 (get_default (vcodec f1) "unknown")
     = slice 10 (get_default (vcodec f2) "unknown")
  /\ option_map (join "+") (get_default (video_types f1) [])
     = option_map (join "+") (get_default (video_types f2) []).

(** ** Example inputs *)

(** A muxed descriptor at 2160p. *)
Definition ex_muxed : fmt_dict :=
  {| format_id := Val "22"; ext := Val "mp4"; resolution := Val "3840x2160";
     height := Val 2160; width := Val 3840; filesize := Missing;
     vcodec := Val "vp9"; acodec := Val "opus"; fps := Val (Int 60);
     vbr := Missing; abr := Missing; type_ := Missing;
     video_types := Missing; format_note := Val "" |}.

(** A video-only descriptor whose note says side-by-side. *)
Definition ex_video_only : fmt_dict :=
  {| format_id := Val "313"; ext := Val "webm"; resolution := Missing;
     height := Val 2160; width := Val 3840; filesize := Missing;
     vcodec := Val "vp9"; acodec := Val "none"; fps := Val (Int 60);
     vbr := Missing; abr := Missing; type_ := Missing;
     video_types := Missing; format_note := Val "sbs" |}.

(** An audio-only descriptor. *)
Definition ex_audio : fmt_dict :=
  {| format_id := Val "140"; ext := Val "m4a"; resolution := Missing;
     height := Missing; width := Missing; filesize := Missing;
     vcodec := Val "none"; acodec := Val "mp4a.40.2"; fps := Missing;
     vbr := Missing; abr := Val (Int 128); type_ := Missing;
     video_types := Missing; format_note := Missing |}.

(** A descriptor with neither stream. *)
Definition ex_neither : fmt_dict :=
  {| format_id := Val "sb0"; ext := Val "mhtml"; resolution := Missing;
     height := Missing; width := Missing; filesize := Missing;
     vcodec := Val "none"; acodec := Val "none"; fps := Missing;
     vbr := Missing; abr := Missing; type_ := Missing;
     video_types := Missing; format_note := Val "storyboard" |}.

(** A descriptor with neither stream whose note is [None]. *)
Definition ex_neither_null_note : fmt_dict :=
  {| format_id := Val "sb1"; ext := Val "mhtml"; resolution := Missing;
     height := Missing; width := Missing; filesize := Missing;
     vcodec := Val "none"; acodec := Val "none"; fps := Missing;
     vbr := Missing; abr := Missing; type_ := Missing;
     video_types := Missing; format_note := Null |}.

(** A descriptor without the two codec keys. *)
Definition ex_no_codecs : fmt_dict :=
  {| format_id := Val "0"; ext := Val "mp4"; resolution := Missing;
     height := Missing; width := Missing; filesize := Missing;
     vcodec := Missing; acodec := Missing; fps := Missing;
     vbr := Missing; abr := Missing; type_ := Missing;
     video_types := Missing; format_note := Missing |}.

(** A descriptor whose video codec is [None]. *)
Definition ex_null_vcodec : fmt_dict :=
  {| format_id := Val "18"; ext := Val "mp4"; resolution := Missing;
     height := Val 360; width := Val 640; filesize := Missing;
     vcodec := Null; acodec := Val "mp4a.40.2"; fps := Val (Int 30);
     vbr := Missing; abr := Missing; type_ := Missing;
     video_types := Missing; format_note := Missing |}.

(** A descriptor whose height is zero. *)
Definition ex_zero_height : fmt_dict :=
  {| format_id := Val "1"; ext := Val "mp4"; resolution := Val "640x0";
     height := Val 0; width := Val 640; filesize := Missing;
     vcodec := Val "h264"; acodec := Val "aac"; fps := Missing;
     vbr := Missing; abr := Missing; type_ := Missing;
     video_types := Missing; format_note := Missing |}.

(** A built dictionary tagged equirectangular and nothing else. *)
Definition ex_eqr : fmt_dict :=
  {| format_id := Val "401"; ext := Val "mp4"; resolution := Val "unknown";
     height := Val 2160; width := Val 3840; filesize := Null;
     vcodec := Val "av01"; acodec := Missing; fps := Val (Int 30);
     vbr := Null; abr := Missing; type_ := Val "video_only";
     video_types := Val ["360°-EQR"]; format_note := Val "" |}.

(** A descriptor as an HLS manifest gives it: the note and the video codec
    are [None]. *)
Definition ex_hls : fmt_dict :=
  {| format_id := Val "hls-720"; ext := Val "mp4"; resolution := Missing;
     height := Val 720; width := Val 1280; filesize := Missing;
     vcodec := Null; acodec := Missing; fps := Missing;
     vbr := Missing; abr := Missing; type_ := Missing;
     video_types := Missing; format_note := Null |}.

(** A descriptor whose note says anaglyph. *)
Definition ex_anaglyph : fmt_dict :=
  {| format_id := Val "137"; ext := Val "mp4"; resolution := Missing;
     height := Val 1080; width := Val 1920; filesize := Missing;
     vcodec := Val "avc1.640028"; acodec := Val "none";
     fps := Val (Float 2997 2);
     vbr := Missing; abr := Missing; type_ := Missing;
     video_types := Missing; format_note := Val "Anaglyph" |}.

(** Two built dictionaries that differ in the way the frame rate is
    written: 30 and 30.0. *)
Definition ex_fps_int : fmt_dict :=
  {| format_id := Val "136"; ext := Val "mp4"; resolution := Val "1280x720";
     height := Val 720; width := Val 1280; filesize := Null;
     vcodec := Val "avc1.4d401f"; acodec := Missing; fps := Val (Int 30);
     vbr := Null; abr := Missing; type_ := Val "video_only";
     video_types := Val []; format_note := Val "" |}.

Definition ex_fps_float : fmt_dict :=
  {| format_id := Val "hls-136"; ext := Val "mp4";
     resolution := Val "1280x720";
     height := Val 720; width := Val 1280; filesize := Null;
     vcodec := Val "avc1.4d401f"; acodec := Missing;
     fps := Val (Float 30 0);
     vbr := Null; abr := Missing; type_ := Val "video_only";
     video_types := Val []; format_note := Val "" |}.

(** Two built dictionaries with different extensions, heights, frame rates
    and codecs whose key texts are the same, [a_1_2_3_x_]. *)
Definition ex_underscore_ext : fmt_dict :=
  {| format_id := Val "1"; ext := Val "a_1"; resolution := Val "unknown";
     height := Val 2; width := Val 2; filesize := Null;
     vcodec := Val "x"; acodec := Missing; fps := Val (Int 3);
     vbr := Null; abr := Missing; type_ := Val "video_only";
     video_types := Val []; format_note := Val "" |}.

Definition ex_underscore_codec : fmt_dict :=
  {| format_id := Val "2"; ext := Val "a"; resolution := Val "unknown";
     height := Val 1; width := Val 1; filesize := Null;
     vcodec := Val "3_x"; acodec := Missing; fps := Val (Int 2);
     vbr := Null; abr := Missing; type_ := Val "video_only";
     video_types := Val []; format_note := Val "" |}.

(** Three built audio dictionaries: two bitrates written 128 and 128.0, and
    a higher one. *)
Definition ex_abr_int : fmt_dict :=
  {| format_id := Val "140"; ext := Val "m4a"; resolution := Missing;
     height := Missing; width := Missing; filesize := Null;
     vcodec := Missing; acodec := Val "mp4a.40.2"; fps := Missing;
     vbr := Missing; abr := Val (Int 128); type_ := Val "audio";
     video_types := Missing; format_note := Missing |}.

Definition ex_abr_float : fmt_dict :=
  {| format_id := Val "140-drc"; ext := Val "m4a"; resolution := Missing;
     height := Missing; width := Missing; filesize := Null;
     vcodec := Missing; acodec := Val "mp4a.40.2"; fps := Missing;
     vbr := Missing; abr := Val (Float 128 0); type_ := Val "audio";
     video_types := Missing; format_note := Missing |}.

Definition ex_abr_high : fmt_dict :=
  {| format_id := Val "251"; ext := Val "webm"; resolution := Missing;
     height := Missing; width := Missing; filesize := Null;
     vcodec := Missing; acodec := Val "opus"; fps := Missing;
     vbr := Missing; abr := Val (Float 129502 3); type_ := Val "audio";
     video_types := Missing; format_note := Missing |}.

Definition ex_info (ttl : string) (fmts : list fmt_dict) : option info_dict :=
  Some {| title := Val ttl; description := Missing; formats := Val fmts |}.

(** Metadata whose description is [None]. *)
Definition ex_info_null_description (fmts : list fmt_dict)
    : option info_dict :=
  Some {| title := Val "clip"; description := Null; formats := Val fmts |}.

(** Metadata whose title says side by side and whose description says
    stereo. *)
Definition ex_stereo_info : option info_dict :=
  Some {| title := Val "Side by Side clip";
          description := Val "Shot in stereo"; formats := Val [ex_anaglyph] |}.

(** A video about VR with a video-only, an audio-only and a muxed format, the
    video-only one twice. *)
Definition ex_vr_info : option info_dict :=
  ex_info "A VR clip" [ex_video_only; ex_audio; ex_muxed; ex_video_only].

Definition ex_video_formats : list fmt_dict :=
  Eval vm_compute in snd (fst (get_video_info ex_vr_info)).

Definition ex_audio_formats : list fmt_dict :=
  Eval vm_compute in snd (get_video_info ex_vr_info).

Definition ex_options : list download_option :=
  Eval vm_compute in
    match display_format_options ex_video_formats ex_audio_formats ex_vr_info
    with
    | Ok opts => opts
    | Raise _ => []
    end.

(** * Properties *)

(** ** Strings and lists *)

Lemma mem_In (x : string) (l : list string) : mem x l = true <-> In x l.
Proof.
  unfold mem. rewrite existsb_exists. split.
  - intros (y & Hy & Heq). apply String.eqb_eq in Heq. now subst.
  - intros H. exists x. split; [assumption | apply String.eqb_refl].
Qed.

Lemma mem_false_In (x : string) (l : list string) :
  mem x l = false <-> ~ In x l.
Proof.
  rewrite <- mem_In. destruct (mem x l); split; congruence.
Qed.

Lemma mem_app (x : string) (l1 l2 : list string) :
  mem x (l1 ++ l2) = mem x l1 || mem x l2.
Proof. unfold mem. apply existsb_app. Qed.

Lemma filter_filter_implied {A : Type} (p q : A -> bool) (l : list A) :
  (forall x, p x = true -> q x = true) ->
  List.filter p (List.filter q l) = List.filter p l.
Proof.
  intros Hpq. induction l as [|x l IH]; simpl; [reflexivity|].
  destruct (q x) eqn:Hq, (p x) eqn:Hp; simpl; rewrite ?Hp, ?IH; try reflexivity.
  apply Hpq in Hp. congruence.
Qed.

(** ** TypeDetector *)

Lemma stereo_contains_3D (t : string) :
  In t stereo_family -> contains "3D" t = true.
Proof.
  unfold stereo_family. simpl.
  intros [<-|[<-|[<-|[<-|[<-|[]]]]]]; reflexivity.
Qed.

Lemma independent_keeps (t : string) :
  is_independent t = true ->
  negb (contains "3D" t) && negb (String.eqb t "180°") = true.
Proof.
  unfold is_independent. rewrite mem_In. unfold independent_tags. simpl.
  intros [<-|[<-|[<-|[<-|[]]]]]; reflexivity.
Qed.

Lemma combine_fires (acc : list string) :
  (exists t, In t stereo_family /\ In t acc) ->
  In "180°" acc ->
  combine_3d_180 acc =
  "3D-180°-VR"
  :: List.filter
       (fun vtype => negb (contains "3D" vtype) && negb (String.eqb vtype "180°"))
       acc.
Proof.
  intros (t & Hfam & Hacc) H180. unfold combine_3d_180.
  assert (existsb (contains "3D") acc = true) as ->.
  { apply existsb_exists. exists t. split; [assumption|].
    now apply stereo_contains_3D. }
  apply mem_In in H180. now rewrite H180.
Qed.

(** C1. In [detect_video_type], when the list accumulated by the four scans
    holds a tag of the stereoscopic family and also ['180°'], the list
    returned holds ['3D-180°-VR'], holds no tag of the stereoscopic family
    and not ['180°'], and holds the independent tags (['HDR'], ['360°'],
    ['VR'], ['360°-EQR']) exactly as the accumulated list does: the same
    ones, in the same order. *)
Theorem detect_video_type_combination
    (fmt : fmt_dict) (info : option info_dict) (acc : list string) :
  accumulated_types fmt info = Ok acc ->
  (exists t, In t stereo_family /\ In t acc) ->
  In "180°" acc ->
  exists out,
    detect_video_type fmt info = Ok out
    /\ In "3D-180°-VR" out
    /\ (forall t, In t stereo_family -> ~ In t out)
    /\ ~ In "180°" out
    /\ (forall t, In t independent_tags -> (In t out <-> In t acc))
    /\ List.filter is_independent out = List.filter is_independent acc.
Proof.
  intros Hacc Hst H180.
  unfold accumulated_types in Hacc. unfold detect_video_type.
  destruct (detect_texts fmt info) as [[[[note fid] ttl] desc]|e];
    simpl in *; [|discriminate].
  injection Hacc as Hacc. rewrite Hacc.
  rewrite (combine_fires acc Hst H180).
  set (keep := fun vtype : string =>
                 negb (contains "3D" vtype) && negb (String.eqb vtype "180°")).
  eexists. split; [reflexivity|].
  split; [now left|].
  split.
  { intros t Hfam [Heq|Hin].
    - subst t. unfold stereo_family in Hfam. simpl in Hfam.
      repeat (destruct Hfam as [Hfam|Hfam]; [discriminate|]). exact Hfam.
    - apply filter_In in Hin. destruct Hin as [_ Hk]. unfold keep in Hk.
      rewrite (stereo_contains_3D t Hfam) in Hk. discriminate. }
  split.
  { intros [Heq|Hin]; [discriminate|].
    apply filter_In in Hin. destruct Hin as [_ Hk]. unfold keep in Hk.
    rewrite String.eqb_refl in Hk. rewrite andb_false_r in Hk. discriminate. }
  split.
  { intros t Hin0.
    assert (is_independent t = true) as Hind by (apply mem_In; exact Hin0).
    split.
    - intros [Heq|Hin].
      + subst t. discriminate.
      + apply filter_In in Hin. tauto.
    - intros Hin. right. apply filter_In. split; [assumption|].
      now apply independent_keeps. }
  simpl. change (is_independent "3D-180°-VR") with false.
  apply filter_filter_implied. intros x Hx. now apply independent_keeps.
Qed.

(** A title with a stereoscopic keyword and a 180° keyword. *)
Lemma detect_video_type_combination_witness :
  exists out,
    detect_video_type empty_fmt
      (Some {| title := Val "Epic 3D 180 VR Tour"; description := Missing;
               formats := Missing |}) = Ok out
    /\ In "3D-180°-VR" out
    /\ (forall t, In t stereo_family -> ~ In t out)
    /\ ~ In "180°" out
    /\ (forall t, In t independent_tags ->
          (In t out <-> In t ["3D"; "VR"; "180°"]))
    /\ List.filter is_independent out
       = List.filter is_independent ["3D"; "VR"; "180°"].
Proof.
  apply (detect_video_type_combination empty_fmt _ ["3D"; "VR"; "180°"]).
  - reflexivity.
  - exists "3D". split; simpl; auto.
  - simpl; auto.
Defined.

Lemma in_texts_found (k note ttl desc : string) :
  in_texts k note ttl desc = true <-> found_in k note ttl desc.
Proof.
  unfold in_texts, found_in. rewrite !orb_true_iff. tauto.
Qed.

Lemma stereo_scan_find (kws : list (string * string))
    (note ttl desc : string) (acc : list string) :
  stereo_scan kws note ttl desc acc =
  match List.find (fun kw => in_texts (fst kw) note ttl desc) kws with
  | Some kw => (acc ++ [snd kw])%list
  | None => acc
  end.
Proof.
  induction kws as [|[k t] kws IH]; simpl; [reflexivity|].
  destruct (in_texts k note ttl desc); [reflexivity | apply IH].
Qed.

Lemma find_first_match {A : Type} (p : A -> bool) (pre post : list A) (x : A) :
  p x = true ->
  (forall y, In y pre -> p y = false) ->
  List.find p (pre ++ x :: post)%list = Some x.
Proof.
  intros Hx Hpre. induction pre as [|y pre IH]; simpl.
  - now rewrite Hx.
  - rewrite (Hpre y (or_introl eq_refl)). apply IH.
    intros z Hz. apply Hpre. now right.
Qed.

Lemma count_stereo_snoc (l : list string) (t : string) :
  count_stereo (l ++ [t])%list = (count_stereo l + if is_stereo t then 1 else 0)%nat.
Proof.
  unfold count_stereo. rewrite List.filter_app, List.length_app. simpl.
  now destruct (is_stereo t).
Qed.

Lemma count_stereo_add (l : list string) (t : string) (b : bool) :
  is_stereo t = false ->
  count_stereo (if b then if mem t l then l else (l ++ [t])%list else l)
  = count_stereo l.
Proof.
  intros Ht. destruct b; [|reflexivity].
  destruct (mem t l); [reflexivity|].
  rewrite count_stereo_snoc, Ht. lia.
Qed.

Lemma vr_scan_count (kws : list (string * string))
    (note ttl desc : string) (l : list string) :
  Forall (fun kw => is_stereo (snd kw) = false) kws ->
  count_stereo (vr_scan kws note ttl desc l) = count_stereo l.
Proof.
  intros Hk. revert l.
  induction Hk as [|[k t] kws Ht _ IH]; intros l; simpl; [reflexivity|].
  rewrite IH. now apply count_stereo_add.
Qed.

Lemma vr180_scan_count (kws : list string) (note ttl desc : string)
    (l : list string) :
  count_stereo (vr180_scan kws note ttl desc l) = count_stereo l.
Proof.
  revert l. induction kws as [|k kws IH]; intros l; simpl; [reflexivity|].
  rewrite IH. now apply count_stereo_add.
Qed.

Lemma hdr_scan_count (kws : list string) (note fid : string)
    (l : list string) :
  count_stereo (hdr_scan kws note fid l) = count_stereo l.
Proof.
  revert l. induction kws as [|k kws IH]; intros l; simpl; [reflexivity|].
  rewrite IH. now apply count_stereo_add.
Qed.

Lemma vr_keywords_not_stereo :
  Forall (fun kw : string * string => is_stereo (snd kw) = false) vr_keywords.
Proof. unfold vr_keywords. repeat constructor. Qed.

Lemma scan_tags_count (note fid ttl desc : string) :
  (count_stereo (scan_tags note fid ttl desc) <= 1)%nat.
Proof.
  unfold scan_tags.
  rewrite hdr_scan_count, vr180_scan_count,
    (vr_scan_count _ _ _ _ _ vr_keywords_not_stereo), stereo_scan_find.
  destruct (List.find _ stereo_keywords) as [kw|]; simpl.
  - unfold count_stereo. simpl. destruct (is_stereo (snd kw)); simpl; lia.
  - unfold count_stereo. simpl. lia.
Qed.

Lemma combine_count (l : list string) :
  (count_stereo (combine_3d_180 l) <= count_stereo l)%nat.
Proof.
  unfold combine_3d_180.
  destruct (existsb (contains "3D") l && mem "180°" l); [|lia].
  unfold count_stereo. simpl. change (is_stereo "3D-180°-VR") with false.
  induction l as [|x l IH]; simpl; [lia|].
  destruct (negb (contains "3D" x) && negb (String.eqb x "180°")); simpl;
    destruct (is_stereo x); simpl; lia.
Qed.

(** ** FormatAggregator *)

Lemma not_none_get (c : field string) :
  not_none (get c) = true <-> c <> Val "none".
Proof.
  destruct c as [| |s]; simpl; [easy | easy |].
  destruct (String.eqb_spec s "none") as [->|Hne]; simpl.
  - split; [discriminate | congruence].
  - split; [|reflexivity]. intros _ Heq. injection Heq as Heq. contradiction.
Qed.

Lemma not_none_get_false (c : field string) :
  not_none (get c) = false <-> c = Val "none".
Proof.
  destruct c as [| |s]; simpl; [easy | easy |].
  destruct (String.eqb_spec s "none") as [->|Hne]; simpl.
  - split; reflexivity.
  - split; [discriminate|]. intros Heq. injection Heq as Heq. contradiction.
Qed.

Lemma subscript_value {A : Type} (f : field A) :
  f <> Missing -> subscript f = Ok (get f).
Proof. destruct f; simpl; congruence. Qed.

(** The loop body, by the four cases of the codec fields. *)
Lemma process_format_cases (fmt : fmt_dict) (info : option info_dict)
    (vts : list string) :
  detect_video_type fmt info = Ok vts ->
  process_format fmt info =
  if not_none (get (vcodec fmt)) && not_none (get (acodec fmt))
  then d ← video_audio_entry fmt vts; Ok ([d], [])
  else if not_none (get (vcodec fmt))
  then d ← video_only_entry fmt vts; Ok ([d], [])
  else if not_none (get (acodec fmt))
  then d ← audio_entry fmt; Ok ([], [d])
  else Ok ([], []).
Proof.
  intros Hd. unfold process_format. rewrite Hd. simpl. unfold bucket, is_none.
  destruct (not_none (get (vcodec fmt))), (not_none (get (acodec fmt)));
    reflexivity.
Qed.

(** ** ResolutionClassifier *)

Lemma base_res_tier (h : Z) : base_res h = resolution_tier h.
Proof.
  unfold base_res, resolution_tier, tier_table. simpl.
  repeat (match goal with
          | |- context [?a <=? ?b] => destruct (a <=? b)
          end; [reflexivity|]).
  reflexivity.
Qed.

Lemma resolution_info_truthy (fmt : fmt_dict) (h w : Z) :
  height fmt = Val h -> width fmt = Val w -> h <> 0 -> w <> 0 ->
  get_enhanced_resolution_info fmt = Some (resolution_display h w).
Proof.
  intros Hh Hw Hh0 Hw0. unfold get_enhanced_resolution_info.
  rewrite Hh, Hw. simpl.
  destruct (Z.eqb_spec h 0) as [|_]; [contradiction|].
  destruct (Z.eqb_spec w 0) as [|_]; [contradiction|].
  simpl. unfold resolution_display. now rewrite base_res_tier.
Qed.

Lemma resolution_info_fallback (fmt : fmt_dict) :
  get (height fmt) = None \/ get (height fmt) = Some 0
  \/ get (width fmt) = None \/ get (width fmt) = Some 0 ->
  get_enhanced_resolution_info fmt
  = get_default (resolution fmt) "Unknown resolution".
Proof.
  unfold get_enhanced_resolution_info.
  intros [H|[H|[H|H]]]; rewrite H; simpl; rewrite ?andb_false_r; reflexivity.
Qed.

(** C8, as the specification states it, fails: a height of zero is present, and
    yet the function takes the fallback and returns the resolution field
    instead of ["0p (640x0)"]. *)
Lemma get_enhanced_resolution_info_zero_height :
  height ex_zero_height = Val 0
  /\ width ex_zero_height = Val 640
  /\ resolution_display 0 640 = "0p (640x0)"
  /\ get_enhanced_resolution_info ex_zero_height = Some "640x0"
  /\ get_enhanced_resolution_info ex_zero_height
     <> Some (resolution_display 0 640).
Proof. repeat split. discriminate. Qed.

(** C8, amended. For a descriptor whose height and width are both present
    and not zero, [get_enhanced_resolution_info] returns
    ["{tier} ({width}x{height})"], the tier being the first match of
    height>=4320 8K, >=2160 4K, >=1440 2K, >=1080 1080p, >=720 720p, else
    ["{height}p"]. When height or width is absent, [None] or zero, it
    returns the descriptor's own resolution field, and "Unknown resolution"
    when the descriptor has no such key. Height 2160 with width 3840 gives
    "4K (3840x2160)", height 4320 the tier 8K, height 700 the tier 700p. *)
Theorem get_enhanced_resolution_info_display (fmt : fmt_dict) :
  (forall h w,
     height fmt = Val h -> width fmt = Val w -> h <> 0 -> w <> 0 ->
     get_enhanced_resolution_info fmt = Some (resolution_display h w))
  /\ (get (height fmt) = None \/ get (height fmt) = Some 0
      \/ get (width fmt) = None \/ get (width fmt) = Some 0 ->
      (forall r, resolution fmt = Val r ->
                 get_enhanced_resolution_info fmt = Some r)
      /\ (resolution fmt = Missing ->
          get_enhanced_resolution_info fmt = Some "Unknown resolution"))
  /\ get_enhanced_resolution_info ex_muxed = Some "4K (3840x2160)"
  /\ resolution_tier 2160 = "4K"
  /\ resolution_tier 4320 = "8K"
  /\ resolution_tier 700 = "700p".
Proof.
  split; [intros; now apply resolution_info_truthy|].
  split; [|repeat split; reflexivity].
  intros H. rewrite (resolution_info_fallback fmt H).
  split; [intros r ->|intros ->]; reflexivity.
Qed.

(** ** OptionRanker: the sort *)

Section StableSortFacts.
  Context {A K : Type} `{EqDecision K} (key : A -> K) (ltb : K -> K -> bool).

Lemma insert_desc_perm (x : A) (l : list A) :
  Permutation (x :: l) (insert_desc key ltb x l).
Proof.
  induction l as [|y l IH]; simpl; [reflexivity|].
  destruct (ltb (key x) (key y)); [|reflexivity].
  rewrite perm_swap. now apply perm_skip.
Qed.

Lemma sort_desc_perm (l : list A) : Permutation l (sort_desc key ltb l).
Proof.
  induction l as [|x l IH]; simpl; [reflexivity|].
  rewrite <- insert_desc_perm. now apply perm_skip.
Qed.

Lemma insert_desc_descending (x : A) (l : list A) :
  (forall a b, ltb a b = true -> ltb b a = false) ->
  descending key ltb l -> descending key ltb (insert_desc key ltb x l).
Proof.
  intros Hasym Hl. induction Hl as [|y l Hl IH Hhd]; simpl.
  - repeat constructor.
  - destruct (ltb (key x) (key y)) eqn:Hxy.
    + constructor; [exact IH|].
      destruct l as [|z l]; simpl.
      * constructor. now apply Hasym.
      * destruct (ltb (key x) (key z)); constructor.
        -- now inversion Hhd.
        -- now apply Hasym.
    + constructor; [now constructor | now constructor].
Qed.

Lemma sort_desc_descending (l : list A) :
  (forall a b, ltb a b = true -> ltb b a = false) ->
  descending key ltb (sort_desc key ltb l).
Proof.
  intros Hasym. induction l as [|x l IH]; simpl.
  - constructor.
  - now apply insert_desc_descending.
Qed.

Lemma insert_desc_filter (k : K) (x : A) (l : list A) :
  (forall a, ltb a a = false) ->
  List.filter (fun y => bool_decide (key y = k)) (insert_desc key ltb x l)
  = List.filter (fun y => bool_decide (key y = k)) (x :: l).
Proof.
  intros Hirr. induction l as [|y l IH]; [reflexivity|].
  simpl insert_desc. destruct (ltb (key x) (key y)) eqn:Hxy; [|reflexivity].
  simpl in *. rewrite IH.
  destruct (bool_decide_reflect (key x = k)) as [Hx|Hx];
    destruct (bool_decide_reflect (key y = k)) as [Hy|Hy]; try reflexivity.
  rewrite Hx, Hy, Hirr in Hxy. discriminate.
Qed.

(** Stability: the elements of one key keep their order. *)
Lemma sort_desc_stable (k : K) (l : list A) :
  (forall a, ltb a a = false) ->
  List.filter (fun y => bool_decide (key y = k)) (sort_desc key ltb l)
  = List.filter (fun y => bool_decide (key y = k)) l.
Proof.
  intros Hirr. induction l as [|x l IH]; [reflexivity|].
  simpl sort_desc. rewrite insert_desc_filter by assumption.
  simpl. now rewrite IH.
Qed.

Lemma insert_desc_filter_class (P : A -> bool) (x : A) (l : list A) :
  (forall a b, P a = true -> P b = true -> ltb (key a) (key b) = false) ->
  List.filter P (insert_desc key ltb x l) = List.filter P (x :: l).
Proof.
  intros Hc. induction l as [|y l IH]; [reflexivity|].
  simpl insert_desc. destruct (ltb (key x) (key y)) eqn:Hxy; [|reflexivity].
  simpl in *. rewrite IH.
  destruct (P x) eqn:Hx, (P y) eqn:Hy; try reflexivity.
  rewrite (Hc x y Hx Hy) in Hxy. discriminate.
Qed.

(** Stability: elements none of which is below another keep their order. *)
Lemma sort_desc_stable_class (P : A -> bool) (l : list A) :
  (forall a b, P a = true -> P b = true -> ltb (key a) (key b) = false) ->
  List.filter P (sort_desc key ltb l) = List.filter P l.
Proof.
  intros Hc. induction l as [|x l IH]; [reflexivity|].
  simpl sort_desc. rewrite insert_desc_filter_class by assumption.
  simpl. now rewrite IH.
Qed.

End StableSortFacts.

(** The order of numbers is the order of their values. *)
Lemma num_ltb_lt (a b : num) :
  num_ltb a b = true <-> (num_value a < num_value b)%Q.
Proof.
  unfold num_ltb. rewrite negb_true_iff. split.
  - intros H. apply Qnot_le_lt. intros Hle.
    apply Qle_bool_iff in Hle. congruence.
  - intros H. destruct (Qle_bool (num_value b) (num_value a)) eqn:E;
      [|reflexivity].
    apply Qle_bool_iff in E. now apply Qlt_not_le in H.
Qed.

Lemma num_ltb_ge (a b : num) :
  num_ltb a b = false <-> (num_value b <= num_value a)%Q.
Proof.
  unfold num_ltb. rewrite negb_false_iff. apply Qle_bool_iff.
Qed.

Lemma num_eqb_eq (a b : num) :
  num_eqb a b = true <-> (num_value a == num_value b)%Q.
Proof. apply Qeq_bool_iff. Qed.

Lemma num_ltb_asym (a b : num) : num_ltb a b = true -> num_ltb b a = false.
Proof. rewrite num_ltb_lt, num_ltb_ge. apply Qlt_le_weak. Qed.

Lemma num_ltb_irrefl (a : num) : num_ltb a a = false.
Proof. apply num_ltb_ge, Qle_refl. Qed.

Lemma num_ltb_false_trans (a b c : num) :
  num_ltb a b = false -> num_ltb b c = false -> num_ltb a c = false.
Proof. rewrite !num_ltb_ge. intros H1 H2. now apply Qle_trans with (num_value b). Qed.

(** [x or 0] keeps the value. *)
Lemma num_or0_value (v : option num) :
  (num_value (num_or0 v)
   == match v with Some n => num_value n | None => 0 end)%Q.
Proof.
  destruct v as [n|]; simpl; [|reflexivity].
  unfold num_truthy. destruct (num_eqb n (Int 0)) eqn:E; simpl; [|reflexivity].
  apply num_eqb_eq in E. now rewrite E.
Qed.

Lemma tuple_ltb_lex (a1 a2 b1 b2 : Z) (a3 a4 b3 b4 : num) :
  tuple_ltb (a1, a2, a3, a4) (b1, b2, b3, b4) = true
  <-> a1 < b1
      \/ a1 = b1
         /\ (a2 < b2
             \/ a2 = b2
                /\ ((num_value a3 < num_value b3)%Q
                    \/ (num_value a3 == num_value b3)%Q
                       /\ (num_value a4 < num_value b4)%Q)).
Proof.
  unfold tuple_ltb.
  repeat first [rewrite orb_true_iff | rewrite andb_true_iff].
  rewrite !Z.ltb_lt, !Z.eqb_eq, !num_ltb_lt, num_eqb_eq. reflexivity.
Qed.

(** The same for "not below". *)
Lemma tuple_ltb_ge (a1 a2 b1 b2 : Z) (a3 a4 b3 b4 : num) :
  tuple_ltb (a1, a2, a3, a4) (b1, b2, b3, b4) = false
  <-> b1 < a1
      \/ a1 = b1
         /\ (b2 < a2
             \/ a2 = b2
                /\ ((num_value b3 < num_value a3)%Q
                    \/ (num_value a3 == num_value b3)%Q
                       /\ (num_value b4 <= num_value a4)%Q)).
Proof.
  rewrite <- not_true_iff_false, tuple_ltb_lex.
  destruct (Z.lt_trichotomy a1 b1) as [H1|[H1|H1]];
    [split; [intros H; exfalso; apply H; now left | lia] | | split; [now left | lia]].
  destruct (Z.lt_trichotomy a2 b2) as [H2|[H2|H2]];
    [split; [intros H; exfalso; apply H; right; split; [exact H1 | now left]
            | lia]
    | | split; [right; split; [exact H1 | now left] | lia]].
  destruct (Q_dec (num_value a3) (num_value b3)) as [[H3|H3]|H3].
  - split; [intros H; exfalso; apply H; right; split; [exact H1|];
            right; split; [exact H2|]; now left|].
    intros [?|[_ [?|[_ [?|[? _]]]]]] _; try lia; lra.
  - split; [intros _; right; split; [exact H1|]; right; split; [exact H2|];
            now left|].
    intros _ [?|[_ [?|[_ [?|[? _]]]]]]; try lia; lra.
  - destruct (Qlt_le_dec (num_value a4) (num_value b4)) as [H4|H4].
    + split; [intros H; exfalso; apply H; right; split; [exact H1|];
              right; split; [exact H2|]; right; now split|].
      intros [?|[_ [?|[_ [?|[_ ?]]]]]] _; try lia; lra.
    + split; [intros _; right; split; [exact H1|]; right; split; [exact H2|];
              right; now split|].
      intros _ [?|[_ [?|[_ [?|[_ ?]]]]]]; try lia; lra.
Qed.

Lemma tuple_ltb_asym (a b : Z * Z * num * num) :
  tuple_ltb a b = true -> tuple_ltb b a = false.
Proof.
  destruct a as [[[a1 a2] a3] a4], b as [[[b1 b2] b3] b4].
  rewrite tuple_ltb_lex, tuple_ltb_ge.
  intros [H|[H1 [H|[H2 [H|[H3 H4]]]]]].
  - now left.
  - right. split; [now symmetry|]. now left.
  - right. split; [now symmetry|]. right. split; [now symmetry|]. now left.
  - right. split; [now symmetry|]. right. split; [now symmetry|].
    right. split; [now symmetry | now apply Qlt_le_weak].
Qed.

Lemma tuple_ltb_irrefl (a : Z * Z * num * num) : tuple_ltb a a = false.
Proof.
  destruct (tuple_ltb a a) eqn:E; [|reflexivity].
  pose proof (tuple_ltb_asym a a E). congruence.
Qed.

Lemma sort_video_perm (l : list fmt_dict) : Permutation l (sort_video l).
Proof. apply sort_desc_perm. Qed.

Lemma sort_video_descending (l : list fmt_dict) :
  descending sort_key tuple_ltb (sort_video l).
Proof. apply sort_desc_descending, tuple_ltb_asym. Qed.

Lemma sort_video_stable (k : Z * Z * num * num) (l : list fmt_dict) :
  List.filter (fun y => bool_decide (sort_key y = k)) (sort_video l)
  = List.filter (fun y => bool_decide (sort_key y = k)) l.
Proof. apply sort_desc_stable, tuple_ltb_irrefl. Qed.

Lemma sort_audio_perm (l : list fmt_dict) : Permutation l (sort_audio l).
Proof. apply sort_desc_perm. Qed.

(** ** OptionRanker: the sort key *)

Lemma contains_3D_known (vts : list string) :
  Forall (fun t => In t all_tags) vts ->
  mem "3D-180°-VR" vts = false ->
  existsb (contains "3D") vts = existsb is_stereo vts.
Proof.
  intros Hk. induction Hk as [|t vts Ht _ IH]; [reflexivity|].
  simpl. intros Hm. apply orb_false_iff in Hm. destruct Hm as [Ht' Hm].
  rewrite (IH Hm). f_equal.
  unfold all_tags in Ht. simpl in Ht.
  repeat (destruct Ht as [<-|Ht]; [first [reflexivity | discriminate]|]).
  contradiction.
Qed.

(** The priority the code assigns is the table of the specification read
    without its equirectangular disjunct. *)
Lemma special_priority_table (fmt : fmt_dict) (vts : list string) :
  video_types fmt = Val vts ->
  Forall (fun t => In t all_tags) vts ->
  special_priority fmt = priority_table (without_eqr (read_tags vts)).
Proof.
  intros Hv Hk. unfold special_priority. rewrite Hv. unfold get.
  destruct vts as [|t0 vts0]; [reflexivity|].
  cbv beta iota. set (vts := t0 :: vts0) in *.
  unfold priority_table, without_eqr, read_tags.
  cbn [has_sbs3d has_vr180 has_combined has_hdr has_vr360 has_vr360eqr
       has_stereo].
  destruct (mem "SBS-3D" vts && mem "180°" vts); [reflexivity|].
  destruct (mem "3D-180°-VR" vts) eqn:Hc; [reflexivity|].
  destruct (mem "SBS-3D" vts); [reflexivity|].
  destruct (mem "HDR" vts); [reflexivity|].
  rewrite orb_false_r.
  destruct (mem "360°" vts || mem "VR" vts); [reflexivity|].
  now rewrite (contains_3D_known vts Hk Hc).
Qed.

(** C2, at the failing input. A title that says equirectangular and nothing
    else is tagged ['360°-EQR'] only; a format whose only tag is that gets
    the special priority 0 from [sort_key], where the specified table
    gives 500; on every list of tags the code's priority is the table with
    the equirectangular disjunct left out, so the two agree wherever that
    disjunct does not decide. The key is the tuple (special priority,
    height, fps, video bitrate) with 0 for an absent number, and the sorted
    list is descending in it. *)
Theorem sort_key_equirectangular :
  detect_video_type ex_muxed (ex_info "Equirectangular tour" [])
  = Ok ["360°-EQR"]
  /\ video_types ex_eqr = Val ["360°-EQR"]
  /\ special_priority ex_eqr = 0
  /\ sort_key ex_eqr = (0, 2160, Int 30, Int 0)
  /\ priority_table (read_tags ["360°-EQR"]) = 500
  /\ (forall fmt vts,
        video_types fmt = Val vts ->
        Forall (fun t => In t all_tags) vts ->
        special_priority fmt = priority_table (without_eqr (read_tags vts)))
  /\ (forall fmt,
        sort_key fmt
        = (special_priority fmt, or0 (get (height fmt)),
           num_or0 (get (fps fmt)), num_or0 (get (vbr fmt))))
  /\ (forall l, descending sort_key tuple_ltb (sort_video l)).
Proof.
  repeat split.
  - apply special_priority_table.
  - apply sort_video_descending.
Qed.

(** ** Substrings and [repr] *)

Lemma sapp_cons (x : ascii) (a b : string) :
  String x a +:+ b = String x (a +:+ b).
Proof. reflexivity. Qed.

Lemma sapp_nil_l (b : string) : "" +:+ b = b.
Proof. reflexivity. Qed.

Lemma sapp_assoc (a b c : string) : (a +:+ b) +:+ c = a +:+ (b +:+ c).
Proof.
  induction a as [|x a IH]; [reflexivity|].
  rewrite !sapp_cons. now f_equal.
Qed.

Lemma sapp_nil_r (a : string) : a +:+ "" = a.
Proof.
  induction a as [|x a IH]; [reflexivity|].
  rewrite sapp_cons. now f_equal.
Qed.

Lemma prefix_split (a s : string) :
  String.prefix a s = true <-> exists c, s = a +:+ c.
Proof.
  revert a. induction s as [|y s IH]; intros [|x a]; simpl.
  - split; [intros _; now exists "" | reflexivity].
  - split; [discriminate | intros [c H]; discriminate].
  - split; [intros _; now exists (String y s) | reflexivity].
  - destruct (ascii_dec x y) as [->|Hne].
    + rewrite IH. split; intros [c H]; exists c.
      * rewrite sapp_cons. now f_equal.
      * rewrite sapp_cons in H. congruence.
    + split; [discriminate|]. intros [c H].
      rewrite sapp_cons in H. congruence.
Qed.

Lemma contains_nil (sub : string) :
  contains sub "" = String.prefix sub "".
Proof. unfold contains. apply orb_false_r. Qed.

Lemma contains_cons (sub : string) (c : ascii) (s : string) :
  contains sub (String c s) = String.prefix sub (String c s) || contains sub s.
Proof. reflexivity. Qed.

Lemma contains_occurs (sub s : string) :
  contains sub s = true <-> occurs_in sub s.
Proof.
  split.
  - induction s as [|c s IH].
    + rewrite contains_nil. intros H.
      apply prefix_split in H. destruct H as [post H]. now exists "", post.
    + rewrite contains_cons, orb_true_iff. intros [H|H].
      * apply prefix_split in H. destruct H as [post H]. now exists "", post.
      * destruct (IH H) as (pre & post & ->). now exists (String c pre), post.
  - intros (pre & post & ->). induction pre as [|c pre IH].
    + rewrite sapp_nil_l.
      assert (String.prefix sub (sub +:+ post) = true) as Hp.
      { apply prefix_split. now exists post. }
      destruct (sub +:+ post).
      * now rewrite contains_nil.
      * now rewrite contains_cons, Hp.
    + rewrite sapp_cons, contains_cons, IH. apply orb_true_r.
Qed.

Lemma occurs_in_refl (s : string) : occurs_in s s.
Proof. exists "", "". now rewrite sapp_nil_l, sapp_nil_r. Qed.

Lemma occurs_in_app (sub s a b : string) :
  occurs_in sub s -> occurs_in sub (a +:+ s +:+ b).
Proof.
  intros (pre & post & ->). exists (a +:+ pre), (post +:+ b).
  now rewrite !sapp_assoc.
Qed.

Lemma occurs_in_app_r (sub s a : string) :
  occurs_in sub s -> occurs_in sub (a +:+ s).
Proof.
  intros H. apply (occurs_in_app sub s a "") in H. now rewrite sapp_nil_r in H.
Qed.

Lemma occurs_in_app_l (sub s b : string) :
  occurs_in sub s -> occurs_in sub (s +:+ b).
Proof. intros H. now apply (occurs_in_app sub s "" b) in H. Qed.

Lemma occurs_in_join (sub x sep : string) (l : list string) :
  In x l -> occurs_in sub x -> occurs_in sub (join sep l).
Proof.
  intros Hin Hx. induction l as [|y l IH]; [contradiction|].
  destruct Hin as [->|Hin].
  - destruct l; simpl; [assumption | now apply occurs_in_app_l].
  - specialize (IH Hin). destruct l as [|z l]; [contradiction|].
    change (occurs_in sub (y +:+ sep +:+ join sep (z :: l))).
    now apply occurs_in_app_r, occurs_in_app_r.
Qed.

Lemma repr_char_plain (q c : ascii) :
  q = Repr.squote \/ q = Repr.dquote ->
  plain_char c = true -> Repr.repr_char q c = Repr.str1 c.
Proof.
  intros Hq. unfold plain_char, Repr.repr_char.
  rewrite !andb_true_iff, !negb_true_iff. intros [[[Hb Hs] Hd] Hc].
  rewrite Hb. assert (Ascii.eqb c q = false) as -> by (destruct Hq; now subst).
  rewrite Hc. unfold Repr.is_control in Hc.
  apply orb_false_iff in Hc. destruct Hc as [Hlt _].
  apply Nat.ltb_ge in Hlt.
  destruct (Nat.eqb_spec (nat_of_ascii c) 9); [lia|].
  destruct (Nat.eqb_spec (nat_of_ascii c) 10); [lia|].
  destruct (Nat.eqb_spec (nat_of_ascii c) 13); [lia|].
  reflexivity.
Qed.

Lemma repr_chars_app (q : ascii) (a b : string) :
  Repr.repr_chars q (a +:+ b) = Repr.repr_chars q a +:+ Repr.repr_chars q b.
Proof.
  induction a as [|c a IH]; [reflexivity|].
  rewrite sapp_cons. simpl. now rewrite IH, sapp_assoc.
Qed.

Lemma repr_chars_plain (q : ascii) (s : string) :
  q = Repr.squote \/ q = Repr.dquote ->
  plain s = true -> Repr.repr_chars q s = s.
Proof.
  intros Hq. induction s as [|c s IH]; simpl; [reflexivity|].
  rewrite andb_true_iff. intros [Hc Hs].
  rewrite (repr_char_plain q c Hq Hc), (IH Hs). reflexivity.
Qed.

Lemma quote_for_cases (s : string) :
  Repr.quote_for s = Repr.squote \/ Repr.quote_for s = Repr.dquote.
Proof. unfold Repr.quote_for. destruct (_ && _); auto. Qed.

(** A plain substring of a string is a substring of its [repr]. *)
Lemma occurs_in_repr_str (sub s : string) :
  plain sub = true -> occurs_in sub s -> occurs_in sub (Repr.repr_str s).
Proof.
  intros Hp (pre & post & ->). unfold Repr.repr_str.
  set (q := Repr.quote_for _).
  assert (q = Repr.squote \/ q = Repr.dquote) as Hq by apply quote_for_cases.
  rewrite !repr_chars_app, (repr_chars_plain q sub Hq Hp).
  change (String q ?x) with (Repr.str1 q +:+ x).
  apply occurs_in_app_r. rewrite !sapp_assoc.
  apply occurs_in_app_r. apply occurs_in_app_l, occurs_in_refl.
Qed.

Lemma occurs_in_repr_fmt (sub note : string) (fmt : fmt_dict) :
  plain sub = true -> format_note fmt = Val note -> occurs_in sub note ->
  occurs_in sub (Repr.repr_fmt fmt).
Proof.
  intros Hp Hn Hs. unfold Repr.repr_fmt. apply occurs_in_app.
  apply (occurs_in_join sub
           (Repr.repr_str "format_note" +:+ ": " +:+ Repr.repr_str note)).
  - rewrite Hn. simpl Repr.repr_str_value. unfold Repr.item at 14.
    rewrite !in_app_iff. do 13 right. now left.
  - apply occurs_in_app_r, occurs_in_app_r. now apply occurs_in_repr_str.
Qed.

Lemma occurs_in_str_formats (sub note : string) (fmt : fmt_dict)
    (l : list fmt_dict) :
  plain sub = true -> In fmt l -> format_note fmt = Val note ->
  occurs_in sub note -> occurs_in sub (Repr.str_formats l).
Proof.
  intros Hp Hin Hn Hs. unfold Repr.str_formats. apply occurs_in_app.
  apply (occurs_in_join sub (Repr.repr_fmt fmt)).
  - now apply in_map.
  - now apply (occurs_in_repr_fmt sub note).
Qed.

(** ** OptionListBuilder: numbering *)

Lemma numbered_start : numbered {| options := []; option_num := 1 |}.
Proof. split; reflexivity. Qed.

Lemma numbered_snoc (m : menu) (o : download_option) :
  numbered m -> opt_num o = option_num m ->
  numbered {| options := options m ++ [o]; option_num := option_num m + 1 |}.
Proof.
  intros [Hn Hc] Ho. unfold numbered. simpl.
  rewrite List.length_app, Nat.add_1_r, seq_S, !map_app, Hn. simpl.
  rewrite Ho, Hc. split; [|lia].
  do 3 f_equal. lia.
Qed.

Lemma extends_refl (types : list string) (m : menu) : extends types m m.
Proof.
  exists []. rewrite app_nil_r.
  split; [reflexivity|]. split; [constructor | auto].
Qed.

Lemma extends_snoc (types : list string) (m : menu) (o : download_option) :
  opt_num o = option_num m -> In (opt_type o) types ->
  extends types m
    {| options := options m ++ [o]; option_num := option_num m + 1 |}.
Proof.
  intros Hn Ht. exists [o].
  split; [reflexivity|]. split.
  - now constructor.
  - intros Hm. now apply numbered_snoc.
Qed.

Lemma extends_trans (types : list string) (m1 m2 m3 : menu) :
  extends types m1 m2 -> extends types m2 m3 -> extends types m1 m3.
Proof.
  intros (n1 & H1 & F1 & N1) (n2 & H2 & F2 & N2).
  exists (n1 ++ n2)%list.
  split; [now rewrite H2, H1, app_assoc|].
  split; [|auto].
  apply Forall_app. now split.
Qed.

Lemma extends_weaken (t1 t2 : list string) (m m' : menu) :
  (forall t, In t t1 -> In t t2) -> extends t1 m m' -> extends t2 m m'.
Proof.
  intros Hsub (new & H & F & N). exists new.
  split; [assumption|]. split; [|assumption].
  eapply List.Forall_impl; [|exact F]. intros o. apply Hsub.
Qed.

Lemma append_fixed_extends (m : menu) (description format ext type : string) :
  extends [type] m (append_fixed m description format ext type).
Proof.
  unfold append_fixed. apply extends_snoc; simpl; auto.
Qed.

Lemma ranked_option_inv (n : Z) (type : string) (fmt : fmt_dict)
    (o : download_option) :
  ranked_option n type fmt = Ok o ->
  opt_num o = n /\ opt_type o = type /\ opt_info o = Val fmt
  /\ opt_format o = get (format_id fmt) /\ opt_ext o = get (ext fmt).
Proof.
  unfold ranked_option.
  destruct (format_id fmt), (ext fmt); simpl; try discriminate;
    intros H; injection H as <-; repeat split.
Qed.

(** ** OptionListBuilder: the two loops *)

Lemma audio_step_extends (D : gset string) (m : menu) (fmt : fmt_dict)
    (D' : gset string) (m' : menu) :
  audio_step D m fmt = Ok (D', m') -> extends ["audio"] m m'.
Proof.
  unfold audio_step. destruct (audio_key fmt) as [key|]; simpl; [|discriminate].
  destruct (bool_decide (key ∈ D)).
  - intros H. injection H as _ <-. apply extends_refl.
  - destruct (ranked_option (option_num m) "audio" fmt) as [o|] eqn:Ho;
      simpl; [|discriminate].
    destruct (audio_print fmt); simpl; [|discriminate].
    intros H. injection H as _ <-.
    apply ranked_option_inv in Ho. destruct Ho as (Hn & Ht & _).
    apply extends_snoc; [assumption|]. rewrite Ht. now left.
Qed.

Lemma audio_loop_extends (l : list fmt_dict) (D : gset string) (m : menu)
    (D' : gset string) (m' : menu) :
  audio_loop l D m = Ok (D', m') -> extends ["audio"] m m'.
Proof.
  revert D m. induction l as [|fmt l IH]; intros D m; simpl.
  - intros H. injection H as _ <-. apply extends_refl.
  - destruct (audio_step D m fmt) as [[D1 m1]|] eqn:Hs; simpl; [|discriminate].
    intros H. apply audio_step_extends in Hs. apply IH in H.
    now apply (extends_trans _ m m1 m').
Qed.

Lemma audio_section_extends (l : list fmt_dict) (m m' : menu) :
  audio_section l m = Ok m' -> extends ["audio"] m m'.
Proof.
  unfold audio_section. destruct l as [|x l].
  - intros H. injection H as <-. apply extends_refl.
  - destruct (audio_loop _ _ _) as [[D1 m1]|] eqn:Hl; simpl; [|discriminate].
    intros H. injection H as <-. now apply audio_loop_extends in Hl.
Qed.

Lemma video_loop_spec (l : list fmt_dict) :
  forall (D : gset string) (m : menu) (D' : gset string) (m' : menu)
         (seen : list string),
    (forall k, k ∈ D <-> In k seen) ->
    size D = length seen ->
    video_loop l D m = Ok (D', m') ->
    exists keys new,
      map_result video_key l = Ok keys
      /\ options m' = (options m ++ new)%list
      /\ Forall (fun o => opt_type o = "video") new
      /\ (numbered m -> numbered m')
      /\ map opt_info new
         = map (fun p => Val (snd p))
             (firstn (20 - length seen)
                (first_occurrences seen (combine keys l))).
Proof.
  induction l as [|fmt l IH]; intros D m D' m' seen Hmem Hsize; simpl.
  - intros H. injection H as _ <-. exists [], [].
    rewrite app_nil_r. simpl. rewrite firstn_nil.
    split; [reflexivity|]. split; [reflexivity|].
    split; [constructor|]. split; [auto|reflexivity].
  - unfold video_step.
    destruct (video_key fmt) as [key|] eqn:Hkey; simpl; [|discriminate].
    destruct (bool_decide_reflect (key ∈ D)) as [Hin|Hnin]; simpl.
    + (* the key is displayed already *)
      intros H. destruct (IH D m D' m' seen Hmem Hsize H)
        as (keys & new & Hk & Ho & Ht & Hn & Hi).
      exists (key :: keys), new. rewrite Hk. simpl.
      apply Hmem, mem_In in Hin. rewrite Hin. auto.
    + assert (mem key seen = false) as Hms.
      { apply mem_false_In. intros Hs. apply Hnin, Hmem, Hs. }
      destruct (Nat.ltb_spec (size D) 20) as [Hlt|Hge].
      * (* a new key below the cap *)
        destruct (ranked_option (option_num m) "video" fmt) as [o|] eqn:Hro;
          simpl; [|discriminate].
        destruct (video_print fmt); simpl; [|discriminate].
        intros H.
        apply ranked_option_inv in Hro.
        destruct Hro as (Hnum & Hty & Hinfo & _).
        assert (forall k, k ∈ D ∪ {[key]} <-> In k (key :: seen)) as Hmem1.
        { intros k. rewrite elem_of_union, elem_of_singleton, Hmem.
          simpl. intuition. }
        assert (size (D ∪ {[key]}) = length (key :: seen)) as Hsize1.
        { rewrite size_union, size_singleton, Hsize; [simpl; lia|].
          intros k Hk1 Hk2. apply elem_of_singleton in Hk2. now subst. }
        destruct (IH _ _ D' m' (key :: seen) Hmem1 Hsize1 H)
          as (keys & new & Hk & Ho & Ht & Hn & Hi).
        exists (key :: keys), (o :: new). rewrite Hk. simpl.
        rewrite Hms.
        replace (20 - length seen)%nat with (S (20 - S (length seen)))%nat
          by lia.
        simpl in *. rewrite Hi, Hinfo, Ho, <- app_assoc. simpl.
        split; [reflexivity|]. split; [reflexivity|].
        split; [now constructor|].
        split; [|reflexivity].
        intros Hm. apply Hn. now apply numbered_snoc.
      * (* a new key at the cap *)
        intros H. destruct (IH D m D' m' seen Hmem Hsize H)
          as (keys & new & Hk & Ho & Ht & Hn & Hi).
        exists (key :: keys), new. rewrite Hk. simpl. rewrite Hms.
        replace (20 - length seen)%nat with 0%nat in * by lia.
        auto.
Qed.

Lemma video_section_spec (l : list fmt_dict) (m m' : menu) :
  video_section l m = Ok m' ->
  exists keys new,
    map_result video_key (sort_video l) = Ok keys
    /\ options m' = (options m ++ new)%list
    /\ Forall (fun o => opt_type o = "video") new
    /\ (numbered m -> numbered m')
    /\ map opt_info new
       = map (fun p => Val (snd p))
           (firstn 20 (first_occurrences [] (combine keys (sort_video l)))).
Proof.
  unfold video_section. destruct l as [|x l].
  - intros H. injection H as <-. exists [], [].
    rewrite app_nil_r. simpl.
    split; [reflexivity|]. split; [reflexivity|].
    split; [constructor|]. split; [auto|reflexivity].
  - destruct (video_loop _ _ _) as [[D1 m1]|] eqn:Hl; simpl; [|discriminate].
    intros H. injection H as <-.
    apply (video_loop_spec _ ∅ m D1 m1 []) in Hl; [exact Hl| |reflexivity].
    intros k. simpl. split; [|contradiction]. apply not_elem_of_empty.
Qed.

(** ** Keeping first occurrences *)

Lemma first_occurrences_keys {A : Type} (l : list (string * A)) :
  forall seen,
    List.NoDup (map fst (first_occurrences seen l))
    /\ forall k, In k (map fst (first_occurrences seen l)) -> ~ In k seen.
Proof.
  induction l as [|[k x] l IH]; intros seen; simpl.
  - split; [constructor | contradiction].
  - destruct (mem k seen) eqn:Hm; [apply IH|].
    destruct (IH (k :: seen)) as [Hnd Hfresh]. simpl. split.
    + apply List.NoDup_cons_iff. split; [|exact Hnd].
      intros Hin. apply (Hfresh k Hin). now left.
    + intros k' [<-|Hin].
      * now apply mem_false_In.
      * intros Hs. apply (Hfresh k' Hin). now right.
Qed.

Lemma first_occurrences_incl {A : Type} (l : list (string * A)) :
  forall seen p, In p (first_occurrences seen l) -> In p l.
Proof.
  induction l as [|[k x] l IH]; intros seen p; simpl; [auto|].
  destruct (mem k seen); simpl.
  - intros H. right. now apply (IH seen).
  - intros [<-|H]; [now left|]. right. now apply (IH (k :: seen)).
Qed.

(** A kept entry is the first of its key. *)
Lemma first_occurrences_first {A : Type} (l : list (string * A))
    (k : string) (x : A) :
  forall seen,
    In (k, x) (first_occurrences seen l) ->
    exists pre post,
      l = (pre ++ (k, x) :: post)%list
      /\ ~ In k (map fst pre) /\ ~ In k seen.
Proof.
  induction l as [|[k0 x0] l IH]; intros seen; simpl; [contradiction|].
  destruct (mem k0 seen) eqn:Hm.
  - intros Hin. apply IH in Hin.
    destruct Hin as (pre & post & -> & Hpre & Hs).
    exists ((k0, x0) :: pre), post. simpl.
    split; [reflexivity|]. split; [|assumption].
    intros [->|H]; [|contradiction]. apply mem_In in Hm. contradiction.
  - intros [Heq|Hin].
    + injection Heq as -> ->. exists [], l. simpl.
      split; [reflexivity|]. split; [tauto|]. now apply mem_false_In.
    + apply IH in Hin. destruct Hin as (pre & post & -> & Hpre & Hs).
      exists ((k0, x0) :: pre), post. simpl.
      split; [reflexivity|]. split.
      * intros [->|H]; [|contradiction]. apply Hs. now left.
      * intros H. apply Hs. now right.
Qed.

(** The first entry of a key that was not seen is kept. *)
Lemma first_occurrences_kept {A : Type} (pre post : list (string * A))
    (k : string) (x : A) :
  forall seen,
    ~ In k (map fst pre) -> ~ In k seen ->
    In (k, x) (first_occurrences seen (pre ++ (k, x) :: post)).
Proof.
  induction pre as [|[k0 x0] pre IH]; intros seen Hpre Hs; simpl.
  - apply mem_false_In in Hs. rewrite Hs. now left.
  - simpl in Hpre. destruct (mem k0 seen).
    + apply IH; tauto.
    + right. apply IH; [tauto|]. simpl. tauto.
Qed.

Lemma map_result_combine {A B : Type} (f : A -> result B) (l : list A) :
  forall ys,
    map_result f l = Ok ys ->
    length ys = length l
    /\ Forall (fun p => f (snd p) = Ok (fst p)) (combine ys l).
Proof.
  induction l as [|x l IH]; intros ys; simpl.
  - intros H. injection H as <-. split; [reflexivity | constructor].
  - destruct (f x) as [y|] eqn:Hy; simpl; [|discriminate].
    destruct (map_result f l) as [ys'|]; simpl; [|discriminate].
    intros H. injection H as <-. destruct (IH ys' eq_refl) as [Hl Hf].
    simpl. split; [now rewrite Hl|]. now constructor.
Qed.

Lemma map_result_of_pairs {A B : Type} (f : A -> result B)
    (ps : list (B * A)) :
  Forall (fun p => f (snd p) = Ok (fst p)) ps ->
  map_result f (map snd ps) = Ok (map fst ps).
Proof.
  induction 1 as [|[y x] ps Hp _ IH]; simpl; [reflexivity|].
  simpl in Hp. now rewrite Hp, IH.
Qed.

Lemma firstn_incl {A : Type} (n : nat) (l : list A) (x : A) :
  In x (firstn n l) -> In x l.
Proof.
  revert l. induction n as [|n IH]; intros [|y l]; simpl; try contradiction.
  intros [<-|H]; [now left | right; now apply IH].
Qed.

Lemma firstn_NoDup {A : Type} (n : nat) (l : list A) :
  List.NoDup l -> List.NoDup (firstn n l).
Proof.
  revert l. induction n as [|n IH]; intros [|y l] Hnd; simpl;
    try constructor.
  - intros Hin. apply List.NoDup_cons_iff in Hnd. destruct Hnd as [Hy _].
    apply Hy. now apply (firstn_incl n).
  - apply IH. now apply List.NoDup_cons_iff in Hnd.
Qed.

(** ** OptionListBuilder: the shape of the list *)

Lemma fixed_menu_options (b : bool) (ttl desc : string)
    (video_formats : list fmt_dict) :
  options (fixed_menu b ttl desc video_formats)
  = (special_part b ttl desc video_formats
     ++ quick_entries
          (1 + Z.of_nat (length (special_part b ttl desc video_formats))))%list
  /\ numbered (fixed_menu b ttl desc video_formats).
Proof.
  unfold fixed_menu, special_part, vr_options.
  destruct b; [destruct (has_3d_180 ttl desc || has_sbs ttl desc video_formats)|];
    split; try reflexivity; split; reflexivity.
Qed.

Lemma display_shape (video_formats audio_formats : list fmt_dict)
    (info : option info_dict) (opts : list download_option) :
  display_format_options video_formats audio_formats info = Ok opts ->
  exists b ttl desc audio video keys,
    vr_check info = Ok (b, ttl, desc)
    /\ opts
       = (special_part b ttl desc video_formats
          ++ quick_entries
               (1 + Z.of_nat (length (special_part b ttl desc video_formats)))
          ++ audio ++ video)%list
    /\ Forall (fun o => opt_type o = "audio") audio
    /\ Forall (fun o => opt_type o = "video") video
    /\ map opt_num opts = map Z.of_nat (seq 1 (length opts))
    /\ map_result video_key (sort_video video_formats) = Ok keys
    /\ map opt_info video
       = map (fun p => Val (snd p))
           (firstn 20
              (first_occurrences [] (combine keys (sort_video video_formats)))).
Proof.
  unfold display_format_options.
  destruct (vr_check info) as [[[b ttl] desc]|] eqn:Hvr; simpl; [|discriminate].
  fold (fixed_menu b ttl desc video_formats).
  destruct (fixed_menu_options b ttl desc video_formats) as [Hfix Hnum].
  destruct (audio_section audio_formats _) as [m2|] eqn:Ha; simpl;
    [|discriminate].
  destruct (video_section video_formats m2) as [m3|] eqn:Hv; simpl;
    [|discriminate].
  intros H. injection H as <-.
  apply audio_section_extends in Ha. destruct Ha as (audio & Hoa & Hta & Hna).
  apply video_section_spec in Hv.
  destruct Hv as (keys & video & Hk & Hov & Htv & Hnv & Hi).
  exists b, ttl, desc, audio, video, keys.
  split; [reflexivity|].
  split; [now rewrite Hov, Hoa, Hfix, <- !app_assoc|].
  split.
  { eapply List.Forall_impl; [|exact Hta]. intros o [Ho|[]]. now symmetry. }
  split; [exact Htv|].
  split; [apply Hnv, Hna, Hnum|].
  split; assumption.
Qed.

Lemma ranked_infos_app (type : string) (a b : list download_option) :
  ranked_infos type (a ++ b)
  = (ranked_infos type a ++ ranked_infos type b)%list.
Proof. unfold ranked_infos. apply flat_map_app. Qed.

Lemma ranked_infos_other (type : string) (l : list download_option) :
  Forall (fun o => opt_type o <> type) l -> ranked_infos type l = [].
Proof.
  induction 1 as [|o l Ho _ IH]; [reflexivity|].
  simpl. apply String.eqb_neq in Ho. now rewrite Ho.
Qed.

Lemma ranked_infos_same (type : string) (l : list download_option)
    (fmts : list fmt_dict) :
  Forall (fun o => opt_type o = type) l ->
  map opt_info l = map Val fmts ->
  ranked_infos type l = fmts.
Proof.
  intros Hl. revert fmts.
  induction Hl as [|o l Ho _ IH]; intros [|f fmts]; simpl; try discriminate.
  - reflexivity.
  - intros H. injection H as Hi Hrest.
    rewrite Ho, String.eqb_refl, Hi. simpl. f_equal. now apply IH.
Qed.

Lemma special_part_types (b : bool) (ttl desc : string)
    (video_formats : list fmt_dict) :
  Forall (fun o => In (opt_type o) vr_special_types)
    (special_part b ttl desc video_formats).
Proof.
  unfold special_part, vr_entries.
  destruct b; [destruct (_ || _)|];
    repeat (constructor; [simpl; auto 10|]); constructor.
Qed.

Lemma ranked_infos_no_info (type : string) (l : list download_option) :
  Forall (fun o => opt_info o = Missing) l -> ranked_infos type l = [].
Proof.
  induction 1 as [|o l Ho _ IH]; [reflexivity|].
  unfold ranked_infos in *. cbn [flat_map]. rewrite Ho, IH.
  now destruct (String.eqb (opt_type o) type).
Qed.

Lemma fixed_not_ranked (type : string) (b : bool) (ttl desc : string)
    (video_formats : list fmt_dict) (n : Z) :
  ranked_infos type
    (special_part b ttl desc video_formats ++ quick_entries n) = [].
Proof.
  apply ranked_infos_no_info.
  unfold special_part, vr_entries, quick_entries.
  destruct b; [destruct (_ || _)|];
    repeat (constructor; [reflexivity|]); constructor.
Qed.

(** C6. The list returned by [display_format_options] is numbered 1..N in
    list order, and it is made of four sections in this order: the special
    VR entries (there are some exactly when the VR check fired), the three
    quick entries, the ranked audio entries, the ranked video entries. *)
Theorem display_format_options_sections
    (video_formats audio_formats : list fmt_dict) (info : option info_dict)
    (opts : list download_option) :
  display_format_options video_formats audio_formats info = Ok opts ->
  map opt_num opts = map Z.of_nat (seq 1 (length opts))
  /\ exists special quick audio video,
       opts = (special ++ quick ++ audio ++ video)%list
       /\ Forall (fun o => In (opt_type o) vr_special_types) special
       /\ (special <> [] <-> exists ttl desc, vr_check info = Ok (true, ttl, desc))
       /\ map opt_type quick = quick_types
       /\ Forall (fun o => opt_type o = "audio") audio
       /\ Forall (fun o => opt_type o = "video") video.
Proof.
  intros H. apply display_shape in H.
  destruct H as (b & ttl & desc & audio & video & keys
                 & Hvr & Ho & Ha & Hv & Hn & _).
  split; [exact Hn|].
  exists (special_part b ttl desc video_formats),
    (quick_entries
       (1 + Z.of_nat (length (special_part b ttl desc video_formats)))),
    audio, video.
  split; [exact Ho|].
  split; [apply special_part_types|].
  split; [|split; [reflexivity | split; assumption]].
  rewrite Hvr. unfold special_part, vr_entries. destruct b.
  - split; [intros _; now exists ttl, desc|].
    intros _. destruct (_ || _); discriminate.
  - split; [intros Hne; now contradiction Hne|].
    intros (t & d & Heq). discriminate.
Qed.

(** The menu of a video about VR with three video formats and one audio
    format. *)
Lemma display_format_options_sections_witness :
  map opt_num ex_options = map Z.of_nat (seq 1 (length ex_options))
  /\ exists special quick audio video,
       ex_options = (special ++ quick ++ audio ++ video)%list
       /\ Forall (fun o => In (opt_type o) vr_special_types) special
       /\ (special <> []
           <-> exists ttl desc, vr_check ex_vr_info = Ok (true, ttl, desc))
       /\ map opt_type quick = quick_types
       /\ Forall (fun o => opt_type o = "audio") audio
       /\ Forall (fun o => opt_type o = "video") video.
Proof.
  apply (display_format_options_sections ex_video_formats ex_audio_formats).
  vm_compute. reflexivity.
Defined.

Lemma video_key_tuple (f1 f2 : fmt_dict) :
  dedup_tuple f1 = dedup_tuple f2 -> video_key f1 = video_key f2.
Proof.
  unfold dedup_tuple, video_key. intros H.
  injection H as He Hh Hf Hv Ht. now rewrite He, Hh, Hf, Hv, Ht.
Qed.

Lemma map_result_nth {A B : Type} (f : A -> result B) (l : list A) :
  forall ys i x,
    map_result f l = Ok ys -> nth_error l i = Some x ->
    exists y, nth_error ys i = Some y /\ f x = Ok y.
Proof.
  induction l as [|a l IH]; intros ys i x; simpl.
  - intros _ Hn. destruct i; discriminate.
  - destruct (f a) as [y|] eqn:Hy; simpl; [|discriminate].
    destruct (map_result f l) as [ys'|]; simpl; [|discriminate].
    intros H. injection H as <-. destruct i as [|i]; simpl.
    + intros Hx. injection Hx as <-. now exists y.
    + intros Hx. now apply (IH ys' i x).
Qed.


Lemma is_vr_fires (ttl desc : string) :
  is_vr ttl desc = true
  <-> exists indicator,
        In indicator vr_indicators
        /\ (contains indicator ttl = true \/ contains indicator desc = true).
Proof.
  unfold is_vr. rewrite existsb_exists.
  split; intros (i & Hi & H); exists i; (split; [exact Hi|]).
  - now apply orb_true_iff.
  - now apply orb_true_iff.
Qed.

Lemma has_sbs_texts (ttl desc : string) (video_formats : list fmt_dict) :
  has_sbs ttl desc video_formats
  = sbs_evidence ttl || sbs_evidence desc
    || sbs_evidence (Repr.str_formats video_formats).
Proof.
  unfold has_sbs, sbs_evidence. simpl existsb.
  now rewrite orb_false_r, orb_assoc.
Qed.

Lemma sbs_evidence_note (note : string) (fmt : fmt_dict)
    (video_formats : list fmt_dict) :
  In fmt video_formats -> format_note fmt = Val note ->
  sbs_evidence note = true ->
  sbs_evidence (Repr.str_formats video_formats) = true.
Proof.
  intros Hin Hn. unfold sbs_evidence. rewrite !orb_true_iff.
  intros [[H|H]|H]; apply contains_occurs in H;
    apply (occurs_in_str_formats _ note fmt video_formats) in H;
    try assumption; try reflexivity;
    apply contains_occurs in H; rewrite H; auto.
Qed.

(** C10. When the VR check fires (the lower-cased title or description
    holds one of 360, vr, 180, 3d, stereoscopic, virtual reality), the
    list returned by [display_format_options] holds the "360° VR", the
    "180° VR" and the "3D Stereoscopic" entry, in this order and with no
    further condition; before them comes the "3D 180° VR side-by-side"
    entry, and it alone, exactly when [has_3d_180 or has_sbs]. The
    side-by-side test reads the title, the description and
    [str(video_formats)], so a side-by-side keyword in the format note of
    one video format is enough. *)
Theorem vr_special_options
    (video_formats audio_formats : list fmt_dict) (i : info_dict)
    (ttl desc : string) (opts : list download_option) :
  display_format_options video_formats audio_formats (Some i) = Ok opts ->
  lower (get_default (title i) "") = Ok ttl ->
  lower (get_default (description i) "") = Ok desc ->
  (exists indicator,
     In indicator
       ["360"; "vr"; "180"; "3d"; "stereoscopic"; "virtual reality"]
     /\ (contains indicator ttl = true \/ contains indicator desc = true)) ->
  (exists n pre rest,
     opts = (pre ++ [entry_vr_360 n; entry_vr_180 (n + 1); entry_3d (n + 2)]
             ++ rest)%list
     /\ ((has_3d_180 ttl desc || has_sbs ttl desc video_formats = true
          /\ pre = [entry_3d_180_sbs 1] /\ n = 2)
         \/ (has_3d_180 ttl desc || has_sbs ttl desc video_formats = false
             /\ pre = [] /\ n = 1)))
  /\ has_sbs ttl desc video_formats
     = sbs_evidence ttl || sbs_evidence desc
       || sbs_evidence (Repr.str_formats video_formats)
  /\ (forall fmt note,
        In fmt video_formats -> format_note fmt = Val note ->
        sbs_evidence note = true ->
        has_sbs ttl desc video_formats = true
        /\ exists rest, opts = (vr_entries true ++ rest)%list).
Proof.
  intros H Ht Hd Hfire.
  assert (vr_check (Some i) = Ok (true, ttl, desc)) as Hvr.
  { unfold vr_check. rewrite Ht, Hd. simpl.
    now rewrite (proj2 (is_vr_fires ttl desc) Hfire). }
  apply display_shape in H.
  destruct H as (b & ttl' & desc' & audio & video & keys
                 & Hvr' & Ho & _).
  rewrite Hvr in Hvr'. injection Hvr' as <- <- <-.
  unfold special_part in Ho.
  assert (forall c, has_3d_180 ttl desc || has_sbs ttl desc video_formats = c ->
          exists rest, opts = (vr_entries c ++ rest)%list) as Hshape.
  { intros c Hc. rewrite Hc in Ho. rewrite Ho. eexists. reflexivity. }
  split; [|split; [apply has_sbs_texts|]].
  - destruct (has_3d_180 ttl desc || has_sbs ttl desc video_formats) eqn:Hc;
      destruct (Hshape _ eq_refl) as [rest Hrest].
    + exists 2, [entry_3d_180_sbs 1], rest. split; [exact Hrest | now left].
    + exists 1, [], rest. split; [exact Hrest | now right].
  - intros fmt note Hin Hn Hs.
    assert (has_sbs ttl desc video_formats = true) as Hsbs.
    { rewrite has_sbs_texts, (sbs_evidence_note note fmt); auto.
      apply orb_true_r. }
    split; [exact Hsbs|]. apply Hshape. rewrite Hsbs. apply orb_true_r.
Qed.

(** A video titled "A VR clip" with a format whose note is "sbs". *)
Lemma vr_special_options_witness :
  (exists n pre rest,
     ex_options
     = (pre ++ [entry_vr_360 n; entry_vr_180 (n + 1); entry_3d (n + 2)]
        ++ rest)%list
     /\ ((has_3d_180 "a vr clip" "" || has_sbs "a vr clip" "" ex_video_formats
          = true
          /\ pre = [entry_3d_180_sbs 1] /\ n = 2)
         \/ (has_3d_180 "a vr clip" "" || has_sbs "a vr clip" "" ex_video_formats
             = false
             /\ pre = [] /\ n = 1)))
  /\ has_sbs "a vr clip" "" ex_video_formats
     = sbs_evidence "a vr clip" || sbs_evidence ""
       || sbs_evidence (Repr.str_formats ex_video_formats)
  /\ (forall fmt note,
        In fmt ex_video_formats -> format_note fmt = Val note ->
        sbs_evidence note = true ->
        has_sbs "a vr clip" "" ex_video_formats = true
        /\ exists rest, ex_options = (vr_entries true ++ rest)%list).
Proof.
  apply (vr_special_options ex_video_formats ex_audio_formats
           {| title := Val "A VR clip"; description := Missing;
              formats := Val [ex_video_only; ex_audio; ex_muxed;
                              ex_video_only] |}).
  - vm_compute. reflexivity.
  - reflexivity.
  - reflexivity.
  - exists "vr". split; [simpl; auto | left; reflexivity].
Defined.

(** ** The whole engine: when it returns *)

Lemma lower_returns (f : field string) :
  not_null f -> exists s, lower (get_default f "") = Ok s.
Proof. destruct f; simpl; intros H; [eauto | now contradiction H | eauto]. Qed.

Lemma vr_check_returns (i : info_dict) :
  not_null (title i) -> not_null (description i) ->
  exists b ttl desc, vr_check (Some i) = Ok (b, ttl, desc).
Proof.
  intros Ht Hd. unfold vr_check.
  destruct (lower_returns _ Ht) as [ttl ->].
  destruct (lower_returns _ Hd) as [desc ->]. simpl. eauto.
Qed.

Lemma detect_video_type_returns (fmt : fmt_dict) (i : info_dict) :
  not_null (format_note fmt) -> not_null (format_id fmt) ->
  not_null (title i) -> not_null (description i) ->
  exists vts, detect_video_type fmt (Some i) = Ok vts.
Proof.
  intros Hn Hf Ht Hd. unfold detect_video_type, detect_texts.
  destruct (lower_returns _ Hn) as [n ->].
  destruct (lower_returns _ Hf) as [f ->].
  destruct (lower_returns _ Ht) as [t ->].
  destruct (lower_returns _ Hd) as [d ->]. simpl. eauto.
Qed.

Lemma store_not_null {A : Type} (v : option A) :
  v <> None -> not_null (store v).
Proof. destruct v; simpl; [discriminate | congruence]. Qed.

Lemma get_default_not_none {A : Type} (f : field A) (d : A) :
  not_null f -> get_default f d <> None.
Proof. destruct f; simpl; unfold not_null; congruence. Qed.

Lemma process_format_returns (fmt : fmt_dict) (i : info_dict) :
  well_formed fmt -> not_null (title i) -> not_null (description i) ->
  exists v a,
    process_format fmt (Some i) = Ok (v, a)
    /\ Forall displayable v /\ Forall displayable a.
Proof.
  intros [[fid Hfid] [e He] Hr Hv Ha Hn] Ht Hd.
  destruct (detect_video_type_returns fmt i) as [vts Hvts]; try assumption.
  { rewrite Hfid. discriminate. }
  rewrite (process_format_cases fmt (Some i) vts Hvts).
  unfold video_audio_entry, video_only_entry, audio_entry.
  rewrite Hfid, He. simpl.
  assert (not_null (store (get_default (vcodec fmt) "unknown"))) as Hv'.
  { now apply store_not_null, get_default_not_none. }
  assert (not_null (store (get_default (acodec fmt) "unknown"))) as Ha'.
  { now apply store_not_null, get_default_not_none. }
  unfold not_null, has_value in *.
  destruct (not_none (get (vcodec fmt))), (not_none (get (acodec fmt)));
    simpl; do 2 eexists; (split; [reflexivity|]); split;
    repeat match goal with
           | |- Forall _ [] => constructor
           | |- Forall _ (_ :: _) => constructor
           | |- displayable _ => constructor; simpl
           end;
    unfold not_null, has_value; eauto; discriminate.
Qed.

Lemma bucket_loop_returns (fmts : list fmt_dict) (i : info_dict) :
  Forall well_formed fmts -> not_null (title i) -> not_null (description i) ->
  forall vf af,
    Forall displayable vf -> Forall displayable af ->
    exists v a,
      bucket_loop fmts (Some i) vf af = Ok (v, a)
      /\ Forall displayable v /\ Forall displayable a.
Proof.
  intros Hw Ht Hd. induction Hw as [|fmt fmts Hf _ IH]; intros vf af Hvf Haf.
  - simpl. eauto.
  - simpl. destruct (process_format_returns fmt i Hf Ht Hd)
      as (v & a & -> & Hv & Ha). simpl.
    apply IH; apply Forall_app; now split.
Qed.

Lemma audio_loop_returns (l : list fmt_dict) :
  Forall displayable l ->
  forall D m, exists D' m', audio_loop l D m = Ok (D', m').
Proof.
  induction 1 as [|fmt l [[e He] Hf _ _ _ _] _ IH]; intros D m; simpl.
  - eauto.
  - unfold audio_step, audio_key, ranked_option, audio_print.
    rewrite He, (subscript_value _ Hf). simpl.
    destruct (bool_decide _); simpl; apply IH.
Qed.

Lemma video_loop_returns (l : list fmt_dict) :
  Forall displayable l ->
  forall D m, exists D' m', video_loop l D m = Ok (D', m').
Proof.
  induction 1 as [|fmt l [[e He] Hf Hv Ha Hvt Hty] _ IH]; intros D m; simpl.
  - eauto.
  - unfold video_step, video_key, ranked_option, video_print.
    rewrite He, (subscript_value _ Hf), (subscript_value _ Hty).
    destruct (video_types fmt) as [| |vts]; [|now contradiction Hvt|];
      destruct (vcodec fmt) as [| |vc]; try (now contradiction Hv);
      simpl; (destruct (negb _ && _); simpl; [|apply IH]);
      destruct (is_video_audio _); simpl; try apply IH;
      destruct (acodec fmt); try (now contradiction Ha); simpl; apply IH.
Qed.

Lemma display_format_options_returns
    (video_formats audio_formats : list fmt_dict) (i : info_dict) :
  Forall displayable video_formats -> Forall displayable audio_formats ->
  not_null (title i) -> not_null (description i) ->
  exists opts,
    display_format_options video_formats audio_formats (Some i) = Ok opts.
Proof.
  intros Hv Ha Ht Hd. unfold display_format_options.
  destruct (vr_check_returns i Ht Hd) as (b & ttl & desc & ->). simpl.
  set (m1 := quick_options _).
  assert (exists m2, audio_section audio_formats m1 = Ok m2) as [m2 ->].
  { unfold audio_section. destruct audio_formats as [|x l]; [eauto|].
    destruct (audio_loop_returns (sort_audio (x :: l))) with (D := ∅ : gset string) (m := m1)
      as (D' & m' & ->).
    - eapply Permutation_Forall; [apply sort_audio_perm | exact Ha].
    - simpl. eauto. }
  simpl.
  assert (exists m3, video_section video_formats m2 = Ok m3) as [m3 ->].
  { unfold video_section. destruct video_formats as [|x l]; [eauto|].
    destruct (video_loop_returns (sort_video (x :: l))) with (D := ∅ : gset string) (m := m2)
      as (D' & m' & ->).
    - eapply Permutation_Forall; [apply sort_video_perm | exact Hv].
    - simpl. eauto. }
  simpl. eauto.
Qed.

(** For metadata and descriptors in which no text field holds [None] and
    every descriptor has its identifier and extension, the engine returns
    an option list. *)
Lemma pipeline_returns (i : info_dict) :
  well_formed_info i -> exists opts, pipeline (Some i) = Some (Ok opts).
Proof.
  intros [Ht Hd Hf]. unfold pipeline, get_video_info, get_video_info_body.
  assert (exists fmts, get_default (formats i) [] = Some fmts
                       /\ Forall well_formed fmts) as (fmts & -> & Hw).
  { destruct (formats i) as [| |l]; simpl; [eauto | contradiction | eauto]. }
  simpl.
  destruct (bucket_loop_returns fmts i Hw Ht Hd [] [])
    as (v & a & -> & Hv & Ha); [constructor | constructor |].
  simpl. destruct (display_format_options_returns v a i Hv Ha Ht Hd) as [opts ->].
  eauto.
Qed.

(** C3, at the failing inputs. A text field that is present with the value
    [None] is not replaced by the empty string: [detect_video_type] raises
    on a format note or a description that is [None], so [get_video_info]
    gives up the whole video, and [display_format_options] raises on a
    video codec that is [None]. When no text field holds [None] the engine
    does return. *)
Theorem none_text_field_raises :
  detect_video_type ex_hls (ex_info "clip" [ex_hls]) = Raise AttributeError
  /\ get_video_info (ex_info "clip" [ex_hls]) = (None, [], [])
  /\ detect_video_type ex_muxed (ex_info_null_description [ex_muxed])
     = Raise AttributeError
  /\ get_video_info (ex_info_null_description [ex_muxed]) = (None, [], [])
  /\ pipeline (ex_info_null_description []) = Some (Raise AttributeError)
  /\ pipeline (ex_info "clip" [ex_null_vcodec]) = Some (Raise TypeError)
  /\ (forall i, well_formed_info i ->
                exists opts, pipeline (Some i) = Some (Ok opts)).
Proof.
  repeat (split; [vm_compute; reflexivity|]).
  apply pipeline_returns.
Qed.

(** * Further properties of the engine *)

(** ** TypeDetector: the returned tags *)

Lemma add_tag_In (b : bool) (t x : string) (l : list string) :
  In x (if b then if mem t l then l else (l ++ [t])%list else l)
  <-> In x l \/ (b = true /\ x = t).
Proof.
  destruct b; [|intuition discriminate].
  destruct (mem t l) eqn:Hm.
  - apply mem_In in Hm. split; [auto|]. intros [H|[_ ->]]; assumption.
  - rewrite in_app_iff. simpl. intuition.
Qed.

Lemma add_tag_NoDup (b : bool) (t : string) (l : list string) :
  List.NoDup l ->
  List.NoDup (if b then if mem t l then l else (l ++ [t])%list else l).
Proof.
  intros Hl. destruct b; [|assumption].
  destruct (mem t l) eqn:Hm; [assumption|].
  apply mem_false_In in Hm.
  apply List.NoDup_app; [assumption | repeat constructor; auto |].
  intros x Hx [<-|[]]. contradiction.
Qed.

Lemma vr_scan_In (kws : list (string * string)) (note ttl desc x : string) :
  forall l,
    In x (vr_scan kws note ttl desc l)
    <-> In x l \/ exists k, In (k, x) kws /\ in_texts k note ttl desc = true.
Proof.
  induction kws as [|[k t] kws IH]; intros l; simpl.
  - split; [auto|]. intros [H|(k & [] & _)]. assumption.
  - rewrite IH, add_tag_In. split.
    + intros [[H|[Hk ->]]|(k' & Hin & Hk')]; eauto 6.
    + intros [H|(k' & [Heq|Hin] & Hk')]; eauto 6.
      injection Heq as -> ->. auto.
Qed.

Lemma vr_scan_NoDup (kws : list (string * string)) (note ttl desc : string) :
  forall l, List.NoDup l -> List.NoDup (vr_scan kws note ttl desc l).
Proof.
  induction kws as [|[k t] kws IH]; intros l Hl; simpl; [assumption|].
  now apply IH, add_tag_NoDup.
Qed.

Lemma vr180_scan_In (kws : list string) (note ttl desc x : string) :
  forall l,
    In x (vr180_scan kws note ttl desc l)
    <-> In x l
        \/ (x = "180°" /\ exists k, In k kws /\ in_texts k note ttl desc = true).
Proof.
  induction kws as [|k kws IH]; intros l; simpl.
  - split; [auto|]. intros [H|(_ & k & [] & _)]. assumption.
  - rewrite IH, add_tag_In. split.
    + intros [[H|[Hk ->]]|(-> & k' & Hin & Hk')]; eauto 8.
    + intros [H|(-> & k' & [<-|Hin] & Hk')]; eauto 8.
Qed.

Lemma vr180_scan_NoDup (kws : list string) (note ttl desc : string) :
  forall l, List.NoDup l -> List.NoDup (vr180_scan kws note ttl desc l).
Proof.
  induction kws as [|k kws IH]; intros l Hl; simpl; [assumption|].
  now apply IH, add_tag_NoDup.
Qed.

Lemma hdr_scan_In (kws : list string) (note fid x : string) :
  forall l,
    In x (hdr_scan kws note fid l)
    <-> In x l
        \/ (x = "HDR"
            /\ exists k, In k kws
                         /\ (contains k note = true \/ contains k fid = true)).
Proof.
  induction kws as [|k kws IH]; intros l; simpl.
  - split; [auto|]. intros [H|(_ & k & [] & _)]. assumption.
  - rewrite IH, add_tag_In, orb_true_iff. split.
    + intros [[H|[Hk ->]]|(-> & k' & Hin & Hk')]; eauto 8.
    + intros [H|(-> & k' & [<-|Hin] & Hk')]; eauto 8.
Qed.

Lemma hdr_scan_NoDup (kws : list string) (note fid : string) :
  forall l, List.NoDup l -> List.NoDup (hdr_scan kws note fid l).
Proof.
  induction kws as [|k kws IH]; intros l Hl; simpl; [assumption|].
  now apply IH, add_tag_NoDup.
Qed.

Lemma stereo_scan_In (note ttl desc x : string) :
  In x (stereo_scan stereo_keywords note ttl desc [])
  <-> exists kw,
        List.find (fun kw => in_texts (fst kw) note ttl desc) stereo_keywords
        = Some kw /\ x = snd kw.
Proof.
  rewrite stereo_scan_find.
  destruct (List.find _ stereo_keywords) as [kw|]; simpl.
  - split; [intros [<-|[]]; eauto | intros (kw' & H & ->)].
    injection H as <-. now left.
  - split; [contradiction | intros (kw' & H & _); discriminate].
Qed.

Lemma stereo_scan_NoDup (note ttl desc : string) :
  List.NoDup (stereo_scan stereo_keywords note ttl desc []).
Proof.
  rewrite stereo_scan_find.
  destruct (List.find _ stereo_keywords); repeat constructor; simpl; auto.
Qed.

Lemma scan_tags_NoDup (note fid ttl desc : string) :
  List.NoDup (scan_tags note fid ttl desc).
Proof.
  unfold scan_tags.
  apply hdr_scan_NoDup, vr180_scan_NoDup, vr_scan_NoDup, stereo_scan_NoDup.
Qed.

Lemma find_some_In {A : Type} (p : A -> bool) (l : list A) (x : A) :
  List.find p l = Some x -> In x l /\ p x = true.
Proof. apply find_some. Qed.

Lemma scan_tags_known (note fid ttl desc x : string) :
  In x (scan_tags note fid ttl desc) -> In x all_tags /\ x <> "3D-180°-VR".
Proof.
  unfold scan_tags.
  rewrite hdr_scan_In, vr180_scan_In, vr_scan_In, stereo_scan_In.
  intros [[[(kw & Hf & ->)|(k & Hin & _)]|[-> _]]|[-> _]].
  - apply find_some_In in Hf. destruct Hf as [Hin _].
    unfold stereo_keywords in Hin. simpl in Hin.
    repeat (destruct Hin as [<-|Hin]; [simpl; split; [auto 12|discriminate]|]).
    contradiction.
  - unfold vr_keywords in Hin. simpl in Hin.
    repeat (destruct Hin as [Heq|Hin];
            [injection Heq as _ <-; simpl; split; [auto 12|discriminate]|]).
    contradiction.
  - simpl; split; [auto 12|discriminate].
  - simpl; split; [auto 12|discriminate].
Qed.

Lemma combine_In (l : list string) (x : string) :
  In x (combine_3d_180 l) -> In x l \/ x = "3D-180°-VR".
Proof.
  unfold combine_3d_180. destruct (_ && _); [|auto].
  intros [<-|H]; [auto|]. apply filter_In in H. tauto.
Qed.

Lemma combine_NoDup (l : list string) :
  List.NoDup l -> ~ In "3D-180°-VR" l -> List.NoDup (combine_3d_180 l).
Proof.
  intros Hl Hc. unfold combine_3d_180. destruct (_ && _); [|assumption].
  constructor.
  - intros H. apply filter_In in H. tauto.
  - now apply List.NoDup_filter.
Qed.

Lemma scan_tags_In (note fid ttl desc x : string) :
  In x (scan_tags note fid ttl desc)
  <-> (exists kw,
         List.find (fun kw => in_texts (fst kw) note ttl desc) stereo_keywords
         = Some kw /\ x = snd kw)
      \/ (exists k, In (k, x) vr_keywords /\ in_texts k note ttl desc = true)
      \/ (x = "180°" /\ vr180_evidence note ttl desc)
      \/ (x = "HDR" /\ hdr_evidence note fid).
Proof.
  unfold scan_tags, vr180_evidence, hdr_evidence.
  rewrite hdr_scan_In, vr180_scan_In, vr_scan_In, stereo_scan_In.
  setoid_rewrite in_texts_found. tauto.
Qed.

Lemma stereo_find_evidence (note ttl desc : string) :
  (exists kw,
     List.find (fun kw => in_texts (fst kw) note ttl desc) stereo_keywords
     = Some kw)
  <-> stereo_evidence note ttl desc.
Proof.
  unfold stereo_evidence. split.
  - intros (kw & Hf). apply find_some in Hf. destruct Hf as [Hin Hk].
    exists (fst kw). split; [|now apply in_texts_found].
    change stereo_keyword_order with (map fst stereo_keywords).
    now apply in_map.
  - intros (k & Hin & Hk). apply in_texts_found in Hk.
    change stereo_keyword_order with (map fst stereo_keywords) in Hin.
    apply in_map_iff in Hin. destruct Hin as (kw & <- & Hin).
    destruct (List.find (fun kw => in_texts (fst kw) note ttl desc)
                stereo_keywords) as [kw'|] eqn:Hf; [eauto|].
    pose proof (find_none _ _ Hf kw Hin) as Hn. simpl in Hn. congruence.
Qed.

Lemma stereo_keywords_tags (kw : string * string) :
  In kw stereo_keywords ->
  In (snd kw) stereo_family /\ contains "3D" (snd kw) = true
  /\ snd kw <> "180°".
Proof.
  unfold stereo_keywords. simpl.
  intros H.
  repeat (destruct H as [<-|H];
          [simpl; split; [auto 8 | split; [reflexivity | discriminate]]|]).
  contradiction.
Qed.

Lemma vr_keywords_tags (k t : string) :
  In (k, t) vr_keywords ->
  contains "3D" t = false /\ t <> "180°" /\ is_independent t = true.
Proof.
  unfold vr_keywords. simpl. intros H.
  repeat (destruct H as [Heq|H];
          [injection Heq as _ <-; split; [reflexivity | split;
             [discriminate | reflexivity]]|]).
  contradiction.
Qed.

Lemma scan_has_3D (note fid ttl desc : string) :
  existsb (contains "3D") (scan_tags note fid ttl desc) = true
  <-> stereo_evidence note ttl desc.
Proof.
  rewrite <- stereo_find_evidence, existsb_exists. split.
  - intros (x & Hin & H3). apply scan_tags_In in Hin.
    destruct Hin as [(kw & Hf & _)|[(k & Hk & _)|[[-> _]|[-> _]]]].
    + eauto.
    + apply vr_keywords_tags in Hk. destruct Hk as (Hk & _). congruence.
    + discriminate.
    + discriminate.
  - intros (kw & Hf). exists (snd kw). split.
    + apply scan_tags_In. left. eauto.
    + apply find_some in Hf. now apply stereo_keywords_tags.
Qed.

Lemma scan_has_180 (note fid ttl desc : string) :
  mem "180°" (scan_tags note fid ttl desc) = true
  <-> vr180_evidence note ttl desc.
Proof.
  rewrite mem_In, scan_tags_In. split.
  - intros [(kw & Hf & Heq)|[(k & Hk & _)|[[_ H]|[Heq _]]]].
    + apply find_some in Hf. destruct Hf as [Hin _].
      apply stereo_keywords_tags in Hin. destruct Hin as (_ & _ & Hne).
      now contradiction Hne.
    + apply vr_keywords_tags in Hk. destruct Hk as (_ & Hne & _).
      now contradiction Hne.
    + exact H.
    + discriminate.
  - intros H. right. right. left. now split.
Qed.

Lemma combine_3d_180_In (l : list string) (x : string) :
  In x (combine_3d_180 l)
  <-> if existsb (contains "3D") l && mem "180°" l
      then x = "3D-180°-VR"
           \/ (In x l /\ contains "3D" x = false /\ x <> "180°")
      else In x l.
Proof.
  unfold combine_3d_180. destruct (_ && _); [|reflexivity].
  simpl. rewrite filter_In, andb_true_iff, !negb_true_iff.
  rewrite String.eqb_neq. split; intros [H|H]; auto.
Qed.

(** X1. [detect_video_type] returns a list without repeated tags, and
    every tag in it is one of the eleven the function knows. *)
Theorem detect_video_type_tags_distinct_known
    (fmt : fmt_dict) (info : option info_dict) (out : list string) :
  detect_video_type fmt info = Ok out ->
  List.NoDup out /\ Forall (fun t => In t all_tags) out.
Proof.
  unfold detect_video_type.
  destruct (detect_texts fmt info) as [[[[note fid] ttl] desc]|];
    simpl; [|discriminate].
  intros H. injection H as <-. split.
  - apply combine_NoDup; [apply scan_tags_NoDup|].
    intros Hin. apply scan_tags_known in Hin. now destruct Hin.
  - apply List.Forall_forall. intros x Hx. apply combine_In in Hx.
    destruct Hx as [Hx| ->]; [now apply scan_tags_known in Hx|].
    simpl. auto 12.
Qed.

Lemma detect_video_type_tags_distinct_known_witness :
  List.NoDup ["3D-180°-VR"; "VR"]
  /\ Forall (fun t => In t all_tags) ["3D-180°-VR"; "VR"].
Proof.
  apply (detect_video_type_tags_distinct_known empty_fmt
           (ex_info "Epic 3D 180 VR Tour" [])).
  reflexivity.
Defined.

(** X2. Which tags [detect_video_type] returns is decided by keyword
    evidence alone: ['HDR'] exactly when an HDR keyword is in the format
    note or the format id (title and description play no part); each of
    ['360°'], ['VR'], ['360°-EQR'] exactly when one of its keywords is in
    the note, title or description; ['3D-180°-VR'] exactly when both a
    stereoscopic and a 180° keyword are found; ['180°'] exactly when a 180°
    keyword is found and no stereoscopic one; a stereoscopic tag exactly
    when it is the tag of the first matching keyword and no 180° keyword
    is found. *)
Theorem detect_video_type_tags_decided
    (fmt : fmt_dict) (info : option info_dict) (note fid ttl desc : string) :
  detect_texts fmt info = Ok (note, fid, ttl, desc) ->
  exists out,
    detect_video_type fmt info = Ok out
    /\ (In "HDR" out <-> hdr_evidence note fid)
    /\ (forall t, In t ["360°"; "VR"; "360°-EQR"] ->
          (In t out
           <-> exists k, In (k, t) vr_keywords /\ found_in k note ttl desc))
    /\ (In "3D-180°-VR" out
        <-> stereo_evidence note ttl desc /\ vr180_evidence note ttl desc)
    /\ (In "180°" out
        <-> vr180_evidence note ttl desc /\ ~ stereo_evidence note ttl desc)
    /\ (forall t, In t stereo_family ->
          (In t out
           <-> (exists kw,
                  List.find
                    (fun kw => contains (fst kw) note
                               || contains (fst kw) ttl
                               || contains (fst kw) desc)
                    stereo_keywords = Some kw /\ t = snd kw)
               /\ ~ vr180_evidence note ttl desc)).
Proof.
  intros Ht. unfold detect_video_type. rewrite Ht. simpl.
  eexists. split; [reflexivity|].
  change (fun kw : string * string =>
            contains (fst kw) note || contains (fst kw) ttl
            || contains (fst kw) desc)
    with (fun kw : string * string => in_texts (fst kw) note ttl desc).
  setoid_rewrite <- in_texts_found at 1.
  pose proof (scan_has_3D note fid ttl desc) as H3.
  pose proof (scan_has_180 note fid ttl desc) as H180.
  pose proof (fun x => scan_tags_In note fid ttl desc x) as Hin.
  pose proof (fun x => combine_3d_180_In (scan_tags note fid ttl desc) x) as Hc.
  set (acc := scan_tags note fid ttl desc) in *.
  assert (forall kw,
            List.find (fun kw => in_texts (fst kw) note ttl desc)
              stereo_keywords = Some kw ->
            stereo_evidence note ttl desc
            /\ In (snd kw) stereo_family
            /\ contains "3D" (snd kw) = true /\ snd kw <> "180°") as Hst.
  { intros kw Hf. split; [apply stereo_find_evidence; eauto|].
    apply find_some in Hf. now apply stereo_keywords_tags. }
  assert (forall k t, In (k, t) vr_keywords ->
            contains "3D" t = false /\ t <> "180°"
            /\ t <> "HDR" /\ ~ In t stereo_family /\ t <> "3D-180°-VR") as Hvr.
  { intros k t Hk. unfold vr_keywords in Hk. simpl in Hk.
    repeat (destruct Hk as [Heq|Hk];
            [injection Heq as _ <-;
             repeat split; try discriminate; try reflexivity;
             simpl; intuition discriminate|]).
    contradiction. }
  assert (forall t, In t stereo_family ->
            t <> "HDR" /\ t <> "180°" /\ t <> "3D-180°-VR"
            /\ contains "3D" t = true
            /\ forall k, ~ In (k, t) vr_keywords) as Hfam.
  { intros t Hf. unfold stereo_family in Hf. simpl in Hf.
    repeat (destruct Hf as [<-|Hf];
            [repeat split; try discriminate;
             intros k Hk; apply Hvr in Hk; simpl in Hk; intuition|]).
    contradiction. }
  split; [|split; [|split; [|split]]].
  - (* HDR *)
    rewrite Hc. destruct (_ && _).
    + rewrite Hin. split.
      * intros [H|(H & _)]; [discriminate|].
        destruct H as [(kw & Hf & Heq)|[(k & Hk & _)|[[H _]|[_ H]]]];
          try discriminate; try assumption.
        -- apply Hst in Hf. rewrite <- Heq in Hf.
           destruct Hf as (_ & _ & Hf & _). discriminate.
        -- apply Hvr in Hk. intuition.
      * intros H. right. split; [|split; [reflexivity|discriminate]].
        right. right. right. now split.
    + rewrite Hin. split.
      * intros [(kw & Hf & Heq)|[(k & Hk & _)|[[H _]|[_ H]]]];
          try discriminate; try assumption.
        -- apply Hst in Hf. rewrite <- Heq in Hf.
           destruct Hf as (_ & _ & Hf & _). discriminate.
        -- apply Hvr in Hk. intuition.
      * intros H. right. right. right. now split.
  - (* the VR family *)
    intros t Ht3.
    assert (t <> "HDR" /\ t <> "180°" /\ t <> "3D-180°-VR"
            /\ contains "3D" t = false /\ ~ In t stereo_family) as Hk3.
    { simpl in Ht3. destruct Ht3 as [<-|[<-|[<-|[]]]];
        repeat split; try discriminate; simpl; intuition discriminate. }
    destruct Hk3 as (Hh & H18 & Hcb & H3d & Hnf).
    rewrite Hc. destruct (_ && _); rewrite Hin; split.
    + intros [H|(H & _)]; [contradiction|].
      destruct H as [(kw & Hf & Heq)|[H|[[H _]|[H _]]]];
        try contradiction; try assumption.
      apply Hst in Hf. rewrite <- Heq in Hf. intuition.
    + intros H. right. split; [|split; assumption]. right. now left.
    + intros [(kw & Hf & Heq)|[H|[[H _]|[H _]]]];
        try contradiction; try assumption.
      apply Hst in Hf. rewrite <- Heq in Hf. intuition.
    + intros H. right. now left.
  - (* the combined tag *)
    rewrite Hc. destruct (existsb _ acc) eqn:E3, (mem "180°" acc) eqn:E180;
      simpl.
    + split; [intros _; split; [now apply H3 | now apply H180]|auto].
    + rewrite Hin. split.
      * intros [(kw & Hf & Heq)|[(k & Hk & _)|[[H _]|[H _]]]];
          try discriminate.
        -- apply Hst in Hf. rewrite <- Heq in Hf.
           destruct Hf as (_ & Hf & _). simpl in Hf. intuition discriminate.
        -- apply Hvr in Hk. intuition.
      * intros [_ H]. apply H180 in H. discriminate.
    + rewrite Hin. split.
      * intros [(kw & Hf & Heq)|[(k & Hk & _)|[[H _]|[H _]]]];
          try discriminate.
        -- apply Hst in Hf. rewrite <- Heq in Hf.
           destruct Hf as (_ & Hf & _). simpl in Hf. intuition discriminate.
        -- apply Hvr in Hk. intuition.
      * intros [H _]. apply H3 in H. discriminate.
    + rewrite Hin. split.
      * intros [(kw & Hf & Heq)|[(k & Hk & _)|[[H _]|[H _]]]];
          try discriminate.
        -- apply Hst in Hf. rewrite <- Heq in Hf.
           destruct Hf as (_ & Hf & _). simpl in Hf. intuition discriminate.
        -- apply Hvr in Hk. intuition.
      * intros [H _]. apply H3 in H. discriminate.
  - (* the 180° tag *)
    rewrite Hc. destruct (existsb _ acc) eqn:E3, (mem "180°" acc) eqn:E180;
      simpl.
    + split.
      * intros [H|(_ & _ & H)]; [discriminate | now contradiction H].
      * intros [_ H]. contradiction H. now apply H3.
    + rewrite <- mem_In, E180. split; [discriminate|].
      intros [H _]. apply H180 in H. discriminate.
    + rewrite <- mem_In, E180. split; [|reflexivity].
      intros _. split; [now apply H180|].
      intros H. apply H3 in H. discriminate.
    + rewrite <- mem_In, E180. split; [discriminate|].
      intros [H _]. apply H180 in H. discriminate.
  - (* the stereoscopic tags *)
    intros t Hf. destruct (Hfam t Hf) as (Hh & H18 & Hcb & H3d & Hnv).
    rewrite Hc.
    assert (In t acc
            <-> exists kw,
                  List.find (fun kw => in_texts (fst kw) note ttl desc)
                    stereo_keywords = Some kw /\ t = snd kw) as Hacc.
    { rewrite Hin. split; [|auto].
      intros [H|[(k & Hk & _)|[[H _]|[H _]]]]; try contradiction;
        [assumption|]. now apply Hnv in Hk. }
    destruct (existsb _ acc) eqn:E3, (mem "180°" acc) eqn:E180; simpl.
    + split.
      * intros [H|(_ & H & _)]; [contradiction | congruence].
      * intros [_ H]. contradiction H. now apply H180.
    + rewrite Hacc. split; [|tauto]. intros H. split; [exact H|].
      intros H'. apply H180 in H'. discriminate.
    + rewrite Hacc. split; [|tauto].
      intros (kw & Hfd & _). exfalso.
      assert (false = true); [|discriminate].
      apply H3, stereo_find_evidence. eauto.
    + rewrite Hacc. split; [|tauto]. intros H. split; [exact H|].
      intros H'. apply H180 in H'. discriminate.
Qed.

(** A title with keywords of three kinds and a note that says HDR. *)
Lemma detect_video_type_tags_decided_witness :
  exists out,
    detect_video_type ex_muxed (ex_info "Epic 3D 180 VR Tour" []) = Ok out
    /\ (In "HDR" out <-> hdr_evidence "" "22")
    /\ (forall t, In t ["360°"; "VR"; "360°-EQR"] ->
          (In t out
           <-> exists k, In (k, t) vr_keywords
                         /\ found_in k "" "epic 3d 180 vr tour" ""))
    /\ (In "3D-180°-VR" out
        <-> stereo_evidence "" "epic 3d 180 vr tour" ""
            /\ vr180_evidence "" "epic 3d 180 vr tour" "")
    /\ (In "180°" out
        <-> vr180_evidence "" "epic 3d 180 vr tour" ""
            /\ ~ stereo_evidence "" "epic 3d 180 vr tour" "")
    /\ (forall t, In t stereo_family ->
          (In t out
           <-> (exists kw,
                  List.find
                    (fun kw => contains (fst kw) ""
                               || contains (fst kw) "epic 3d 180 vr tour"
                               || contains (fst kw) "")
                    stereo_keywords = Some kw /\ t = snd kw)
               /\ ~ vr180_evidence "" "epic 3d 180 vr tour" "")).
Proof.
  apply (detect_video_type_tags_decided ex_muxed
           (ex_info "Epic 3D 180 VR Tour" [])).
  reflexivity.
Defined.

(** ** TypeDetector: the stereoscopic scan *)

Lemma filter_stereo_add (l : list string) (t : string) (b : bool) :
  is_stereo t = false ->
  List.filter is_stereo
    (if b then if mem t l then l else (l ++ [t])%list else l)
  = List.filter is_stereo l.
Proof.
  intros Ht. destruct b; [|reflexivity].
  destruct (mem t l); [reflexivity|].
  rewrite List.filter_app. simpl. rewrite Ht. apply app_nil_r.
Qed.

Lemma vr_scan_filter (kws : list (string * string))
    (note ttl desc : string) (l : list string) :
  Forall (fun kw => is_stereo (snd kw) = false) kws ->
  List.filter is_stereo (vr_scan kws note ttl desc l)
  = List.filter is_stereo l.
Proof.
  intros Hk. revert l.
  induction Hk as [|[k t] kws Ht _ IH]; intros l; simpl; [reflexivity|].
  rewrite IH. now apply filter_stereo_add.
Qed.

Lemma vr180_scan_filter (kws : list string) (note ttl desc : string)
    (l : list string) :
  List.filter is_stereo (vr180_scan kws note ttl desc l)
  = List.filter is_stereo l.
Proof.
  revert l. induction kws as [|k kws IH]; intros l; simpl; [reflexivity|].
  rewrite IH. now apply filter_stereo_add.
Qed.

Lemma hdr_scan_filter (kws : list string) (note fid : string)
    (l : list string) :
  List.filter is_stereo (hdr_scan kws note fid l) = List.filter is_stereo l.
Proof.
  revert l. induction kws as [|k kws IH]; intros l; simpl; [reflexivity|].
  rewrite IH. now apply filter_stereo_add.
Qed.

(** The stereoscopic tags of the accumulated list are what the first loop
    appended. *)
Lemma scan_tags_stereo (note fid ttl desc : string) :
  List.filter is_stereo (scan_tags note fid ttl desc)
  = match List.find
            (fun kw => contains (fst kw) note || contains (fst kw) ttl
                       || contains (fst kw) desc)
            stereo_keywords with
    | Some kw => [snd kw]
    | None => []
    end.
Proof.
  unfold scan_tags.
  rewrite hdr_scan_filter, vr180_scan_filter,
    (vr_scan_filter _ _ _ _ _ vr_keywords_not_stereo), stereo_scan_find.
  unfold in_texts.
  destruct (List.find _ stereo_keywords) as [kw|] eqn:Hf; [|reflexivity].
  apply find_some in Hf. destruct Hf as [Hin _].
  apply stereo_keywords_tags in Hin. destruct Hin as [Hin _].
  simpl. apply mem_In in Hin. unfold is_stereo. now rewrite Hin.
Qed.

Lemma combine_stereo (l : list string) :
  combine_3d_180 l = l
  \/ (In "3D-180°-VR" (combine_3d_180 l)
      /\ List.filter is_stereo (combine_3d_180 l) = []).
Proof.
  unfold combine_3d_180.
  destruct (existsb (contains "3D") l && mem "180°" l); [right|now left].
  split; [now left|].
  simpl. change (is_stereo "3D-180°-VR") with false.
  induction l as [|x l IH]; [reflexivity|]. simpl.
  destruct (contains "3D" x) eqn:H3; simpl; [exact IH|].
  destruct (String.eqb x "180°"); simpl; [exact IH|].
  destruct (is_stereo x) eqn:Hs; [|exact IH].
  apply mem_In, stereo_contains_3D in Hs. congruence.
Qed.

(** The texts the detector reads when none of them is [None]. *)
Lemma detect_texts_present (fmt : fmt_dict) (info : option info_dict) :
  format_note fmt <> Null -> format_id fmt <> Null ->
  (forall i, info = Some i -> title i <> Null /\ description i <> Null) ->
  detect_texts fmt info
  = Ok (str_lower (text_of (format_note fmt)),
        str_lower (text_of (format_id fmt)),
        str_lower (info_text title info),
        str_lower (info_text description info)).
Proof.
  intros Hn Hf Hi. unfold detect_texts, info_text.
  destruct (format_note fmt); [|contradiction|];
    (destruct (format_id fmt); [|contradiction|]);
    (destruct info as [i|];
     [destruct (Hi i eq_refl) as [Ht Hd];
      destruct (title i); [|contradiction|];
      (destruct (description i); [|contradiction|]); reflexivity
     |reflexivity]).
Qed.

(** C7. The stereoscopic scan of [detect_video_type], on a descriptor and
    metadata in which no text is [None]: the keywords are 3d, stereoscopic,
    stereo, sbs, side by side, side-by-side, top bottom, top-bottom,
    anaglyph, dual fisheye, in this order; a keyword is found when it
    occurs in the lower-cased format note of the descriptor, in the
    lower-cased title or in the lower-cased description; the stereoscopic
    tags of the list accumulated by the scans are exactly the tag of the
    first keyword of the list that is found, whatever comes first in the
    texts, and none when no keyword is found. So the accumulated list
    holds at most one tag of the stereoscopic family, and the returned
    list, which is the accumulated one unless the two tags were collapsed
    into ['3D-180°-VR'], holds at most one too. *)
Theorem stereo_scan_first_keyword
    (fmt : fmt_dict) (info : option info_dict) :
  format_note fmt <> Null -> format_id fmt <> Null ->
  (forall i, info = Some i -> title i <> Null /\ description i <> Null) ->
  let note := str_lower (text_of (format_note fmt)) in
  let ttl := str_lower (info_text title info) in
  let desc := str_lower (info_text description info) in
  map fst stereo_keywords = stereo_keyword_order
  /\ map snd stereo_keywords
     = ["3D"; "3D"; "3D"; "SBS-3D"; "SBS-3D"; "SBS-3D"; "TB-3D"; "TB-3D";
        "Anaglyph-3D"; "DualFisheye-3D"]
  /\ exists acc out,
       accumulated_types fmt info = Ok acc
       /\ detect_video_type fmt info = Ok out
       /\ (forall pre k t post,
             stereo_keywords = (pre ++ (k, t) :: post)%list ->
             (contains k note = true \/ contains k ttl = true
              \/ contains k desc = true) ->
             (forall k', In k' (map fst pre) ->
                         contains k' note = false /\ contains k' ttl = false
                         /\ contains k' desc = false) ->
             List.filter is_stereo acc = [t])
       /\ ((forall k, In k stereo_keyword_order ->
                      contains k note = false /\ contains k ttl = false
                      /\ contains k desc = false) ->
           List.filter is_stereo acc = [])
       /\ (count_stereo acc <= 1)%nat
       /\ (out = acc
           \/ (In "3D-180°-VR" out /\ List.filter is_stereo out = []))
       /\ (count_stereo out <= 1)%nat.
Proof.
  intros Hn Hf Hi note ttl desc.
  split; [reflexivity|]. split; [reflexivity|].
  unfold accumulated_types, detect_video_type.
  rewrite (detect_texts_present fmt info Hn Hf Hi). simpl.
  fold note ttl desc. set (fid := str_lower (text_of (format_id fmt))).
  exists (scan_tags note fid ttl desc),
    (combine_3d_180 (scan_tags note fid ttl desc)).
  split; [reflexivity|]. split; [reflexivity|].
  split; [|split; [|split; [|split]]].
  - intros pre k t post Hsplit Hk Hpre.
    rewrite scan_tags_stereo, Hsplit.
    rewrite (find_first_match _ pre post (k, t)); [reflexivity| |].
    + simpl. rewrite !orb_true_iff. tauto.
    + intros [k' t'] Hin. simpl.
      destruct (Hpre k') as (-> & -> & ->); [|reflexivity].
      apply in_map_iff. now exists (k', t').
  - intros Hnone. rewrite scan_tags_stereo.
    destruct (List.find _ stereo_keywords) as [kw|] eqn:Hfd; [|reflexivity].
    apply find_some in Hfd. destruct Hfd as [Hin Hk].
    destruct (Hnone (fst kw) (in_map fst stereo_keywords kw Hin))
      as (H1 & H2 & H3).
    rewrite H1, H2, H3 in Hk. discriminate.
  - apply scan_tags_count.
  - apply combine_stereo.
  - pose proof (combine_count (scan_tags note fid ttl desc)).
    pose proof (scan_tags_count note fid ttl desc). lia.
Qed.

(** The note says anaglyph, the title side by side and the description
    stereo: the tag is the one of stereo, the first of the three in the
    list. A keyword in the note alone is found too. *)
Lemma stereo_scan_first_keyword_witness :
  (exists acc,
     accumulated_types ex_anaglyph ex_stereo_info = Ok acc
     /\ List.filter is_stereo acc = ["3D"])
  /\ (exists acc,
        accumulated_types ex_video_only (ex_info "clip" []) = Ok acc
        /\ List.filter is_stereo acc = ["SBS-3D"]).
Proof.
  split.
  - destruct (stereo_scan_first_keyword ex_anaglyph ex_stereo_info)
      as (_ & _ & acc & out & Hacc & _ & Hfirst & _).
    + discriminate.
    + discriminate.
    + intros i Hi. injection Hi as <-. split; discriminate.
    + exists acc. split; [exact Hacc|].
      apply (Hfirst [("3d", "3D"); ("stereoscopic", "3D")] "stereo" "3D"
               [("sbs", "SBS-3D"); ("side by side", "SBS-3D");
                ("side-by-side", "SBS-3D"); ("top bottom", "TB-3D");
                ("top-bottom", "TB-3D"); ("anaglyph", "Anaglyph-3D");
                ("dual fisheye", "DualFisheye-3D")]).
      * reflexivity.
      * right. right. reflexivity.
      * intros k' [<-|[<-|[]]]; repeat split; reflexivity.
  - destruct (stereo_scan_first_keyword ex_video_only (ex_info "clip" []))
      as (_ & _ & acc & out & Hacc & _ & Hfirst & _).
    + discriminate.
    + discriminate.
    + intros i Hi. injection Hi as <-. split; discriminate.
    + exists acc. split; [exact Hacc|].
      apply (Hfirst [("3d", "3D"); ("stereoscopic", "3D"); ("stereo", "3D")]
               "sbs" "SBS-3D"
               [("side by side", "SBS-3D");
                ("side-by-side", "SBS-3D"); ("top bottom", "TB-3D");
                ("top-bottom", "TB-3D"); ("anaglyph", "Anaglyph-3D");
                ("dual fisheye", "DualFisheye-3D")]).
      * reflexivity.
      * left. reflexivity.
      * intros k' [<-|[<-|[<-|[]]]]; repeat split; reflexivity.
Defined.

(** ** FormatAggregator: the two lists as a whole *)

Lemma store_subscript {A : Type} (f : field A) (v : option A) :
  subscript f = Ok v -> f <> Missing /\ store v = f.
Proof.
  destruct f; simpl; intros H; [discriminate | |];
    injection H as <-; split; (discriminate || reflexivity).
Qed.

Lemma video_audio_entry_built (fmt d : fmt_dict) (info : option info_dict)
    (vts : list string) :
  detect_video_type fmt info = Ok vts ->
  not_none (get (acodec fmt)) = true ->
  video_audio_entry fmt vts = Ok d -> built_video info fmt d.
Proof.
  intros Hd Ha. unfold video_audio_entry.
  destruct (subscript (format_id fmt)) as [fid|] eqn:Hf; simpl; [|discriminate].
  destruct (subscript (ext fmt)) as [e|] eqn:He; simpl; [|discriminate].
  apply store_subscript in Hf, He. destruct Hf as [Hf1 Hf2], He as [He1 He2].
  intros H. injection H as <-.
  constructor; simpl; rewrite ?Ha; eauto.
Qed.

Lemma video_only_entry_built (fmt d : fmt_dict) (info : option info_dict)
    (vts : list string) :
  detect_video_type fmt info = Ok vts ->
  not_none (get (acodec fmt)) = false ->
  video_only_entry fmt vts = Ok d -> built_video info fmt d.
Proof.
  intros Hd Ha. unfold video_only_entry.
  destruct (subscript (format_id fmt)) as [fid|] eqn:Hf; simpl; [|discriminate].
  destruct (subscript (ext fmt)) as [e|] eqn:He; simpl; [|discriminate].
  apply store_subscript in Hf, He. destruct Hf as [Hf1 Hf2], He as [He1 He2].
  intros H. injection H as <-.
  constructor; simpl; rewrite ?Ha; eauto.
Qed.

Lemma audio_entry_built (fmt d : fmt_dict) (info : option info_dict)
    (vts : list string) :
  detect_video_type fmt info = Ok vts ->
  audio_entry fmt = Ok d -> built_audio info fmt d.
Proof.
  intros Hd. unfold audio_entry.
  destruct (subscript (format_id fmt)) as [fid|] eqn:Hf; simpl; [|discriminate].
  destruct (subscript (ext fmt)) as [e|] eqn:He; simpl; [|discriminate].
  apply store_subscript in Hf, He. destruct Hf as [Hf1 Hf2], He as [He1 He2].
  intros H. injection H as <-.
  constructor; simpl; eauto.
Qed.

(** One iteration, read backwards from its result. *)
Lemma process_format_inv (fmt : fmt_dict) (info : option info_dict)
    (v a : list fmt_dict) :
  process_format fmt info = Ok (v, a) ->
  (has_video fmt = true /\ audio_only fmt = false /\ a = []
   /\ exists d, v = [d] /\ built_video info fmt d)
  \/ (has_video fmt = false /\ audio_only fmt = true /\ v = []
      /\ exists d, a = [d] /\ built_audio info fmt d)
  \/ (has_video fmt = false /\ audio_only fmt = false /\ v = [] /\ a = []).
Proof.
  unfold process_format.
  destruct (detect_video_type fmt info) as [vts|] eqn:Hd; simpl; [|discriminate].
  unfold bucket, has_video, audio_only, is_none.
  destruct (not_none (get (vcodec fmt))) eqn:Hv,
    (not_none (get (acodec fmt))) eqn:Ha; simpl.
  - destruct (video_audio_entry fmt vts) as [d|] eqn:He; simpl; [|discriminate].
    intros H. injection H as <- <-. left.
    repeat (split; [reflexivity|]). exists d. split; [reflexivity|].
    eapply video_audio_entry_built; eassumption.
  - destruct (video_only_entry fmt vts) as [d|] eqn:He; simpl; [|discriminate].
    intros H. injection H as <- <-. left.
    repeat (split; [reflexivity|]). exists d. split; [reflexivity|].
    eapply video_only_entry_built; eassumption.
  - destruct (audio_entry fmt) as [d|] eqn:He; simpl; [|discriminate].
    intros H. injection H as <- <-. right. left.
    repeat (split; [reflexivity|]). exists d. split; [reflexivity|].
    eapply audio_entry_built; eassumption.
  - intros H. injection H as <- <-. right. right. auto.
Qed.

Lemma bucket_loop_spec (fmts : list fmt_dict) (info : option info_dict) :
  forall vf af v a,
    bucket_loop fmts info vf af = Ok (v, a) ->
    exists v' a',
      v = (vf ++ v')%list /\ a = (af ++ a')%list
      /\ Forall2 (built_video info) (List.filter has_video fmts) v'
      /\ Forall2 (built_audio info) (List.filter audio_only fmts) a'.
Proof.
  induction fmts as [|fmt fmts IH]; intros vf af v a; simpl.
  - intros H. injection H as <- <-. exists [], [].
    rewrite !app_nil_r. repeat split; constructor.
  - destruct (process_format fmt info) as [[v1 a1]|] eqn:Hp; simpl;
      [|discriminate].
    intros H. apply IH in H. destruct H as (v' & a' & -> & -> & Hv & Ha).
    apply process_format_inv in Hp.
    destruct Hp as [(-> & -> & -> & d & -> & Hd)
                   |[(-> & -> & -> & d & -> & Hd)|(-> & -> & -> & ->)]].
    + exists (d :: v'), a'. rewrite <- !app_assoc, ?app_nil_r. simpl.
      split; [reflexivity|]. split; [reflexivity|].
      split; [now constructor | assumption].
    + exists v', (d :: a'). rewrite <- !app_assoc, ?app_nil_r. simpl.
      split; [reflexivity|]. split; [reflexivity|].
      split; [assumption | now constructor].
    + exists v', a'. rewrite ?app_nil_r. auto.
Qed.

Lemma get_video_info_inv (i i' : info_dict) (v a : list fmt_dict) :
  get_video_info (Some i) = (Some i', v, a) ->
  i' = i
  /\ exists fmts,
       get_default (formats i) [] = Some fmts
       /\ bucket_loop fmts (Some i) [] [] = Ok (v, a).
Proof.
  unfold get_video_info, get_video_info_body.
  destruct (get_default (formats i) []) as [fmts|]; simpl; [|discriminate].
  destruct (bucket_loop fmts (Some i) [] []) as [[v' a']|] eqn:Hb; simpl;
    [|discriminate].
  intros H. injection H as <- <- <-. eauto.
Qed.

(** X3. When [get_video_info] returns the metadata, [video_formats] holds
    one dictionary for each descriptor that has a video stream and
    [audio_formats] one for each descriptor that has audio and no video,
    both in the order of the descriptors; a dictionary carries the
    identifier and the extension of its descriptor unchanged, and a video
    dictionary the tags the detector returned for the descriptor. *)
Theorem get_video_info_filters
    (i i' : info_dict) (video_formats audio_formats : list fmt_dict) :
  get_video_info (Some i) = (Some i', video_formats, audio_formats) ->
  i' = i
  /\ exists fmts,
       get_default (formats i) [] = Some fmts
       /\ Forall2 (built_video (Some i)) (List.filter has_video fmts)
            video_formats
       /\ Forall2 (built_audio (Some i)) (List.filter audio_only fmts)
            audio_formats.
Proof.
  intros H. apply get_video_info_inv in H.
  destruct H as (-> & fmts & Hf & Hb). split; [reflexivity|].
  exists fmts. split; [assumption|].
  apply bucket_loop_spec in Hb.
  destruct Hb as (v' & a' & -> & -> & Hv & Ha). now split.
Qed.

(** The video about VR: two video-only dictionaries and a muxed one, in
    the order of the descriptors, and one audio dictionary. *)
Lemma get_video_info_filters_witness :
  {| title := Val "A VR clip"; description := Missing;
     formats := Val [ex_video_only; ex_audio; ex_muxed; ex_video_only] |}
  = {| title := Val "A VR clip"; description := Missing;
       formats := Val [ex_video_only; ex_audio; ex_muxed; ex_video_only] |}
  /\ exists fmts,
       Some [ex_video_only; ex_audio; ex_muxed; ex_video_only] = Some fmts
       /\ Forall2 (built_video ex_vr_info) (List.filter has_video fmts)
            ex_video_formats
       /\ Forall2 (built_audio ex_vr_info) (List.filter audio_only fmts)
            ex_audio_formats.
Proof.
  apply (get_video_info_filters
           {| title := Val "A VR clip"; description := Missing;
              formats := Val [ex_video_only; ex_audio; ex_muxed;
                              ex_video_only] |}).
  reflexivity.
Defined.

Lemma lower_raises (f : field string) :
  (exists e, lower (get_default f "") = Raise e) <-> f = Null.
Proof.
  destruct f; simpl; split; intros H; try discriminate;
    try (destruct H; discriminate); eauto.
Qed.

Lemma lower_cases (f : field string) :
  (f = Null /\ lower (get_default f "") = Raise AttributeError)
  \/ (f <> Null /\ exists s, lower (get_default f "") = Ok s).
Proof. destruct f; simpl; [right|left|right]; split; eauto; discriminate. Qed.

Lemma detect_video_type_raises (fmt : fmt_dict) (i : info_dict) :
  (exists e, detect_video_type fmt (Some i) = Raise e)
  <-> format_note fmt = Null \/ format_id fmt = Null
      \/ title i = Null \/ description i = Null.
Proof.
  unfold detect_video_type, detect_texts.
  destruct (lower_cases (format_note fmt)) as [[Hn ->]|[Hn [n ->]]]; simpl.
  { split; eauto. }
  destruct (lower_cases (format_id fmt)) as [[Hf ->]|[Hf [f ->]]]; simpl.
  { split; eauto. }
  destruct (lower_cases (title i)) as [[Ht ->]|[Ht [t ->]]]; simpl.
  { split; eauto. }
  destruct (lower_cases (description i)) as [[Hd ->]|[Hd [d ->]]]; simpl.
  { split; eauto 6. }
  split; [intros [e He]; discriminate|]. intuition.
Qed.

Lemma subscript_raises {A : Type} (f : field A) :
  (exists e, subscript f = Raise e) <-> f = Missing.
Proof.
  destruct f; simpl; split; intros H; try discriminate;
    try (destruct H; discriminate); eauto.
Qed.

Lemma entries_raise (fmt : fmt_dict) (vts : list string) :
  ((exists e, video_audio_entry fmt vts = Raise e)
   <-> format_id fmt = Missing \/ ext fmt = Missing)
  /\ ((exists e, video_only_entry fmt vts = Raise e)
      <-> format_id fmt = Missing \/ ext fmt = Missing)
  /\ ((exists e, audio_entry fmt = Raise e)
      <-> format_id fmt = Missing \/ ext fmt = Missing).
Proof.
  unfold video_audio_entry, video_only_entry, audio_entry.
  destruct (format_id fmt), (ext fmt); simpl;
    repeat split; intros H; eauto;
    try (destruct H as [e H]; discriminate);
    destruct H; discriminate.
Qed.

(** The iterations that raise. *)
Lemma process_format_raises (fmt : fmt_dict) (i : info_dict) :
  (exists e, process_format fmt (Some i) = Raise e)
  <-> raising_descriptor i fmt.
Proof.
  unfold raising_descriptor, process_format.
  destruct (detect_video_type fmt (Some i)) as [vts|e] eqn:Hd; simpl.
  - assert (~ (format_note fmt = Null \/ format_id fmt = Null
               \/ title i = Null \/ description i = Null)) as Hok.
    { intros H. apply detect_video_type_raises in H. destruct H as [e He].
      congruence. }
    destruct (entries_raise fmt vts) as (Hva & Hvo & Hau).
    unfold bucket, is_none.
    destruct (not_none (get (vcodec fmt))) eqn:Hv,
      (not_none (get (acodec fmt))) eqn:Ha; simpl.
    + apply not_none_get in Hv.
      destruct (video_audio_entry fmt vts) as [d|e]; simpl.
      * split; [intros [e He]; discriminate|].
        intros [H|[H|[H|[H|[_ H]]]]]; try tauto.
        apply Hva in H. destruct H; discriminate.
      * split; [|eauto]. intros _. do 4 right. split; [auto|].
        apply Hva. eauto.
    + apply not_none_get in Hv.
      destruct (video_only_entry fmt vts) as [d|e]; simpl.
      * split; [intros [e He]; discriminate|].
        intros [H|[H|[H|[H|[_ H]]]]]; try tauto.
        apply Hvo in H. destruct H; discriminate.
      * split; [|eauto]. intros _. do 4 right. split; [auto|].
        apply Hvo. eauto.
    + apply not_none_get in Ha.
      destruct (audio_entry fmt) as [d|e]; simpl.
      * split; [intros [e He]; discriminate|].
        intros [H|[H|[H|[H|[_ H]]]]]; try tauto.
        apply Hau in H. destruct H; discriminate.
      * split; [|eauto]. intros _. do 4 right. split; [auto|].
        apply Hau. eauto.
    + apply not_none_get_false in Hv, Ha.
      split; [intros [e He]; discriminate|].
      intros [H|[H|[H|[H|[[H|H] _]]]]]; tauto.
  - split; [|eauto]. intros _.
    assert (exists e, detect_video_type fmt (Some i) = Raise e) as H by eauto.
    apply detect_video_type_raises in H. tauto.
Qed.

Lemma bucket_loop_raises (fmts : list fmt_dict) (i : info_dict) :
  forall vf af,
    (exists e, bucket_loop fmts (Some i) vf af = Raise e)
    <-> Exists (raising_descriptor i) fmts.
Proof.
  induction fmts as [|fmt fmts IH]; intros vf af; simpl.
  - split; [intros [e He]; discriminate|]. intros H. inversion H.
  - rewrite Exists_cons, <- process_format_raises.
    destruct (process_format fmt (Some i)) as [[v a]|e] eqn:Hp; simpl.
    + rewrite IH. split; [auto|]. intros [[e He]|H]; [discriminate|assumption].
    + split; eauto.
Qed.

(** X4. [get_video_info] is all or nothing. It gives up the whole video,
    returning [(None, [], [])], exactly when the key ['formats'] holds
    [None] or one of the descriptors makes an iteration raise: a text field
    that holds [None], or a missing ['format_id'] or ['ext'] on a
    descriptor that has a stream. In every other case it returns the
    metadata with the two lists; a descriptor with both codecs ['none']
    never matters. *)
Theorem get_video_info_all_or_nothing (i : info_dict) :
  (get_video_info (Some i) = (None, [], [])
   <-> formats i = Null
       \/ exists fmts,
            formats i = Val fmts /\ Exists (raising_descriptor i) fmts)
  /\ (get_video_info (Some i) = (None, [], [])
      \/ exists video_formats audio_formats,
           get_video_info (Some i) = (Some i, video_formats, audio_formats)).
Proof.
  unfold get_video_info, get_video_info_body.
  destruct (formats i) as [| |fmts] eqn:Hf; simpl.
  - split; [|right; eauto]. split; [discriminate|].
    intros [H|(fmts & H & _)]; discriminate.
  - split; [|left; reflexivity]. split; auto.
  - pose proof (bucket_loop_raises fmts i [] []) as Hr.
    destruct (bucket_loop fmts (Some i) [] []) as [[v a]|e]; simpl.
    + split; [|right; eauto]. split; [discriminate|].
      intros [H|(fmts' & H & Hex)]; [discriminate|].
      injection H as <-. apply Hr in Hex. destruct Hex. discriminate.
    + split; [|left; reflexivity]. split; [|reflexivity].
      intros _. right. exists fmts. split; [reflexivity|].
      apply Hr. eauto.
Qed.

(** ** OptionRanker: the priorities that occur *)

Lemma combine_never_sbs_180 (l : list string) :
  mem "SBS-3D" (combine_3d_180 l) && mem "180°" (combine_3d_180 l) = false.
Proof.
  destruct (mem "SBS-3D" _) eqn:Hs; [|reflexivity].
  destruct (mem "180°" (combine_3d_180 l)) eqn:Hh; [|reflexivity].
  apply mem_In in Hs, Hh. rewrite combine_3d_180_In in Hs, Hh.
  destruct (existsb (contains "3D") l && mem "180°" l) eqn:Hc.
  - destruct Hs as [Hs|(_ & Hs & _)]; discriminate.
  - apply andb_false_iff in Hc. destruct Hc as [Hc|Hc].
    + assert (existsb (contains "3D") l = true); [|congruence].
      apply existsb_exists. exists "SBS-3D". now split.
    + apply mem_In in Hh. congruence.
Qed.

Lemma special_priority_detected (fmt d : fmt_dict) (info : option info_dict)
    (vts : list string) :
  detect_video_type fmt info = Ok vts -> video_types d = Val vts ->
  In (special_priority d) [1800; 1500; 1000; 500; 300; 200; 0].
Proof.
  unfold detect_video_type.
  destruct (detect_texts fmt info) as [[[[note fid] ttl] desc]|];
    simpl; [|discriminate].
  intros H Hv. injection H as <-.
  unfold special_priority. rewrite Hv. unfold get.
  pose proof (combine_never_sbs_180 (scan_tags note fid ttl desc)) as Hn.
  destruct (combine_3d_180 (scan_tags note fid ttl desc)) as [|t0 vts0];
    [simpl; auto 10|].
  cbv beta iota. set (vts := t0 :: vts0) in *. rewrite Hn.
  destruct (mem "3D-180°-VR" vts); [simpl; auto 10|].
  destruct (mem "SBS-3D" vts); [simpl; auto 10|].
  destruct (mem "HDR" vts); [simpl; auto 10|].
  destruct (mem "360°" vts || mem "VR" vts); [simpl; auto 10|].
  destruct (existsb (contains "3D") vts); [simpl; auto 10|].
  destruct (mem "180°" vts); simpl; auto 10.
Qed.

(** X5. The first row of the priority ladder of [sort_key], 2000 for a
    format tagged both ['SBS-3D'] and ['180°'], is never taken on a
    dictionary built by [get_video_info]: the detector replaces that pair by
    ['3D-180°-VR'], so the highest priority that occurs is 1800. *)
Theorem special_priority_first_row_dead
    (i i' : info_dict) (video_formats audio_formats : list fmt_dict) :
  get_video_info (Some i) = (Some i', video_formats, audio_formats) ->
  Forall
    (fun d => In (special_priority d) [1800; 1500; 1000; 500; 300; 200; 0])
    video_formats.
Proof.
  intros H. apply get_video_info_inv in H.
  destruct H as (-> & fmts & _ & Hb).
  apply bucket_loop_spec in Hb.
  destruct Hb as (v' & a' & -> & _ & Hv & _). simpl.
  induction Hv as [|f d fs ds Hd _ IH]; constructor; [|exact IH].
  destruct (bv_video_types _ _ _ Hd) as (vts & Hdet & Hvts).
  eapply special_priority_detected; eassumption.
Qed.

Lemma special_priority_first_row_dead_witness :
  Forall
    (fun d => In (special_priority d) [1800; 1500; 1000; 500; 300; 200; 0])
    ex_video_formats.
Proof.
  apply (special_priority_first_row_dead
           {| title := Val "A VR clip"; description := Missing;
              formats := Val [ex_video_only; ex_audio; ex_muxed;
                              ex_video_only] |}
           {| title := Val "A VR clip"; description := Missing;
              formats := Val [ex_video_only; ex_audio; ex_muxed;
                              ex_video_only] |}
           ex_video_formats ex_audio_formats).
  reflexivity.
Defined.

Lemma tuple_ltb_false_trans (a b c : Z * Z * num * num) :
  tuple_ltb a b = false -> tuple_ltb b c = false -> tuple_ltb a c = false.
Proof.
  destruct a as [[[a1 a2] a3] a4], b as [[[b1 b2] b3] b4],
    c as [[[c1 c2] c3] c4].
  intros Hab Hbc.
  destruct (tuple_ltb (a1, a2, a3, a4) (c1, c2, c3, c4)) eqn:Hac;
    [|reflexivity].
  exfalso.
  apply tuple_ltb_lex in Hac. apply tuple_ltb_ge in Hab, Hbc.
  destruct Hab as [?|[? [?|[? [?|[? ?]]]]]],
    Hbc as [?|[? [?|[? [?|[? ?]]]]]],
    Hac as [?|[? [?|[? [?|[? ?]]]]]]; first [lia | lra].
Qed.

Lemma descending_strong {A K : Type} (key : A -> K) (ltb : K -> K -> bool)
    (l : list A) :
  (forall a b c, ltb a b = false -> ltb b c = false -> ltb a c = false) ->
  descending key ltb l ->
  StronglySorted (fun a b => ltb (key a) (key b) = false) l.
Proof.
  intros Htr. apply Sorted_StronglySorted.
  intros a b c. apply Htr.
Qed.

Lemma strongly_sorted_split {A : Type} (R : A -> A -> Prop)
    (pre mid post : list A) (a b : A) :
  StronglySorted R (pre ++ a :: mid ++ b :: post) -> R a b.
Proof.
  induction pre as [|x pre IH]; simpl; intros H.
  - apply StronglySorted_inv in H. destruct H as [_ H].
    rewrite List.Forall_forall in H. apply H.
    apply in_or_app. right. now left.
  - apply StronglySorted_inv in H. now apply IH.
Qed.

(** X6. In the sorted video list the special priority dominates: a format
    never comes before one of a higher priority, whatever their heights;
    among formats of one priority none comes before one that is higher, and
    a missing height counts as 0. *)
Theorem sort_video_priority_dominates
    (l pre mid post : list fmt_dict) (a b : fmt_dict) :
  sort_video l = (pre ++ a :: mid ++ b :: post)%list ->
  special_priority b <= special_priority a
  /\ (special_priority b = special_priority a ->
      or0 (get (height b)) <= or0 (get (height a))).
Proof.
  intros Hs.
  pose proof (descending_strong sort_key tuple_ltb (sort_video l)
                tuple_ltb_false_trans (sort_video_descending l)) as Hd.
  rewrite Hs in Hd. apply strongly_sorted_split in Hd.
  unfold sort_key in Hd. apply tuple_ltb_ge in Hd.
  destruct Hd as [?|[? [?|[? _]]]]; lia.
Qed.

(** The side-by-side format at 2160 lines comes before the untagged one at
    the same height. *)
Lemma sort_video_priority_dominates_witness :
  special_priority (nth 1 ex_video_formats empty_fmt)
  <= special_priority (nth 0 ex_video_formats empty_fmt)
  /\ (special_priority (nth 1 ex_video_formats empty_fmt)
      = special_priority (nth 0 ex_video_formats empty_fmt) ->
      or0 (get (height (nth 1 ex_video_formats empty_fmt)))
      <= or0 (get (height (nth 0 ex_video_formats empty_fmt)))).
Proof.
  apply (sort_video_priority_dominates
           [nth 1 ex_video_formats empty_fmt;
            nth 0 ex_video_formats empty_fmt]
           [] [] []).
  reflexivity.
Defined.

Lemma num_eqb_not_below (a b rate : num) :
  num_eqb a rate = true -> num_eqb b rate = true -> num_ltb a b = false.
Proof.
  rewrite !num_eqb_eq, num_ltb_ge. intros Ha Hb. rewrite Ha, Hb.
  apply Qle_refl.
Qed.

(** X7. The audio list is put in descending order of bitrate by a stable
    sort in which a missing bitrate, [None] and 0 all count as 0: the
    sorted list is a rearrangement of the given one, no format comes
    before one of a higher bitrate, and formats of one bitrate keep the
    order they had, be the bitrate written the same (128 and 128) or only
    equal (128 and 128.0). *)
Theorem sort_audio_stable_descending (audio_formats : list fmt_dict) :
  Permutation audio_formats (sort_audio audio_formats)
  /\ descending (fun x => num_or0 (get (abr x))) num_ltb
       (sort_audio audio_formats)
  /\ (forall rate,
        List.filter (fun x => bool_decide (num_or0 (get (abr x)) = rate))
          (sort_audio audio_formats)
        = List.filter (fun x => bool_decide (num_or0 (get (abr x)) = rate))
            audio_formats)
  /\ (forall rate,
        List.filter (fun x => num_eqb (num_or0 (get (abr x))) rate)
          (sort_audio audio_formats)
        = List.filter (fun x => num_eqb (num_or0 (get (abr x))) rate)
            audio_formats)
  /\ (forall pre mid post a b,
        sort_audio audio_formats = (pre ++ a :: mid ++ b :: post)%list ->
        (num_value (num_or0 (get (abr b)))
         <= num_value (num_or0 (get (abr a))))%Q).
Proof.
  split; [apply sort_audio_perm|]. split; [|split; [|split]].
  - apply sort_desc_descending, num_ltb_asym.
  - intros rate. apply sort_desc_stable. apply num_ltb_irrefl.
  - intros rate. apply sort_desc_stable_class.
    intros a b. apply num_eqb_not_below.
  - intros pre mid post a b Hs.
    pose proof (descending_strong (fun x => num_or0 (get (abr x))) num_ltb
                  (sort_audio audio_formats) num_ltb_false_trans
                  (sort_desc_descending _ _ _ num_ltb_asym)) as Hd.
    rewrite Hs in Hd. apply strongly_sorted_split in Hd.
    now apply num_ltb_ge in Hd.
Qed.

(** ** OptionListBuilder: the ranked entries *)

Lemma ranked_option_from (n : Z) (type : string) (fmt : fmt_dict)
    (o : download_option) :
  ranked_option n type fmt = Ok o -> ranked_from type o fmt /\ opt_num o = n.
Proof.
  unfold ranked_option.
  destruct (subscript (format_id fmt)) as [fid|] eqn:Hf; simpl; [|discriminate].
  destruct (subscript (ext fmt)) as [e|] eqn:He; simpl; [|discriminate].
  intros H. injection H as <-.
  assert (format_id fmt <> Missing /\ fid = get (format_id fmt)) as Hf'.
  { destruct (format_id fmt); simpl in *; [discriminate | |];
      injection Hf as <-; split; (discriminate || reflexivity). }
  assert (ext fmt <> Missing /\ e = get (ext fmt)) as He'.
  { destruct (ext fmt); simpl in *; [discriminate | |];
      injection He as <-; split; (discriminate || reflexivity). }
  split; [constructor; simpl; tauto | reflexivity].
Qed.

Lemma video_print_type (fmt : fmt_dict) :
  video_print fmt = Ok tt -> type_ fmt <> Missing.
Proof.
  unfold video_print.
  destruct (slice 12 _); simpl; [|discriminate].
  destruct (type_ fmt); simpl; [discriminate | |]; discriminate.
Qed.

(** The audio loop keeps the first format of every key, without a cap. *)
Lemma audio_loop_full (l : list fmt_dict) :
  forall (D : gset string) (m : menu) (D' : gset string) (m' : menu)
         (seen : list string),
    (forall k, k ∈ D <-> In k seen) ->
    audio_loop l D m = Ok (D', m') ->
    exists keys new,
      map_result audio_key l = Ok keys
      /\ options m' = (options m ++ new)%list
      /\ ranked_audio new (first_occurrences seen (combine keys l)).
Proof.
  induction l as [|fmt l IH]; intros D m D' m' seen Hmem; simpl.
  - intros H. injection H as _ <-. exists [], [].
    rewrite app_nil_r. repeat split. constructor.
  - unfold audio_step.
    destruct (audio_key fmt) as [key|] eqn:Hkey; simpl; [|discriminate].
    destruct (bool_decide_reflect (key ∈ D)) as [Hin|Hnin]; simpl.
    + intros H. destruct (IH D m D' m' seen Hmem H) as (keys & new & Hk & Ho & Hr).
      exists (key :: keys), new. rewrite Hk. simpl.
      apply Hmem, mem_In in Hin. rewrite Hin. auto.
    + assert (mem key seen = false) as Hms.
      { apply mem_false_In. intros Hs. apply Hnin, Hmem, Hs. }
      destruct (ranked_option (option_num m) "audio" fmt) as [o|] eqn:Hro;
        simpl; [|discriminate].
      destruct (audio_print fmt); simpl; [|discriminate].
      intros H. apply ranked_option_from in Hro. destruct Hro as [Hro _].
      assert (forall k, k ∈ D ∪ {[key]} <-> In k (key :: seen)) as Hmem1.
      { intros k. rewrite elem_of_union, elem_of_singleton, Hmem.
        simpl. intuition. }
      destruct (IH _ _ D' m' (key :: seen) Hmem1 H)
        as (keys & new & Hk & Ho & Hr).
      exists (key :: keys), (o :: new). rewrite Hk. simpl. rewrite Hms.
      simpl in Ho. rewrite Ho, <- app_assoc. simpl.
      split; [reflexivity|]. split; [reflexivity|].
      constructor; assumption.
Qed.

(** The video loop does the same up to 20 entries. *)
Lemma video_loop_full (l : list fmt_dict) :
  forall (D : gset string) (m : menu) (D' : gset string) (m' : menu)
         (seen : list string),
    (forall k, k ∈ D <-> In k seen) ->
    size D = length seen ->
    video_loop l D m = Ok (D', m') ->
    exists keys new,
      map_result video_key l = Ok keys
      /\ options m' = (options m ++ new)%list
      /\ ranked_video new
           (firstn (20 - length seen)
              (first_occurrences seen (combine keys l))).
Proof.
  induction l as [|fmt l IH]; intros D m D' m' seen Hmem Hsize; simpl.
  - intros H. injection H as _ <-. exists [], [].
    rewrite app_nil_r. simpl. rewrite firstn_nil.
    repeat split. constructor.
  - unfold video_step.
    destruct (video_key fmt) as [key|] eqn:Hkey; simpl; [|discriminate].
    destruct (bool_decide_reflect (key ∈ D)) as [Hin|Hnin]; simpl.
    + intros H. destruct (IH D m D' m' seen Hmem Hsize H)
        as (keys & new & Hk & Ho & Hr).
      exists (key :: keys), new. rewrite Hk. simpl.
      apply Hmem, mem_In in Hin. rewrite Hin. auto.
    + assert (mem key seen = false) as Hms.
      { apply mem_false_In. intros Hs. apply Hnin, Hmem, Hs. }
      destruct (Nat.ltb_spec (size D) 20) as [Hlt|Hge].
      * destruct (ranked_option (option_num m) "video" fmt) as [o|] eqn:Hro;
          simpl; [|discriminate].
        destruct (video_print fmt) as [[]|] eqn:Hp; simpl; [|discriminate].
        intros H. apply ranked_option_from in Hro. destruct Hro as [Hro _].
        apply video_print_type in Hp.
        assert (forall k, k ∈ D ∪ {[key]} <-> In k (key :: seen)) as Hmem1.
        { intros k. rewrite elem_of_union, elem_of_singleton, Hmem.
          simpl. intuition. }
        assert (size (D ∪ {[key]}) = length (key :: seen)) as Hsize1.
        { rewrite size_union, size_singleton, Hsize; [simpl; lia|].
          intros k Hk1 Hk2. apply elem_of_singleton in Hk2. now subst. }
        destruct (IH _ _ D' m' (key :: seen) Hmem1 Hsize1 H)
          as (keys & new & Hk & Ho & Hr).
        exists (key :: keys), (o :: new). rewrite Hk. simpl. rewrite Hms.
        replace (20 - length seen)%nat with (S (20 - S (length seen)))%nat
          by lia.
        simpl in *. rewrite Ho, <- app_assoc. simpl.
        split; [reflexivity|]. split; [reflexivity|].
        constructor; [split|]; assumption.
      * intros H. destruct (IH D m D' m' seen Hmem Hsize H)
          as (keys & new & Hk & Ho & Hr).
        exists (key :: keys), new. rewrite Hk. simpl. rewrite Hms.
        replace (20 - length seen)%nat with 0%nat in * by lia.
        auto.
Qed.

(** The option list in full: the fixed entries, then the audio entries,
    then the video entries, each ranked entry with its dictionary. *)
Lemma display_full (video_formats audio_formats : list fmt_dict)
    (info : option info_dict) (opts : list download_option) :
  display_format_options video_formats audio_formats info = Ok opts ->
  exists b ttl desc akeys vkeys audio video,
    vr_check info = Ok (b, ttl, desc)
    /\ opts
       = (special_part b ttl desc video_formats
          ++ quick_entries
               (1 + Z.of_nat (length (special_part b ttl desc video_formats)))
          ++ audio ++ video)%list
    /\ map_result audio_key (sort_audio audio_formats) = Ok akeys
    /\ ranked_audio audio
         (first_occurrences [] (combine akeys (sort_audio audio_formats)))
    /\ map_result video_key (sort_video video_formats) = Ok vkeys
    /\ ranked_video video
         (firstn 20
            (first_occurrences [] (combine vkeys (sort_video video_formats)))).
Proof.
  unfold display_format_options.
  destruct (vr_check info) as [[[b ttl] desc]|] eqn:Hvr; simpl; [|discriminate].
  fold (fixed_menu b ttl desc video_formats).
  destruct (fixed_menu_options b ttl desc video_formats) as [Hfix _].
  destruct (audio_section audio_formats _) as [m2|] eqn:Ha; simpl;
    [|discriminate].
  destruct (video_section video_formats m2) as [m3|] eqn:Hv; simpl;
    [|discriminate].
  intros H. injection H as <-.
  assert (exists akeys audio,
            map_result audio_key (sort_audio audio_formats) = Ok akeys
            /\ options m2
               = (options (fixed_menu b ttl desc video_formats) ++ audio)%list
            /\ ranked_audio audio
                 (first_occurrences []
                    (combine akeys (sort_audio audio_formats))))
    as (akeys & audio & Hak & Hoa & Hra).
  { unfold audio_section in Ha. destruct audio_formats as [|x l].
    - injection Ha as <-. exists [], []. rewrite app_nil_r.
      repeat split. constructor.
    - destruct (audio_loop (sort_audio (x :: l)) ∅ _) as [[D' m']|] eqn:Hl;
        simpl in Ha; [|discriminate].
      injection Ha as <-.
      apply (audio_loop_full _ _ _ _ _ []) in Hl; [exact Hl|].
      intros k. rewrite elem_of_empty. simpl. tauto. }
  assert (exists vkeys video,
            map_result video_key (sort_video video_formats) = Ok vkeys
            /\ options m3 = (options m2 ++ video)%list
            /\ ranked_video video
                 (firstn 20
                    (first_occurrences []
                       (combine vkeys (sort_video video_formats)))))
    as (vkeys & video & Hvk & Hov & Hrv).
  { unfold video_section in Hv. destruct video_formats as [|x l].
    - injection Hv as <-. exists [], []. rewrite app_nil_r.
      repeat split. constructor.
    - destruct (video_loop (sort_video (x :: l)) ∅ m2) as [[D' m']|] eqn:Hl;
        simpl in Hv; [|discriminate].
      injection Hv as <-.
      apply (video_loop_full _ _ _ _ _ []) in Hl; [exact Hl| |].
      + intros k. rewrite elem_of_empty. simpl. tauto.
      + now rewrite size_empty. }
  exists b, ttl, desc, akeys, vkeys, audio, video.
  split; [reflexivity|].
  split; [now rewrite Hov, Hoa, Hfix, <- !app_assoc|].
  auto.
Qed.

Lemma ranked_audio_infos (audio : list download_option)
    (kept : list (string * fmt_dict)) :
  ranked_audio audio kept ->
  Forall (fun o => opt_type o = "audio") audio
  /\ map opt_info audio = map Val (map snd kept)
  /\ length audio = length kept.
Proof.
  induction 1 as [|o p audio kept Hr _ (IH1 & IH2 & IH3)]; simpl.
  - repeat split. constructor.
  - destruct Hr as [Ht Hi _ _ _]. rewrite Hi, IH2, IH3.
    repeat split. now constructor.
Qed.

Lemma ranked_video_infos (video : list download_option)
    (kept : list (string * fmt_dict)) :
  ranked_video video kept ->
  Forall (fun o => opt_type o = "video") video
  /\ map opt_info video = map Val (map snd kept)
  /\ length video = length kept.
Proof.
  induction 1 as [|o p video kept [Hr _] _ (IH1 & IH2 & IH3)]; simpl.
  - repeat split. constructor.
  - destruct Hr as [Ht Hi _ _ _]. rewrite Hi, IH2, IH3.
    repeat split. now constructor.
Qed.

Lemma first_occurrences_length {A : Type} (l : list (string * A)) :
  forall seen, (length (first_occurrences seen l) <= length l)%nat.
Proof.
  induction l as [|[k x] l IH]; intros seen; simpl; [lia|].
  destruct (mem k seen); simpl.
  - specialize (IH seen). lia.
  - specialize (IH (k :: seen)). lia.
Qed.

Lemma first_occurrences_complete {A : Type} (l : list (string * A))
    (k : string) (x : A) :
  forall seen,
    In (k, x) l -> ~ In k seen ->
    exists x', In (k, x') (first_occurrences seen l).
Proof.
  induction l as [|[k0 x0] l IH]; intros seen Hin Hs; simpl; [contradiction|].
  destruct (mem k0 seen) eqn:Hm.
  - destruct Hin as [Heq|Hin].
    + injection Heq as -> ->. apply mem_In in Hm. contradiction.
    + now apply IH.
  - destruct (String.eqb_spec k k0) as [->|Hne].
    + exists x0. now left.
    + destruct Hin as [Heq|Hin]; [congruence|].
      destruct (IH (k0 :: seen) Hin) as [x' Hx'].
      * intros [Heq|H]; [congruence|contradiction].
      * exists x'. now right.
Qed.

Lemma map_result_In {A B : Type} (f : A -> result B) (l : list A) (x : A) :
  forall ys,
    map_result f l = Ok ys -> In x l ->
    exists y, f x = Ok y /\ In (y, x) (combine ys l).
Proof.
  induction l as [|a l IH]; intros ys; simpl; [contradiction|].
  destruct (f a) as [y|] eqn:Hy; simpl; [|discriminate].
  destruct (map_result f l) as [ys'|]; simpl; [|discriminate].
  intros H. injection H as <-. intros [<-|Hin].
  - exists y. split; [assumption | now left].
  - destruct (IH ys' eq_refl Hin) as (y' & Hf & Hc).
    exists y'. split; [assumption | now right].
Qed.

Lemma audio_not_video (l : list download_option) :
  Forall (fun o => opt_type o = "audio") l ->
  Forall (fun o => opt_type o <> "video") l.
Proof. apply List.Forall_impl. intros o ->. discriminate. Qed.

Lemma video_not_audio (l : list download_option) :
  Forall (fun o => opt_type o = "video") l ->
  Forall (fun o => opt_type o <> "audio") l.
Proof. apply List.Forall_impl. intros o ->. discriminate. Qed.

Lemma special_part_length (b : bool) (ttl desc : string)
    (video_formats : list fmt_dict) :
  (length (special_part b ttl desc video_formats) <= 4)%nat.
Proof.
  unfold special_part, vr_entries.
  destruct b; [|simpl; lia]. destruct (_ || _); simpl; lia.
Qed.

(** X9. The option list is never empty: it holds the three standard
    entries at least, so the branch of [run] for an empty list is never
    taken; and it holds at most seven fixed entries, one entry for each
    audio format and twenty video entries. *)
Theorem option_list_never_empty
    (video_formats audio_formats : list fmt_dict) (info : option info_dict)
    (opts : list download_option) :
  display_format_options video_formats audio_formats info = Ok opts ->
  (3 <= length opts
   <= 7 + length audio_formats + Nat.min 20 (length video_formats))%nat.
Proof.
  intros H. apply display_full in H.
  destruct H as (b & ttl & desc & akeys & vkeys & audio & video
                 & _ & -> & Hak & Hra & Hvk & Hrv).
  apply ranked_audio_infos in Hra. destruct Hra as (_ & _ & Hla).
  apply ranked_video_infos in Hrv. destruct Hrv as (_ & _ & Hlv).
  apply map_result_combine in Hak, Hvk.
  destruct Hak as [Hak _], Hvk as [Hvk _].
  pose proof (special_part_length b ttl desc video_formats) as Hsp.
  pose proof (first_occurrences_length
                (combine akeys (sort_audio audio_formats)) []) as Hfa.
  pose proof (first_occurrences_length
                (combine vkeys (sort_video video_formats)) []) as Hfv.
  rewrite length_combine in Hfa, Hfv.
  pose proof (Permutation_length (sort_audio_perm audio_formats)) as Hpa.
  pose proof (Permutation_length (sort_video_perm video_formats)) as Hpv.
  rewrite length_firstn in Hlv.
  rewrite !length_app. simpl length. lia.
Qed.

Lemma option_list_never_empty_witness :
  (3 <= length ex_options
   <= 7 + length ex_audio_formats + Nat.min 20 (length ex_video_formats))%nat.
Proof.
  apply (option_list_never_empty ex_video_formats ex_audio_formats
           ex_vr_info ex_options).
  reflexivity.
Defined.

(** ** From the option list to the download options *)

Lemma pipeline_inv (i : info_dict) (opts : list download_option) :
  pipeline (Some i) = Some (Ok opts) ->
  exists video_formats audio_formats,
    get_video_info (Some i) = (Some i, video_formats, audio_formats)
    /\ display_format_options video_formats audio_formats (Some i) = Ok opts.
Proof.
  unfold pipeline.
  destruct (get_video_info (Some i)) as [[[i'|] v] a] eqn:Hg; [|discriminate].
  intros H. injection H as H.
  destruct (get_video_info_inv _ _ _ _ Hg) as [-> _]. eauto.
Qed.

Lemma Forall2_In_r {A B : Type} (R : A -> B -> Prop) (l : list A)
    (l' : list B) (y : B) :
  Forall2 R l l' -> In y l' -> exists x, In x l /\ R x y.
Proof.
  induction 1 as [|a b l l' Hab _ IH]; simpl; [contradiction|].
  intros [<-|Hin]; [eauto|].
  destruct (IH Hin) as (x & Hx & HR). eauto.
Qed.

Lemma Forall2_In_l {A B : Type} (R : A -> B -> Prop) (l : list A)
    (l' : list B) (x : A) :
  Forall2 R l l' -> In x l -> exists y, In y l' /\ R x y.
Proof.
  induction 1 as [|a b l l' Hab _ IH]; simpl; [contradiction|].
  intros [<-|Hin]; [eauto|].
  destruct (IH Hin) as (y & Hy & HR). eauto.
Qed.

Lemma combine_In_snd {A B : Type} (l : list A) (l' : list B) (p : A * B) :
  In p (combine l l') -> In (snd p) l'.
Proof. destruct p as [a b]. apply in_combine_r. Qed.

Lemma fixed_part_entries (b : bool) (ttl desc : string)
    (video_formats : list fmt_dict) (n : Z) (o : download_option) :
  In o (special_part b ttl desc video_formats ++ quick_entries n) ->
  exists num, In o (fixed_entries_at num).
Proof.
  intros H. apply in_app_or in H. destruct H as [H|H].
  - unfold special_part, vr_entries in H.
    destruct b; [|contradiction]. destruct (_ || _); simpl in H.
    + destruct H as [<-|[<-|[<-|[<-|[]]]]];
        eexists; unfold fixed_entries_at; simpl; eauto 8.
    + destruct H as [<-|[<-|[<-|[]]]];
        eexists; unfold fixed_entries_at; simpl; eauto 8.
  - unfold quick_entries in H. simpl in H.
    destruct H as [<-|[<-|[<-|[]]]];
      eexists; unfold fixed_entries_at; simpl; eauto 10.
Qed.

(** Every entry of the option list is a fixed entry, or stands for an
    audio format, or stands for a video format. *)
Lemma display_entry_cases (video_formats audio_formats : list fmt_dict)
    (info : option info_dict) (opts : list download_option)
    (o : download_option) :
  display_format_options video_formats audio_formats info = Ok opts ->
  In o opts ->
  (exists num, In o (fixed_entries_at num))
  \/ (exists fmt, ranked_from "audio" o fmt /\ In fmt audio_formats)
  \/ (exists fmt, ranked_from "video" o fmt /\ type_ fmt <> Missing
                  /\ In fmt video_formats).
Proof.
  intros H Hin. apply display_full in H.
  destruct H as (b & ttl & desc & akeys & vkeys & audio & video
                 & _ & -> & _ & Hra & _ & Hrv).
  rewrite app_assoc in Hin. apply in_app_or in Hin.
  destruct Hin as [Hin|Hin]; [left; eapply fixed_part_entries; eassumption|].
  right. apply in_app_or in Hin. destruct Hin as [Hin|Hin].
  - left. destruct (Forall2_In_l _ _ _ _ Hra Hin) as (p & Hp & Hr).
    exists (snd p). split; [assumption|].
    apply first_occurrences_incl, combine_In_snd in Hp.
    eapply Permutation_in; [symmetry; apply sort_audio_perm | exact Hp].
  - right. destruct (Forall2_In_l _ _ _ _ Hrv Hin) as (p & Hp & Hr & Hty).
    exists (snd p). split; [assumption|]. split; [assumption|].
    apply firstn_incl, first_occurrences_incl, combine_In_snd in Hp.
    eapply Permutation_in; [symmetry; apply sort_video_perm | exact Hp].
Qed.

Lemma detected_format_id (fmt : fmt_dict) (info : option info_dict)
    (vts : list string) :
  detect_video_type fmt info = Ok vts -> format_id fmt <> Null.
Proof.
  unfold detect_video_type, detect_texts.
  destruct (lower (get_default (format_note fmt) "")); simpl; [|discriminate].
  destruct (format_id fmt); simpl; discriminate.
Qed.

Lemma present_value {A : Type} (f : field A) :
  f <> Missing -> f <> Null -> exists a, f = Val a.
Proof. destruct f; [contradiction | contradiction | eauto]. Qed.

(** End to end, every entry of the option list is a fixed entry, or
    stands for an audio dictionary, or stands for a video dictionary whose
    type is one of the two [get_video_info] writes; the format identifier
    of a dictionary is a string. *)
Lemma pipeline_entry_cases (i : info_dict) (opts : list download_option)
    (o : download_option) :
  pipeline (Some i) = Some (Ok opts) ->
  In o opts ->
  (exists num, In o (fixed_entries_at num))
  \/ (exists d id,
        ranked_from "audio" o d /\ format_id d = Val id
        /\ type_ d = Val "audio")
  \/ (exists d id,
        ranked_from "video" o d /\ format_id d = Val id
        /\ (type_ d = Val "video+audio" \/ type_ d = Val "video_only")).
Proof.
  intros Hp Hin. apply pipeline_inv in Hp.
  destruct Hp as (vfs & afs & Hg & Hd).
  apply get_video_info_inv in Hg. destruct Hg as (_ & fmts & _ & Hb).
  apply bucket_loop_spec in Hb.
  destruct Hb as (v' & a' & -> & -> & Hv & Ha). simpl in Hd.
  destruct (display_entry_cases _ _ _ _ _ Hd Hin)
    as [Hf|[(d & Hr & Hd')|(d & Hr & Hty & Hd')]].
  - now left.
  - right. left.
    destruct (Forall2_In_r _ _ _ _ Ha Hd') as (f & _ & Hbf).
    destruct Hbf as [[Hf1 Hf2] _ Hbt [vts Hdet] _ _ _].
    apply detected_format_id in Hdet.
    destruct (present_value _ Hf1 Hdet) as [id Hid].
    exists d, id. split; [assumption|]. split; [congruence | assumption].
  - right. right.
    destruct (Forall2_In_r _ _ _ _ Hv Hd') as (f & _ & Hbf).
    destruct Hbf as [[Hf1 Hf2] _ Hbt [vts [Hdet _]] _ _ _ _ _ _ _ _].
    apply detected_format_id in Hdet.
    destruct (present_value _ Hf1 Hdet) as [id Hid].
    exists d, id. split; [assumption|]. split; [congruence|].
    rewrite Hbt. destruct (not_none (get (acodec f))); auto.
Qed.

(** X10. End to end, whichever entry of the option list is selected,
    [create_download_options] raises no exception (the keys ['info'] and
    ['type'] it subscripts are there whenever it reads them), and the
    options it returns carry a format selector that is a string, the
    output template under the download directory and [ignoreerrors]
    false. *)
Theorem create_download_options_returns
    (download_dir : string) (i : info_dict) (opts : list download_option)
    (o : download_option) :
  pipeline (Some i) = Some (Ok opts) ->
  In o opts ->
  exists r selector,
    create_download_options download_dir o = Ok r
    /\ ydl_format r = Val selector
    /\ outtmpl r = download_dir +:+ "/%(title)s.%(ext)s"
    /\ ignoreerrors r = false.
Proof.
  intros Hp Hin.
  destruct (pipeline_entry_cases _ _ _ Hp Hin)
    as [[num Hf]|[(d & id & Hr & Hid & Hty)|(d & id & Hr & Hid & Hty)]].
  - unfold fixed_entries_at in Hf. simpl in Hf.
    destruct Hf as [<-|[<-|[<-|[<-|[<-|[<-|[<-|[]]]]]]]];
      do 2 eexists; repeat split.
  - destruct Hr as [Ht _ _ [_ Hfo] _].
    unfold create_download_options. rewrite Ht, Hfo, Hid. simpl.
    do 2 eexists; repeat split.
  - destruct Hr as [Ht Hi _ [_ Hfo] _].
    unfold create_download_options, info_type.
    rewrite Ht, Hi, Hfo, Hid. simpl.
    destruct Hty as [Hty|Hty]; rewrite Hty; simpl;
      do 2 eexists; repeat split.
Qed.

Lemma create_download_options_returns_witness :
  exists r selector,
    create_download_options "downloads" (nth 0 ex_options (entry_3d 0)) = Ok r
    /\ ydl_format r = Val selector
    /\ outtmpl r = "downloads" +:+ "/%(title)s.%(ext)s"
    /\ ignoreerrors r = false.
Proof.
  apply (create_download_options_returns "downloads"
           {| title := Val "A VR clip"; description := Missing;
              formats := Val [ex_video_only; ex_audio; ex_muxed;
                              ex_video_only] |}
           ex_options).
  - reflexivity.
  - simpl. auto.
Defined.

(** X11. The special VR entries and the download options. No entry of the
    option list has the type ['vr_video'], so that branch of
    [create_download_options] is never taken. The entries of the types
    ['3d_180_sbs_video'], ['vr_360_video'] and ['vr_180_video'], whose
    extension is ['mkv'], fall to the last branch: the options ask for
    the best video and audio and name no container to merge into and no
    metadata file, where the entry of type ['3d_video'] gets both. *)
Theorem vr_entries_download_options
    (download_dir : string) (video_formats audio_formats : list fmt_dict)
    (info : option info_dict) (opts : list download_option)
    (o : download_option) :
  display_format_options video_formats audio_formats info = Ok opts ->
  In o opts ->
  opt_type o <> "vr_video"
  /\ (In (opt_type o) ["3d_180_sbs_video"; "vr_360_video"; "vr_180_video"] ->
      opt_ext o = Some "mkv"
      /\ create_download_options download_dir o
         = Ok {| outtmpl := download_dir +:+ "/%(title)s.%(ext)s";
                 ignoreerrors := false;
                 ydl_format := Val "bestvideo+bestaudio/best";
                 merge_output_format := Missing;
                 writeinfojson := Missing;
                 postprocessors := Missing |})
  /\ (opt_type o = "3d_video" ->
      create_download_options download_dir o
      = Ok {| outtmpl := download_dir +:+ "/%(title)s.%(ext)s";
              ignoreerrors := false;
              ydl_format := Val "bestvideo+bestaudio/best";
              merge_output_format := Val "mkv";
              writeinfojson := Val true;
              postprocessors := Missing |}).
Proof.
  intros Hd Hin.
  destruct (display_entry_cases _ _ _ _ _ Hd Hin)
    as [[num Hf]|[(d & Hr & _)|(d & Hr & _)]].
  - unfold fixed_entries_at in Hf. simpl in Hf.
    destruct Hf as [<-|[<-|[<-|[<-|[<-|[<-|[<-|[]]]]]]]]; simpl;
      (split; [discriminate|]);
      (split; [intros [H|[H|[H|[]]]]; try discriminate; split; reflexivity|]);
      intros H; try discriminate; reflexivity.
  - destruct Hr as [Ht _ _ _ _]. rewrite Ht.
    split; [discriminate|].
    split; [intros [H|[H|[H|[]]]]; discriminate | discriminate].
  - destruct Hr as [Ht _ _ _ _]. rewrite Ht.
    split; [discriminate|].
    split; [intros [H|[H|[H|[]]]]; discriminate | discriminate].
Qed.

Lemma vr_entries_download_options_witness :
  opt_type (nth 1 ex_options (entry_3d 0)) <> "vr_video"
  /\ (In (opt_type (nth 1 ex_options (entry_3d 0)))
        ["3d_180_sbs_video"; "vr_360_video"; "vr_180_video"] ->
      opt_ext (nth 1 ex_options (entry_3d 0)) = Some "mkv"
      /\ create_download_options "downloads" (nth 1 ex_options (entry_3d 0))
         = Ok {| outtmpl := "downloads" +:+ "/%(title)s.%(ext)s";
                 ignoreerrors := false;
                 ydl_format := Val "bestvideo+bestaudio/best";
                 merge_output_format := Missing;
                 writeinfojson := Missing;
                 postprocessors := Missing |})
  /\ (opt_type (nth 1 ex_options (entry_3d 0)) = "3d_video" ->
      create_download_options "downloads" (nth 1 ex_options (entry_3d 0))
      = Ok {| outtmpl := "downloads" +:+ "/%(title)s.%(ext)s";
              ignoreerrors := false;
              ydl_format := Val "bestvideo+bestaudio/best";
              merge_output_format := Val "mkv";
              writeinfojson := Val true;
              postprocessors := Missing |}).
Proof.
  apply (vr_entries_download_options "downloads" ex_video_formats
           ex_audio_formats ex_vr_info ex_options).
  - reflexivity.
  - simpl. auto.
Defined.

(** X12. End to end, for a ranked entry: the selector is the identifier of
    the entry's own format. A video-only format is paired with the best
    audio and merged into MKV when its extension is ['webm'] or ['mkv'] and
    into MP4 otherwise; a format with both streams and an audio format are
    asked for as they are, with no container to merge into and no
    conversion. *)
Theorem ranked_entry_download_options
    (download_dir : string) (i : info_dict) (opts : list download_option)
    (o : download_option) (d : fmt_dict) :
  pipeline (Some i) = Some (Ok opts) ->
  In o opts ->
  opt_info o = Val d ->
  exists id,
    format_id d = Val id
    /\ ((opt_type o = "video" /\ type_ d = Val "video_only"
         /\ create_download_options download_dir o
            = Ok {| outtmpl := download_dir +:+ "/%(title)s.%(ext)s";
                    ignoreerrors := false;
                    ydl_format := Val (id +:+ "+bestaudio/best");
                    merge_output_format :=
                      Val (if mem_opt (get (ext d)) ["webm"; "mkv"]
                           then "mkv" else "mp4");
                    writeinfojson := Missing;
                    postprocessors := Missing |})
        \/ ((opt_type o = "video" /\ type_ d = Val "video+audio"
             \/ opt_type o = "audio" /\ type_ d = Val "audio")
            /\ create_download_options download_dir o
               = Ok {| outtmpl := download_dir +:+ "/%(title)s.%(ext)s";
                       ignoreerrors := false;
                       ydl_format := Val id;
                       merge_output_format := Missing;
                       writeinfojson := Missing;
                       postprocessors := Missing |})).
Proof.
  intros Hp Hin Hinfo.
  destruct (pipeline_entry_cases _ _ _ Hp Hin)
    as [[num Hf]|[(d' & id & Hr & Hid & Hty)|(d' & id & Hr & Hid & Hty)]].
  - unfold fixed_entries_at in Hf. simpl in Hf.
    destruct Hf as [<-|[<-|[<-|[<-|[<-|[<-|[<-|[]]]]]]]]; discriminate.
  - destruct Hr as [Ht Hi _ [_ Hfo] _].
    rewrite Hi in Hinfo. injection Hinfo as <-.
    exists id. split; [assumption|]. right.
    split; [right; now split|].
    unfold create_download_options. rewrite Ht, Hfo, Hid. reflexivity.
  - destruct Hr as [Ht Hi _ [_ Hfo] [_ Hex]].
    rewrite Hi in Hinfo. injection Hinfo as <-.
    exists id. split; [assumption|].
    unfold create_download_options, info_type.
    rewrite Ht, Hi, Hfo, Hex, Hid. simpl.
    destruct Hty as [Hty|Hty]; rewrite Hty; simpl.
    + right. split; [left; now split | reflexivity].
    + left. repeat split.
Qed.

Lemma ranked_entry_download_options_witness :
  exists id,
    format_id (nth 0 ex_video_formats empty_fmt) = Val id
    /\ ((opt_type (nth 8 ex_options (entry_3d 0)) = "video"
         /\ type_ (nth 0 ex_video_formats empty_fmt) = Val "video_only"
         /\ create_download_options "downloads"
              (nth 8 ex_options (entry_3d 0))
            = Ok {| outtmpl := "downloads" +:+ "/%(title)s.%(ext)s";
                    ignoreerrors := false;
                    ydl_format := Val (id +:+ "+bestaudio/best");
                    merge_output_format :=
                      Val (if mem_opt
                                (get (ext (nth 0 ex_video_formats empty_fmt)))
                                ["webm"; "mkv"]
                           then "mkv" else "mp4");
                    writeinfojson := Missing;
                    postprocessors := Missing |})
        \/ ((opt_type (nth 8 ex_options (entry_3d 0)) = "video"
             /\ type_ (nth 0 ex_video_formats empty_fmt) = Val "video+audio"
             \/ opt_type (nth 8 ex_options (entry_3d 0)) = "audio"
                /\ type_ (nth 0 ex_video_formats empty_fmt) = Val "audio")
            /\ create_download_options "downloads"
                 (nth 8 ex_options (entry_3d 0))
               = Ok {| outtmpl := "downloads" +:+ "/%(title)s.%(ext)s";
                       ignoreerrors := false;
                       ydl_format := Val id;
                       merge_output_format := Missing;
                       writeinfojson := Missing;
                       postprocessors := Missing |})).
Proof.
  apply (ranked_entry_download_options "downloads"
           {| title := Val "A VR clip"; description := Missing;
              formats := Val [ex_video_only; ex_audio; ex_muxed;
                              ex_video_only] |}
           ex_options).
  - reflexivity.
  - simpl. auto 12.
  - reflexivity.
Defined.

(** ** FormatAggregator: the four cases of the loop *)

Lemma bucket_loop_total (fmts : list fmt_dict) (i : info_dict) :
  Forall (fun fmt => ~ raising_descriptor i fmt) fmts ->
  forall vf af, exists v a, bucket_loop fmts (Some i) vf af = Ok (v, a).
Proof.
  intros Hok vf af.
  destruct (bucket_loop fmts (Some i) vf af) as [[v a]|e] eqn:Hb; [eauto|].
  assert (Exists (raising_descriptor i) fmts) as Hex.
  { apply (bucket_loop_raises fmts i vf af). eauto. }
  apply List.Exists_exists in Hex. destruct Hex as (fmt & Hin & Hr).
  rewrite List.Forall_forall in Hok. destruct (Hok fmt Hin Hr).
Qed.

(** A descriptor with both codecs ['none'] on which the detector returns
    adds nothing. *)
Lemma process_format_no_stream (fmt : fmt_dict) (i : info_dict) :
  ~ raising_descriptor i fmt -> no_stream fmt = true ->
  process_format fmt (Some i) = Ok ([], []).
Proof.
  intros Hok Hn.
  destruct (process_format fmt (Some i)) as [[v a]|e] eqn:Hp.
  - apply process_format_inv in Hp. unfold no_stream, is_none in Hn.
    apply andb_true_iff in Hn. destruct Hn as [Hv Ha].
    apply negb_true_iff in Hv, Ha.
    destruct Hp as [(H & _)|[(_ & H & _)|(_ & _ & -> & ->)]];
      [| |reflexivity].
    + unfold has_video in H. congruence.
    + unfold audio_only in H. rewrite Ha in H. discriminate.
  - contradiction Hok. apply process_format_raises. eauto.
Qed.

Lemma bucket_loop_skips (fmts : list fmt_dict) (i : info_dict) :
  Forall (fun fmt => ~ raising_descriptor i fmt) fmts ->
  forall vf af,
    bucket_loop (List.filter (fun fmt => negb (no_stream fmt)) fmts)
      (Some i) vf af
    = bucket_loop fmts (Some i) vf af.
Proof.
  induction 1 as [|fmt fmts Hok _ IH]; intros vf af; [reflexivity|].
  simpl. destruct (no_stream fmt) eqn:Hn; simpl.
  - rewrite (process_format_no_stream fmt i Hok Hn). simpl.
    now rewrite !app_nil_r.
  - destruct (process_format fmt (Some i)) as [[v a]|e]; simpl;
      [apply IH | reflexivity].
Qed.

Lemma raising_descriptor_formats (ttl desc : field string)
    (f1 f2 : field (list fmt_dict)) (fmt : fmt_dict) :
  raising_descriptor {| title := ttl; description := desc; formats := f1 |} fmt
  <-> raising_descriptor
        {| title := ttl; description := desc; formats := f2 |} fmt.
Proof. reflexivity. Qed.

Lemma detect_video_type_formats (ttl desc : field string)
    (f1 f2 : field (list fmt_dict)) (fmt : fmt_dict) :
  detect_video_type fmt
    (Some {| title := ttl; description := desc; formats := f1 |})
  = detect_video_type fmt
      (Some {| title := ttl; description := desc; formats := f2 |}).
Proof. reflexivity. Qed.

Lemma process_format_formats (ttl desc : field string)
    (f1 f2 : field (list fmt_dict)) (fmt : fmt_dict) :
  process_format fmt
    (Some {| title := ttl; description := desc; formats := f1 |})
  = process_format fmt
      (Some {| title := ttl; description := desc; formats := f2 |}).
Proof. reflexivity. Qed.

(** The loop reads the title and the description of the metadata only. *)
Lemma bucket_loop_formats (ttl desc : field string)
    (f1 f2 : field (list fmt_dict)) (fmts : list fmt_dict) :
  forall vf af,
    bucket_loop fmts
      (Some {| title := ttl; description := desc; formats := f1 |}) vf af
    = bucket_loop fmts
        (Some {| title := ttl; description := desc; formats := f2 |}) vf af.
Proof.
  induction fmts as [|fmt fmts IH]; intros vf af; [reflexivity|].
  simpl. rewrite (process_format_formats ttl desc f1 f2).
  destruct (process_format fmt _) as [[v a]|e]; simpl;
    [apply IH | reflexivity].
Qed.

(** What [get_video_info] returns when no iteration raises. *)
Lemma get_video_info_lists (ttl desc : field string) (fmts : list fmt_dict) :
  let i := {| title := ttl; description := desc; formats := Val fmts |} in
  Forall (fun fmt => ~ raising_descriptor i fmt) fmts ->
  exists video_formats audio_formats,
    get_video_info (Some i) = (Some i, video_formats, audio_formats)
    /\ bucket_loop fmts (Some i) [] [] = Ok (video_formats, audio_formats)
    /\ Forall2 (built_video (Some i)) (List.filter has_video fmts)
         video_formats
    /\ Forall2 (built_audio (Some i)) (List.filter audio_only fmts)
         audio_formats.
Proof.
  intros i Hok.
  destruct (bucket_loop_total fmts i Hok [] []) as (v & a & Hb).
  exists v, a. unfold get_video_info, get_video_info_body. simpl.
  fold i. rewrite Hb. simpl. split; [reflexivity|]. split; [reflexivity|].
  apply bucket_loop_spec in Hb. destruct Hb as (v' & a' & -> & -> & Hv & Ha).
  now split.
Qed.

Lemma codec_cases (fmt : fmt_dict) :
  (has_video fmt = true <-> vcodec fmt <> Val "none")
  /\ (audio_only fmt = true
      <-> acodec fmt <> Val "none" /\ vcodec fmt = Val "none")
  /\ (no_stream fmt = true
      <-> vcodec fmt = Val "none" /\ acodec fmt = Val "none").
Proof.
  unfold has_video, audio_only, no_stream, is_none.
  rewrite !andb_true_iff, !negb_true_iff, !not_none_get, !not_none_get_false.
  tauto.
Qed.

Lemma filter_length_cons {A : Type} (p : A -> bool) (pre post : list A)
    (x : A) :
  length (List.filter p (pre ++ x :: post))
  = (length (List.filter p (pre ++ post)) + if p x then 1 else 0)%nat.
Proof.
  rewrite !List.filter_app, !List.length_app. simpl.
  destruct (p x); simpl; lia.
Qed.

Lemma bucket_lengths (fmts : list fmt_dict) :
  (length (List.filter has_video fmts) + length (List.filter audio_only fmts)
   = length (List.filter (fun fmt => negb (no_stream fmt)) fmts))%nat.
Proof.
  induction fmts as [|fmt fmts IH]; [reflexivity|].
  simpl. unfold has_video, audio_only, no_stream, is_none in *.
  destruct (not_none (get (vcodec fmt))), (not_none (get (acodec fmt)));
    simpl; lia.
Qed.

(** C4, at the failing input and where no iteration raises. The detector
    runs at the top of every iteration, before the codec test, and raises
    on a text that is [None]: with a description that is [None], or on a
    descriptor with both codecs ['none'] whose note is [None], no
    descriptor is dropped silently and none is bucketed, [get_video_info]
    gives up the whole video. When no iteration raises, [get_video_info]
    returns the metadata and the two lists, and these are as the four
    cases say: [video_formats] holds, in the order of the descriptors, one
    dictionary for each descriptor whose video codec is not ['none'], of
    type ['video+audio'] when the audio codec is not ['none'] and of type
    ['video_only'] when it is; [audio_formats] holds one dictionary for
    each descriptor whose audio codec is not ['none'] and whose video
    codec is; a descriptor with both codecs ['none'] adds nothing: the two
    lists are those of the descriptors without it, and together they are
    as long as the list of the other descriptors. *)
Theorem get_video_info_buckets :
  get_video_info (ex_info_null_description [ex_muxed; ex_neither])
  = (None, [], [])
  /\ process_format ex_neither_null_note
       (ex_info "clip" [ex_muxed; ex_neither_null_note])
     = Raise AttributeError
  /\ get_video_info (ex_info "clip" [ex_muxed; ex_neither_null_note])
     = (None, [], [])
  /\ (exists d,
        get_video_info (ex_info "clip" [ex_muxed; ex_neither])
        = (ex_info "clip" [ex_muxed; ex_neither], [d], [])
        /\ type_ d = Val "video+audio" /\ format_id d = Val "22")
  /\ (forall (ttl desc : field string) (fmts : list fmt_dict),
        let i := {| title := ttl; description := desc;
                    formats := Val fmts |} in
        Forall (fun fmt => ~ raising_descriptor i fmt) fmts ->
        exists video_formats audio_formats,
          get_video_info (Some i) = (Some i, video_formats, audio_formats)
          /\ Forall2 (built_video (Some i)) (List.filter has_video fmts)
               video_formats
          /\ Forall2 (built_audio (Some i)) (List.filter audio_only fmts)
               audio_formats
          /\ (forall fmt,
                In fmt fmts ->
                vcodec fmt <> Val "none" -> acodec fmt <> Val "none" ->
                exists d, In d video_formats
                          /\ built_video (Some i) fmt d
                          /\ type_ d = Val "video+audio")
          /\ (forall fmt,
                In fmt fmts ->
                vcodec fmt <> Val "none" -> acodec fmt = Val "none" ->
                exists d, In d video_formats
                          /\ built_video (Some i) fmt d
                          /\ type_ d = Val "video_only")
          /\ (forall fmt,
                In fmt fmts ->
                acodec fmt <> Val "none" -> vcodec fmt = Val "none" ->
                exists d, In d audio_formats
                          /\ built_audio (Some i) fmt d
                          /\ type_ d = Val "audio")
          /\ (forall d,
                In d video_formats ->
                exists fmt, In fmt fmts /\ vcodec fmt <> Val "none"
                            /\ built_video (Some i) fmt d)
          /\ (forall d,
                In d audio_formats ->
                exists fmt, In fmt fmts /\ acodec fmt <> Val "none"
                            /\ vcodec fmt = Val "none"
                            /\ built_audio (Some i) fmt d)
          /\ (let others :=
                List.filter (fun fmt => negb (no_stream fmt)) fmts in
              let i' := {| title := ttl; description := desc;
                           formats := Val others |} in
              (forall fmt,
                 In fmt others
                 <-> In fmt fmts
                     /\ ~ (vcodec fmt = Val "none"
                           /\ acodec fmt = Val "none"))
              /\ get_video_info (Some i')
                 = (Some i', video_formats, audio_formats)
              /\ (length video_formats + length audio_formats
                  = length others)%nat)).
Proof.
  split; [reflexivity|]. split; [reflexivity|]. split; [reflexivity|].
  split; [eexists; split; [reflexivity|split; reflexivity]|].
  intros ttl desc fmts i Hok.
  destruct (get_video_info_lists ttl desc fmts Hok)
    as (v & a & Hg & Hb & Hv & Ha).
  exists v, a. split; [exact Hg|]. split; [exact Hv|]. split; [exact Ha|].
  split; [|split; [|split; [|split; [|split]]]].
  - intros fmt Hin Hvc Hac.
    destruct (Forall2_In_l _ _ _ fmt Hv) as (d & Hd & Hbd).
    { apply filter_In. split; [exact Hin|]. now apply codec_cases. }
    exists d. split; [exact Hd|]. split; [exact Hbd|].
    destruct Hbd as [_ _ Hty _ _ _ _ _ _ _ _ _].
    apply not_none_get in Hac. now rewrite Hac in Hty.
  - intros fmt Hin Hvc Hac.
    destruct (Forall2_In_l _ _ _ fmt Hv) as (d & Hd & Hbd).
    { apply filter_In. split; [exact Hin|]. now apply codec_cases. }
    exists d. split; [exact Hd|]. split; [exact Hbd|].
    destruct Hbd as [_ _ Hty _ _ _ _ _ _ _ _ _].
    apply not_none_get_false in Hac. now rewrite Hac in Hty.
  - intros fmt Hin Hac Hvc.
    destruct (Forall2_In_l _ _ _ fmt Ha) as (d & Hd & Hbd).
    { apply filter_In. split; [exact Hin|]. now apply codec_cases. }
    exists d. split; [exact Hd|]. split; [exact Hbd|]. now destruct Hbd.
  - intros d Hd.
    destruct (Forall2_In_r _ _ _ d Hv Hd) as (fmt & Hin & Hbd).
    apply filter_In in Hin. destruct Hin as [Hin Hp].
    exists fmt. split; [exact Hin|]. split; [now apply codec_cases|exact Hbd].
  - intros d Hd.
    destruct (Forall2_In_r _ _ _ d Ha Hd) as (fmt & Hin & Hbd).
    apply filter_In in Hin. destruct Hin as [Hin Hp].
    apply codec_cases in Hp. destruct Hp as [Hac Hvc].
    exists fmt. split; [exact Hin|]. split; [exact Hac|].
    split; [exact Hvc|exact Hbd].
  - cbv zeta. split; [|split].
    + intros fmt. rewrite filter_In, negb_true_iff.
      rewrite <- not_true_iff_false.
      pose proof (codec_cases fmt) as (_ & _ & Hn). rewrite Hn. reflexivity.
    + unfold get_video_info, get_video_info_body. simpl.
      rewrite (bucket_loop_formats ttl desc _ (Val fmts)).
      fold i. rewrite (bucket_loop_skips fmts i Hok). unfold i.
      rewrite Hb. reflexivity.
    + rewrite <- bucket_lengths.
      apply Forall2_length in Hv, Ha. now rewrite Hv, Ha.
Qed.

Lemma not_none_missing (c : field string) :
  get c = None -> not_none (get c) = true.
Proof. intros ->. reflexivity. Qed.

(** C9, at the failing input and where no iteration raises. A codec field
    that is missing (no key, or the value [None]) is not the sentinel
    ['none'], so the stream counts as present. The descriptor of an HLS
    manifest has no audio codec and the video codec [None], but its note
    is [None] too: the detector raises before the codec test and the
    descriptor is not placed in [video_formats], the video is given up;
    the same for a descriptor without the two codec keys when the
    description is [None]. When no iteration raises: a descriptor without
    a video codec has a dictionary in [video_formats], of type
    ['video+audio'] when the audio codec is missing too or is not
    ['none'], of type ['video_only'] when it is ['none']; a descriptor
    without an audio codec whose video codec is ['none'] has a dictionary
    in [audio_formats]; and taking one descriptor out of the list leaves
    the two lists as they are exactly when both its codec fields are the
    string ['none']. *)
Theorem missing_codec_counts_as_present :
  get (vcodec ex_hls) = None /\ get (acodec ex_hls) = None
  /\ process_format ex_hls (ex_info "clip" [ex_hls]) = Raise AttributeError
  /\ get_video_info (ex_info "clip" [ex_hls]) = (None, [], [])
  /\ get_video_info (ex_info_null_description [ex_no_codecs])
     = (None, [], [])
  /\ (exists d,
        get_video_info (ex_info "clip" [ex_no_codecs])
        = (ex_info "clip" [ex_no_codecs], [d], [])
        /\ type_ d = Val "video+audio" /\ format_id d = Val "0")
  /\ (forall (ttl desc : field string) (fmts : list fmt_dict),
        let i := {| title := ttl; description := desc;
                    formats := Val fmts |} in
        Forall (fun fmt => ~ raising_descriptor i fmt) fmts ->
        exists video_formats audio_formats,
          get_video_info (Some i) = (Some i, video_formats, audio_formats)
          /\ (forall fmt,
                In fmt fmts ->
                get (vcodec fmt) = None -> get (acodec fmt) = None ->
                exists d, In d video_formats
                          /\ built_video (Some i) fmt d
                          /\ type_ d = Val "video+audio")
          /\ (forall fmt,
                In fmt fmts ->
                get (vcodec fmt) = None -> acodec fmt <> Val "none" ->
                exists d, In d video_formats
                          /\ built_video (Some i) fmt d
                          /\ type_ d = Val "video+audio")
          /\ (forall fmt,
                In fmt fmts ->
                get (vcodec fmt) = None -> acodec fmt = Val "none" ->
                exists d, In d video_formats
                          /\ built_video (Some i) fmt d
                          /\ type_ d = Val "video_only")
          /\ (forall fmt,
                In fmt fmts ->
                get (acodec fmt) = None -> vcodec fmt <> Val "none" ->
                exists d, In d video_formats
                          /\ built_video (Some i) fmt d
                          /\ type_ d = Val "video+audio")
          /\ (forall fmt,
                In fmt fmts ->
                get (acodec fmt) = None -> vcodec fmt = Val "none" ->
                exists d, In d audio_formats
                          /\ built_audio (Some i) fmt d
                          /\ type_ d = Val "audio")
          /\ (forall pre fmt post,
                fmts = (pre ++ fmt :: post)%list ->
                let i' := {| title := ttl; description := desc;
                             formats := Val (pre ++ post)%list |} in
                exists video_formats' audio_formats',
                  get_video_info (Some i')
                  = (Some i', video_formats', audio_formats')
                  /\ (video_formats' = video_formats
                      /\ audio_formats' = audio_formats
                      <-> vcodec fmt = Val "none"
                          /\ acodec fmt = Val "none"))).
Proof.
  split; [reflexivity|]. split; [reflexivity|]. split; [reflexivity|].
  split; [reflexivity|]. split; [reflexivity|].
  split; [eexists; split; [reflexivity|split; reflexivity]|].
  intros ttl desc fmts i Hok.
  destruct (get_video_info_lists ttl desc fmts Hok)
    as (v & a & Hg & Hb & Hv & Ha).
  exists v, a. split; [exact Hg|].
  assert (forall fmt,
            In fmt fmts -> not_none (get (vcodec fmt)) = true ->
            exists d, In d v /\ built_video (Some i) fmt d
                      /\ type_ d
                         = Val (if not_none (get (acodec fmt))
                                then "video+audio" else "video_only"))
    as Hvideo.
  { intros fmt Hin Hvc.
    destruct (Forall2_In_l _ _ _ fmt Hv) as (d & Hd & Hbd).
    { apply filter_In. now split. }
    exists d. split; [exact Hd|]. split; [exact Hbd|]. now destruct Hbd. }
  split; [|split; [|split; [|split; [|split]]]].
  - intros fmt Hin Hvc Hac.
    destruct (Hvideo fmt Hin (not_none_missing _ Hvc)) as (d & Hd & Hbd & Hty).
    rewrite (not_none_missing _ Hac) in Hty. eauto.
  - intros fmt Hin Hvc Hac.
    destruct (Hvideo fmt Hin (not_none_missing _ Hvc)) as (d & Hd & Hbd & Hty).
    apply not_none_get in Hac. rewrite Hac in Hty. eauto.
  - intros fmt Hin Hvc Hac.
    destruct (Hvideo fmt Hin (not_none_missing _ Hvc)) as (d & Hd & Hbd & Hty).
    apply not_none_get_false in Hac. rewrite Hac in Hty. eauto.
  - intros fmt Hin Hac Hvc. apply not_none_get in Hvc.
    destruct (Hvideo fmt Hin Hvc) as (d & Hd & Hbd & Hty).
    rewrite (not_none_missing _ Hac) in Hty. eauto.
  - intros fmt Hin Hac Hvc.
    destruct (Forall2_In_l _ _ _ fmt Ha) as (d & Hd & Hbd).
    { apply filter_In. split; [exact Hin|]. apply codec_cases.
      split; [|exact Hvc]. apply not_none_get.
      now apply not_none_missing. }
    exists d. split; [exact Hd|]. split; [exact Hbd|]. now destruct Hbd.
  - intros pre fmt post Hsplit i'.
    assert (Forall (fun fmt => ~ raising_descriptor i' fmt) (pre ++ post))
      as Hok'.
    { rewrite Hsplit in Hok. apply Forall_app in Hok.
      destruct Hok as [Hpre Hpost]. apply Forall_cons_1 in Hpost.
      destruct Hpost as [_ Hpost]. apply Forall_app. split.
      - eapply List.Forall_impl; [|exact Hpre]. intros x Hx. exact Hx.
      - eapply List.Forall_impl; [|exact Hpost]. intros x Hx. exact Hx. }
    destruct (get_video_info_lists ttl desc (pre ++ post) Hok')
      as (v' & a' & Hg' & Hb' & Hv' & Ha').
    exists v', a'. split; [exact Hg'|].
    apply Forall2_length in Hv, Ha, Hv', Ha'.
    rewrite Hsplit, filter_length_cons in Hv, Ha.
    pose proof (codec_cases fmt) as (Hhv & Hao & Hns).
    split.
    + intros [-> ->]. apply Hns.
      unfold no_stream, has_video, audio_only, is_none in *.
      destruct (not_none (get (vcodec fmt))),
        (not_none (get (acodec fmt))); simpl in *; try reflexivity; lia.
    + intros Hboth. apply Hns in Hboth.
      assert (List.filter (fun fmt => negb (no_stream fmt)) fmts
              = List.filter (fun fmt => negb (no_stream fmt)) (pre ++ post))
        as Hsame.
      { rewrite Hsplit, !List.filter_app. simpl. now rewrite Hboth. }
      assert (bucket_loop fmts (Some i) [] []
              = bucket_loop (pre ++ post) (Some i') [] []) as Heq.
      { rewrite <- (bucket_loop_skips fmts i Hok),
          <- (bucket_loop_skips (pre ++ post) i' Hok'), Hsame.
        apply bucket_loop_formats. }
      unfold i, i' in Heq. rewrite Hb, Hb' in Heq.
      injection Heq as -> ->. now split.
Qed.

(** ** The choice prompt and the selection *)

Lemma get_user_choice_bounds (strip : string -> string)
    (int : string -> option Z) (max_options : Z)
    (inputs : list input_event) :
  forall n rest,
    get_user_choice strip int max_options inputs = (Returned n, rest) ->
    n = 0 \/ 1 <= n <= max_options.
Proof.
  induction inputs as [|[s|] inputs IH]; intros n rest; simpl;
    [discriminate | | discriminate].
  destruct (String.eqb (strip s) ""); [apply IH|].
  destruct (int (strip s)) as [k|]; [|apply IH].
  destruct (Z.eqb_spec k 0) as [->|Hk0].
  { intros H. injection H as <- _. now left. }
  destruct (Z.leb_spec 1 k) as [H1|H1],
    (Z.leb_spec k max_options) as [H2|H2]; simpl; try apply IH.
  intros H. injection H as <- _. right. lia.
Qed.

(** X13. When [get_user_choice] returns, the number is 0 or lies between 1
    and [max_options]: it is the number on the first line that is not
    rejected, a line being rejected when it is empty after stripping, is no
    number, or is a number out of range; the lines after it are not
    read. *)
Theorem get_user_choice_in_range
    (strip : string -> string) (int : string -> option Z)
    (max_options : Z) (inputs : list input_event) (n : Z)
    (rest : list input_event) :
  get_user_choice strip int max_options inputs = (Returned n, rest) ->
  (n = 0 \/ 1 <= n <= max_options)
  /\ exists asked s,
       inputs = (map Line asked ++ Line s :: rest)%list
       /\ strip s <> ""
       /\ int (strip s) = Some n
       /\ Forall (rejected strip int max_options) asked.
Proof.
  intros Hret. split; [eapply get_user_choice_bounds; eassumption|].
  revert Hret.
  induction inputs as [|[s|] inputs IH]; simpl;
    [discriminate | | discriminate].
  assert (rejected strip int max_options s ->
          get_user_choice strip int max_options inputs = (Returned n, rest) ->
          exists asked s0,
            Line s :: inputs = (map Line asked ++ Line s0 :: rest)%list
            /\ strip s0 <> ""
            /\ int (strip s0) = Some n
            /\ Forall (rejected strip int max_options) asked) as Hrec.
  { intros Hrej H. destruct (IH H) as (asked & s0 & -> & Hs1 & Hs2 & Hs3).
    exists (s :: asked), s0.
    split; [reflexivity|]. split; [assumption|]. split; [assumption|].
    now constructor. }
  destruct (String.eqb_spec (strip s) "") as [He|Hne].
  { apply Hrec. now left. }
  destruct (int (strip s)) as [k|] eqn:Hk.
  2:{ apply Hrec. right. now left. }
  destruct (Z.eqb_spec k 0) as [->|Hk0].
  { intros H. injection H as <- <-.
    exists [], s. split; [reflexivity|]. split; [assumption|].
    split; [assumption | constructor]. }
  destruct (Z.leb_spec 1 k) as [H1|H1],
    (Z.leb_spec k max_options) as [H2|H2]; simpl;
    try (apply Hrec; right; right; exists k;
         split; [assumption|]; split; [assumption | lia]).
  intros H. injection H as <- <-.
  exists [], s. split; [reflexivity|]. split; [assumption|].
  split; [assumption | constructor].
Qed.

(** An empty line, a word and a number out of range are asked again. *)
Lemma get_user_choice_in_range_witness :
  (9 = 0 \/ 1 <= 9 <= 10)
  /\ exists asked s,
       [Line ""; Line "abc"; Line "42"; Line "9"; Line "3"]
       = (map Line asked ++ Line s :: [Line "3"])%list
       /\ (fun x : string => x) s <> ""
       /\ int_of_digits ((fun x : string => x) s) = Some 9
       /\ Forall (rejected (fun x => x) int_of_digits 10) asked.
Proof.
  apply (get_user_choice_in_range (fun x => x) int_of_digits 10
           [Line ""; Line "abc"; Line "42"; Line "9"; Line "3"]).
  reflexivity.
Defined.

Lemma nth_error_numbered (opts : list download_option) (k : nat)
    (o : download_option) :
  map opt_num opts = map Z.of_nat (seq 1 (length opts)) ->
  nth_error opts k = Some o -> opt_num o = Z.of_nat (S k).
Proof.
  intros Hn Ho.
  assert (nth_error (map opt_num opts) k = Some (opt_num o)) as H1.
  { now rewrite nth_error_map, Ho. }
  rewrite Hn, nth_error_map in H1.
  assert (k < length opts)%nat as Hlt.
  { apply nth_error_Some. congruence. }
  rewrite nth_error_nth' with (d := 0%nat) in H1
    by now rewrite length_seq.
  rewrite seq_nth in H1 by assumption.
  simpl in H1. now injection H1 as <-.
Qed.

(** X14. The number shown next to an entry is the number that selects it.
    For the option list of [display_format_options] and a choice other
    than 0 that [get_user_choice] returned for the length of the list, the
    subscript [options[choice - 1]] of [run] is in range, it does not wrap
    around to the end of the list, and the entry it gives carries the
    chosen number. *)
Theorem selected_option_in_range
    (strip : string -> string) (int : string -> option Z)
    (video_formats audio_formats : list fmt_dict) (info : option info_dict)
    (opts : list download_option) (inputs : list input_event) (choice : Z)
    (rest : list input_event) :
  display_format_options video_formats audio_formats info = Ok opts ->
  get_user_choice strip int (Z.of_nat (length opts)) inputs
  = (Returned choice, rest) ->
  choice <> 0 ->
  0 <= choice - 1
  /\ exists selected_option,
       py_index opts (choice - 1) = Some selected_option
       /\ opt_num selected_option = choice.
Proof.
  intros Hd Hc Hne. apply get_user_choice_bounds in Hc.
  destruct Hc as [->|Hr]; [contradiction|].
  apply display_shape in Hd.
  destruct Hd as (b & ttl & desc & audio & video & keys
                  & _ & _ & _ & _ & Hnum & _).
  split; [lia|]. unfold py_index.
  destruct (Z.leb_spec 0 (choice - 1)); [|lia].
  destruct (Z.ltb_spec (choice - 1) (Z.of_nat (length opts))); [|lia].
  simpl.
  destruct (nth_error opts (Z.to_nat (choice - 1))) as [o|] eqn:Ho.
  - exists o. split; [reflexivity|].
    rewrite (nth_error_numbered _ _ _ Hnum Ho). lia.
  - apply nth_error_None in Ho. lia.
Qed.

Lemma selected_option_in_range_witness :
  0 <= 9 - 1
  /\ exists selected_option,
       py_index ex_options (9 - 1) = Some selected_option
       /\ opt_num selected_option = 9.
Proof.
  apply (selected_option_in_range (fun x => x) int_of_digits
           ex_video_formats ex_audio_formats ex_vr_info ex_options
           [Line "11"; Line "9"] 9 []).
  - reflexivity.
  - reflexivity.
  - discriminate.
Defined.

(** ** [format_duration] *)

Lemma length_sapp (a b : string) :
  String.length (a +:+ b) = (String.length a + String.length b)%nat.
Proof.
  induction a as [|c a IH]; [now rewrite sapp_nil_l|].
  rewrite sapp_cons. simpl. now rewrite IH.
Qed.

(** Two texts that end in tails of one length. *)
Lemma sapp_tail_inj (a1 a2 t1 t2 : string) :
  a1 +:+ t1 = a2 +:+ t2 -> String.length t1 = String.length t2 ->
  a1 = a2 /\ t1 = t2.
Proof.
  revert a2. induction a1 as [|c a1 IH]; intros [|c' a2] Heq Hlen;
    rewrite ?sapp_nil_l, ?sapp_cons in Heq.
  - auto.
  - apply (f_equal String.length) in Heq. simpl in Heq.
    rewrite length_sapp in Heq. lia.
  - apply (f_equal String.length) in Heq. simpl in Heq.
    rewrite length_sapp in Heq. lia.
  - injection Heq as -> Heq. destruct (IH a2 Heq Hlen) as [-> ->]. auto.
Qed.

(** The decimal text of a positive number does not start with a zero. *)
Lemma pretty_N_go_first (x : N) :
  (0 < x)%N ->
  forall s, exists c rest,
    pretty_N_go x s = String c rest /\ c <> "0"%char.
Proof.
  induction (N.lt_wf_0 x) as [x _ IH]. intros Hx s.
  rewrite pretty_N_go_step by assumption.
  destruct (N.eq_dec (x / 10)%N 0%N) as [Hz|Hnz].
  - rewrite Hz, pretty_N_go_0. do 2 eexists. split; [reflexivity|].
    assert (x < 10)%N as Hlt by (apply N.div_small_iff in Hz; lia).
    rewrite N.mod_small by assumption.
    assert (x = 1 \/ x = 2 \/ x = 3 \/ x = 4 \/ x = 5 \/ x = 6
            \/ x = 7 \/ x = 8 \/ x = 9)%N as Hc by lia.
    repeat (destruct Hc as [->|Hc]; [discriminate|]). now subst.
  - apply IH.
    + apply N.div_lt; lia.
    + destruct (N.eq_dec (x / 10)%N 0%N); [contradiction|].
      apply N.neq_0_lt_0. assumption.
Qed.

Lemma pretty_pos_first (n : Z) :
  0 < n -> exists c rest, pretty n = String c rest /\ c <> "0"%char.
Proof.
  destruct n as [|p|p]; [lia | | lia]. intros _.
  change (pretty (Z.pos p)) with (pretty (N.pos p)).
  unfold pretty, pretty_N. destruct (decide (N.pos p = 0%N)); [discriminate|].
  apply pretty_N_go_first. lia.
Qed.

Lemma pad2_inj (n1 n2 : Z) :
  0 <= n1 -> 0 <= n2 -> pad2 n1 = pad2 n2 -> n1 = n2.
Proof.
  unfold pad2. intros H1 H2.
  destruct (Z.leb_spec 0 n1); [|lia]. destruct (Z.leb_spec 0 n2); [|lia].
  destruct (Z.ltb_spec n1 10), (Z.ltb_spec n2 10); simpl;
    rewrite ?sapp_cons, ?sapp_nil_l; intros Heq.
  - injection Heq as Heq. now apply (inj pretty).
  - destruct (pretty_pos_first n2) as (c & rest & Hp & Hc); [lia|].
    rewrite Hp in Heq. injection Heq as <- _. now contradiction Hc.
  - destruct (pretty_pos_first n1) as (c & rest & Hp & Hc); [lia|].
    rewrite Hp in Heq. injection Heq as -> _. now contradiction Hc.
  - now apply (inj pretty).
Qed.

Lemma pad2_length (n : Z) : 0 <= n < 60 -> String.length (pad2 n) = 2%nat.
Proof.
  intros Hn.
  assert (forallb
            (fun k => Nat.eqb (String.length (pad2 (Z.of_nat k))) 2)
            (seq 0 60) = true) as Hall by (vm_compute; reflexivity).
  rewrite forallb_forall in Hall.
  specialize (Hall (Z.to_nat n)). rewrite Z2Nat.id in Hall by lia.
  apply Nat.eqb_eq, Hall, in_seq. lia.
Qed.

(** The clock text of minutes and seconds, and of hours, minutes and
    seconds. *)
Lemma clock2_inj (m1 s1 m2 s2 : Z) :
  0 <= m1 < 60 -> 0 <= s1 < 60 -> 0 <= m2 < 60 -> 0 <= s2 < 60 ->
  pad2 m1 +:+ ":" +:+ pad2 s1 = pad2 m2 +:+ ":" +:+ pad2 s2 ->
  m1 = m2 /\ s1 = s2.
Proof.
  intros Hm1 Hs1 Hm2 Hs2 Heq. apply sapp_tail_inj in Heq.
  - destruct Heq as [Hm Hs]. rewrite !sapp_cons, !sapp_nil_l in Hs.
    injection Hs as Hs. split; apply pad2_inj; (lia || assumption).
  - rewrite !length_sapp, !pad2_length by assumption. reflexivity.
Qed.

Lemma clock2_length (m s : Z) :
  0 <= m < 60 -> 0 <= s < 60 ->
  String.length (pad2 m +:+ ":" +:+ pad2 s) = 5%nat.
Proof.
  intros Hm Hs. rewrite !length_sapp, !pad2_length by assumption.
  reflexivity.
Qed.

Lemma clock3_inj (h1 m1 s1 h2 m2 s2 : Z) :
  0 <= h1 -> 0 <= h2 ->
  0 <= m1 < 60 -> 0 <= s1 < 60 -> 0 <= m2 < 60 -> 0 <= s2 < 60 ->
  pad2 h1 +:+ ":" +:+ pad2 m1 +:+ ":" +:+ pad2 s1
  = pad2 h2 +:+ ":" +:+ pad2 m2 +:+ ":" +:+ pad2 s2 ->
  h1 = h2 /\ m1 = m2 /\ s1 = s2.
Proof.
  intros Hh1 Hh2 Hm1 Hs1 Hm2 Hs2 Heq. apply sapp_tail_inj in Heq.
  - destruct Heq as [Hh Ht]. rewrite !(sapp_cons ":"), !sapp_nil_l in Ht.
    injection Ht as Ht. apply clock2_inj in Ht; try assumption.
    split; [now apply pad2_inj | assumption].
  - rewrite !(length_sapp ":"), !clock2_length by assumption. reflexivity.
Qed.

Lemma duration_parts (s : Z) :
  0 <= (s mod 3600) / 60 < 60 /\ 0 <= s mod 60 < 60
  /\ s = 3600 * (s / 3600) + 60 * ((s mod 3600) / 60) + s mod 60.
Proof.
  pose proof (Z.mod_pos_bound s 3600 ltac:(lia)) as H1.
  pose proof (Z.mod_pos_bound s 60 ltac:(lia)) as H2.
  pose proof (Z.div_mod s 3600 ltac:(lia)) as H3.
  pose proof (Z.div_mod (s mod 3600) 60 ltac:(lia)) as H4.
  assert ((s mod 3600) mod 60 = s mod 60) as H5.
  { apply Z.mod_mod_divide. exists 60. reflexivity. }
  rewrite H5 in H4.
  assert (0 <= (s mod 3600) / 60 < 60) as H6.
  { split; [apply Z.div_pos; lia | apply Z.div_lt_upper_bound; lia]. }
  lia.
Qed.

(** X15. [format_duration] gives ["Unknown"] for no duration and for 0
    seconds. For any other whole number of seconds it gives a clock text:
    minutes and seconds, each at least two digits wide, preceded by the
    hours when the duration is an hour or more; the three numbers are the
    duration split at 3600 and 60, minutes and seconds below 60. A
    negative duration is shown without its hours and without a sign. *)
Theorem format_duration_clock (s : Z) :
  format_duration None = "Unknown"
  /\ format_duration (Some 0) = "Unknown"
  /\ (s <> 0 ->
      exists hours minutes seconds,
        s = 3600 * hours + 60 * minutes + seconds
        /\ 0 <= minutes < 60 /\ 0 <= seconds < 60
        /\ (0 < hours <-> 3600 <= s)
        /\ format_duration (Some s)
           = if 0 <? hours
             then pad2 hours +:+ ":" +:+ pad2 minutes +:+ ":" +:+ pad2 seconds
             else pad2 minutes +:+ ":" +:+ pad2 seconds).
Proof.
  split; [reflexivity|]. split; [reflexivity|]. intros Hs.
  exists (s / 3600), ((s mod 3600) / 60), (s mod 60).
  destruct (duration_parts s) as (Hm & Hsec & Hsum).
  split; [exact Hsum|]. split; [exact Hm|]. split; [exact Hsec|]. split.
  - split; intros H.
    + lia.
    + apply Z.div_str_pos. lia.
  - unfold format_duration. simpl.
    destruct (Z.eqb_spec s 0); [contradiction|]. reflexivity.
Qed.

(** X16. Two different positive durations never get the same text from
    [format_duration]. *)
Theorem format_duration_injective (s1 s2 : Z) :
  0 < s1 -> 0 < s2 -> s1 <> s2 ->
  format_duration (Some s1) <> format_duration (Some s2).
Proof.
  intros H1 H2 Hne Heq. apply Hne. revert Heq.
  unfold format_duration. simpl.
  destruct (Z.eqb_spec s1 0); [lia|]. destruct (Z.eqb_spec s2 0); [lia|].
  simpl.
  destruct (duration_parts s1) as (Hm1 & Hsec1 & Hsum1).
  destruct (duration_parts s2) as (Hm2 & Hsec2 & Hsum2).
  assert (0 <= s1 / 3600) as Hh1 by (apply Z.div_pos; lia).
  assert (0 <= s2 / 3600) as Hh2 by (apply Z.div_pos; lia).
  destruct (Z.ltb_spec 0 (s1 / 3600)) as [Hp1|Hp1],
    (Z.ltb_spec 0 (s2 / 3600)) as [Hp2|Hp2]; intros Heq.
  - apply clock3_inj in Heq; try assumption. lia.
  - apply (f_equal String.length) in Heq.
    rewrite (length_sapp (pad2 (s1 / 3600))), (length_sapp ":") in Heq.
    rewrite !clock2_length in Heq by assumption. simpl in Heq. lia.
  - apply (f_equal String.length) in Heq.
    rewrite (length_sapp (pad2 (s2 / 3600))), (length_sapp ":") in Heq.
    rewrite !clock2_length in Heq by assumption. simpl in Heq. lia.
  - apply clock2_inj in Heq; try assumption. lia.
Qed.

(** One hour, one minute and one second; and an hour more. *)
Lemma format_duration_injective_witness :
  format_duration (Some 3661) <> format_duration (Some 7261).
Proof. apply (format_duration_injective 3661 7261); lia. Defined.

(** ** The two functions together *)

Lemma store_present {A : Type} (v : option A) : store v <> Missing.
Proof. destruct v; discriminate. Qed.

Lemma video_key_null_vcodec (d : fmt_dict) (k : string) :
  vcodec d = Null -> video_key d <> Ok k.
Proof.
  intros Hv. unfold video_key. rewrite Hv.
  destruct (get_default (video_types d) []); simpl; [|discriminate].
  destruct (subscript (ext d)); simpl; discriminate.
Qed.

(** X17. A video codec that holds [None] on any descriptor of the video
    keeps the whole option list from being built, wherever the descriptor
    stands in the list and even if its entry would have been a duplicate
    or beyond the twenty shown: [get_video_info] files the descriptor
    under the video formats with the codec [None], and
    [display_format_options] slices the codec of every video format for
    its dedup key before it decides whether to show it. *)
Theorem null_vcodec_fails_menu
    (i : info_dict) (fmts : list fmt_dict) (fmt : fmt_dict)
    (opts : list download_option) :
  formats i = Val fmts -> In fmt fmts -> vcodec fmt = Null ->
  pipeline (Some i) <> Some (Ok opts).
Proof.
  intros Hf Hin Hv Hp. apply pipeline_inv in Hp.
  destruct Hp as (vfs & afs & Hg & Hd).
  apply get_video_info_inv in Hg. destruct Hg as (_ & fmts' & Hf' & Hb).
  rewrite Hf in Hf'. injection Hf' as <-.
  apply bucket_loop_spec in Hb.
  destruct Hb as (v' & a' & -> & -> & Hbv & _). simpl in Hd.
  assert (In fmt (List.filter has_video fmts)) as Hfv.
  { apply filter_In. split; [assumption|].
    unfold has_video. now rewrite Hv. }
  destruct (Forall2_In_l _ _ _ _ Hbv Hfv) as (d & Hdv & Hbd).
  apply display_shape in Hd.
  destruct Hd as (b & ttl & desc & audio & video & keys
                  & _ & _ & _ & _ & _ & Hk & _).
  assert (In d (sort_video v')) as Hs.
  { eapply Permutation_in; [apply sort_video_perm | exact Hdv]. }
  destruct (map_result_In _ _ _ _ Hk Hs) as (k & Hkd & _).
  apply (video_key_null_vcodec d k); [|exact Hkd].
  rewrite (bv_vcodec _ _ _ Hbd), Hv. reflexivity.
Qed.

(** A descriptor as an HLS manifest gives it, with a note, after a good
    one. *)
Lemma null_vcodec_fails_menu_witness :
  pipeline (ex_info "clip" [ex_muxed; ex_null_vcodec]) <> Some (Ok []).
Proof.
  apply (null_vcodec_fails_menu
           {| title := Val "clip"; description := Missing;
              formats := Val [ex_muxed; ex_null_vcodec] |}
           [ex_muxed; ex_null_vcodec] ex_null_vcodec []).
  - reflexivity.
  - simpl. auto.
  - reflexivity.
Defined.

(** X18. The fallbacks that [display_format_options] and
    [get_enhanced_resolution_info] write for a missing key never apply to
    a dictionary built by [get_video_info]: a video dictionary always has
    the keys ['resolution'], ['height'], ['fps'], ['vcodec'],
    ['video_types'] and ['format_note'], an audio dictionary the keys
    ['abr'] and ['acodec'], if only with the value [None]. So a format
    without a height reads [None] in the dedup key, not 0, and the text
    ['Unknown resolution'] is never taken from the fallback. *)
Theorem display_fallbacks_dead
    (i i' : info_dict) (video_formats audio_formats : list fmt_dict) :
  get_video_info (Some i) = (Some i', video_formats, audio_formats) ->
  Forall
    (fun d =>
       (forall default, get_default (height d) default = get (height d))
       /\ (forall default, get_default (fps d) default = get (fps d))
       /\ (forall default, get_default (vcodec d) default = get (vcodec d))
       /\ (forall default,
             get_default (video_types d) default = get (video_types d))
       /\ (forall default,
             get_default (format_note d) default = get (format_note d))
       /\ (forall default,
             get_default (resolution d) default = get (resolution d)))
    video_formats
  /\ Forall
       (fun d =>
          (forall default, get_default (abr d) default = get (abr d))
          /\ (forall default, get_default (acodec d) default = get (acodec d)))
       audio_formats.
Proof.
  intros H. apply get_video_info_inv in H.
  destruct H as (_ & fmts & _ & Hb).
  apply bucket_loop_spec in Hb.
  destruct Hb as (v' & a' & -> & -> & Hv & Ha). simpl.
  assert (forall (A : Type) (f : field A),
            f <> Missing -> forall default, get_default f default = get f)
    as Hdef.
  { intros A f Hf default. destruct f; [contradiction | |]; reflexivity. }
  split.
  - clear Ha. induction Hv as [|f d fs ds Hd _ IH]; constructor; [|exact IH].
    destruct Hd as [_ _ _ [vts [_ Hvt]] Hh _ Hfps _ Hvc _ Hn Hr].
    repeat split; apply Hdef;
      rewrite ?Hh, ?Hfps, ?Hvc, ?Hvt, ?Hn, ?Hr;
      first [apply store_present | discriminate].
  - clear Hv. induction Ha as [|f d fs ds Hd _ IH]; constructor; [|exact IH].
    destruct Hd as [_ _ _ _ Habr Hac _].
    repeat split; apply Hdef; rewrite ?Habr, ?Hac; apply store_present.
Qed.

Lemma display_fallbacks_dead_witness :
  Forall
    (fun d =>
       (forall default, get_default (height d) default = get (height d))
       /\ (forall default, get_default (fps d) default = get (fps d))
       /\ (forall default, get_default (vcodec d) default = get (vcodec d))
       /\ (forall default,
             get_default (video_types d) default = get (video_types d))
       /\ (forall default,
             get_default (format_note d) default = get (format_note d))
       /\ (forall default,
             get_default (resolution d) default = get (resolution d)))
    ex_video_formats
  /\ Forall
       (fun d =>
          (forall default, get_default (abr d) default = get (abr d))
          /\ (forall default, get_default (acodec d) default = get (acodec d)))
       ex_audio_formats.
Proof.
  apply (display_fallbacks_dead
           {| title := Val "A VR clip"; description := Missing;
              formats := Val [ex_video_only; ex_audio; ex_muxed;
                              ex_video_only] |}
           {| title := Val "A VR clip"; description := Missing;
              formats := Val [ex_video_only; ex_audio; ex_muxed;
                              ex_video_only] |}).
  reflexivity.
Defined.

(** ** What a video line shows *)

Lemma detect_video_type_known (fmt : fmt_dict) (info : option info_dict)
    (out : list string) (t : string) :
  detect_video_type fmt info = Ok out -> In t out -> In t all_tags.
Proof.
  unfold detect_video_type.
  destruct (detect_texts fmt info) as [[[[note fid] ttl] desc]|];
    simpl; [|discriminate].
  intros H Hin. injection H as <-. apply combine_In in Hin.
  destruct Hin as [Hin| ->]; [now apply scan_tags_known in Hin|].
  simpl. auto 12.
Qed.

(** X19. Of the tags the detector returns, ['Anaglyph-3D'] is the only one
    without a badge of its own: the video line shows it with the generic
    badge of the last branch, every other tag with the badge of its
    branch. *)
Theorem special_tag_generic_badge
    (fmt : fmt_dict) (info : option info_dict) (out : list string)
    (t : string) :
  detect_video_type fmt info = Ok out -> In t out ->
  (special_tag t = "🎯" +:+ t <-> t = "Anaglyph-3D").
Proof.
  intros Hd Hin. pose proof (detect_video_type_known _ _ _ _ Hd Hin) as Hk.
  unfold all_tags in Hk. simpl in Hk.
  repeat (destruct Hk as [<-|Hk];
          [split; intros H; first [reflexivity | discriminate]|]).
  contradiction.
Qed.

Lemma special_tag_generic_badge_witness :
  special_tag "Anaglyph-3D" = "🎯" +:+ "Anaglyph-3D"
  <-> "Anaglyph-3D" = "Anaglyph-3D".
Proof.
  apply (special_tag_generic_badge empty_fmt
           (ex_info "Anaglyph glasses test" []) ["Anaglyph-3D"]).
  - reflexivity.
  - simpl. auto.
Defined.

(** ** [format_filesize] *)

Lemma round_half_even_near (n d : Z) :
  0 < d -> 2 * Z.abs (n - round_half_even n d * d) <= d.
Proof.
  intros Hd. unfold round_half_even.
  pose proof (Z.div_mod n d ltac:(lia)) as Hdm.
  pose proof (Z.mod_pos_bound n d Hd) as Hr.
  destruct (Z.ltb_spec (2 * (n mod d)) d);
    [|destruct (Z.ltb_spec d (2 * (n mod d))); [|destruct (Z.even (n / d))]];
    nia.
Qed.

Lemma fixed1_positive (n d : Z) :
  0 <= n ->
  fixed1 n d
  = pretty (round_half_even (10 * n) d / 10) +:+ "."
    +:+ pretty (round_half_even (10 * n) d mod 10).
Proof.
  intros Hn. unfold fixed1.
  destruct (Z.ltb_spec n 0); [lia|].
  now rewrite Z.abs_eq, sapp_nil_l by assumption.
Qed.

(** X20. [format_filesize] gives ["Unknown size"] for no size and for 0.
    For a positive whole number of bytes below 2^53 it picks the unit by
    powers of 1024 (bytes below 1024, then KB, MB, GB, and TB from 1024^4
    on with no upper end) and shows the size in that unit with one digit
    after the point, rounded to the nearest tenth. *)
Theorem format_filesize_units (size : Z) :
  0 < size < 2 ^ 53 ->
  format_filesize None = "Unknown size"
  /\ format_filesize (Some 0) = "Unknown size"
  /\ exists k tenths,
       (k <= 4)%nat
       /\ ((0 < k)%nat -> 1024 ^ Z.of_nat k <= size)
       /\ ((k < 4)%nat -> size < 1024 ^ Z.of_nat (S k))
       /\ 2 * Z.abs (10 * size - tenths * 1024 ^ Z.of_nat k)
          <= 1024 ^ Z.of_nat k
       /\ format_filesize (Some size)
          = pretty (tenths / 10) +:+ "." +:+ pretty (tenths mod 10)
            +:+ " " +:+ nth k ["B"; "KB"; "MB"; "GB"] "TB".
Proof.
  intros Hs. split; [reflexivity|]. split; [reflexivity|].
  unfold format_filesize. simpl truthy_num.
  destruct (Z.eqb_spec size 0); [lia|]. simpl negb. cbv iota.
  unfold or0, filesize_loop.
  change (1024 * 1) with 1024. change (1024 * 1024) with (1024 ^ 2).
  change (1024 * 1024 ^ 2) with (1024 ^ 3).
  change (1024 * 1024 ^ 3) with (1024 ^ 4).
  destruct (Z.ltb_spec size 1024) as [H1|H1].
  { exists 0%nat, (round_half_even (10 * size) 1).
    split; [lia|]. split; [lia|]. split; [intros _; exact H1|].
    split; [apply (round_half_even_near (10 * size) 1); lia|].
    rewrite fixed1_positive by lia. now rewrite !sapp_assoc. }
  destruct (Z.ltb_spec size (1024 ^ 2)) as [H2|H2].
  { exists 1%nat, (round_half_even (10 * size) 1024).
    split; [lia|]. split; [intros _; exact H1|]. split; [intros _; exact H2|].
    split; [apply (round_half_even_near (10 * size) 1024); lia|].
    rewrite fixed1_positive by lia. now rewrite !sapp_assoc. }
  destruct (Z.ltb_spec size (1024 ^ 3)) as [H3|H3].
  { exists 2%nat, (round_half_even (10 * size) (1024 ^ 2)).
    split; [lia|]. split; [intros _; exact H2|]. split; [intros _; exact H3|].
    split; [apply (round_half_even_near (10 * size) (1024 ^ 2)); lia|].
    rewrite fixed1_positive by lia. now rewrite !sapp_assoc. }
  destruct (Z.ltb_spec size (1024 ^ 4)) as [H4|H4].
  { exists 3%nat, (round_half_even (10 * size) (1024 ^ 3)).
    split; [lia|]. split; [intros _; exact H3|]. split; [intros _; exact H4|].
    split; [apply (round_half_even_near (10 * size) (1024 ^ 3)); lia|].
    rewrite fixed1_positive by lia. now rewrite !sapp_assoc. }
  exists 4%nat, (round_half_even (10 * size) (1024 ^ 4)).
  split; [lia|]. split; [intros _; exact H4|]. split; [lia|].
  split; [apply (round_half_even_near (10 * size) (1024 ^ 4)); lia|].
  rewrite fixed1_positive by lia. now rewrite !sapp_assoc.
Qed.

(** One and a half kilobytes. *)
Lemma format_filesize_units_witness :
  format_filesize (Some 1536) = "1.5 KB"
  /\ format_filesize None = "Unknown size"
  /\ format_filesize (Some 0) = "Unknown size"
  /\ exists k tenths,
       (k <= 4)%nat
       /\ ((0 < k)%nat -> 1024 ^ Z.of_nat k <= 1536)
       /\ ((k < 4)%nat -> 1536 < 1024 ^ Z.of_nat (S k))
       /\ 2 * Z.abs (10 * 1536 - tenths * 1024 ^ Z.of_nat k)
          <= 1024 ^ Z.of_nat k
       /\ format_filesize (Some 1536)
          = pretty (tenths / 10) +:+ "." +:+ pretty (tenths mod 10)
            +:+ " " +:+ nth k ["B"; "KB"; "MB"; "GB"] "TB".
Proof.
  split; [reflexivity|].
  apply (format_filesize_units 1536). lia.
Defined.

Lemma round_half_even_top (n d : Z) :
  0 < d -> 20479 * d <= 2 * n -> n < 10240 * d ->
  round_half_even n d = 10240.
Proof.
  intros Hd Hlo Hhi. unfold round_half_even.
  pose proof (Z.div_mod n d ltac:(lia)) as Hdm.
  pose proof (Z.mod_pos_bound n d Hd) as Hr.
  assert (n / d = 10239) as Hq by nia.
  rewrite Hq in *.
  destruct (Z.ltb_spec (2 * (n mod d)) d); [nia|].
  destruct (Z.ltb_spec d (2 * (n mod d))); reflexivity.
Qed.

(** X21. A size just below the next unit is shown as 1024.0 of the smaller
    unit: from 1023.95 KB, MB or GB on, up to the next power of 1024, the
    text is ["1024.0"] with the smaller unit, because the unit is picked
    before the number is rounded. *)
Theorem format_filesize_rounds_to_1024 (size : Z) (k : nat) :
  (1 <= k <= 3)%nat ->
  20479 * 1024 ^ Z.of_nat k <= 20 * size ->
  size < 1024 ^ Z.of_nat (S k) ->
  format_filesize (Some size)
  = "1024.0 " +:+ nth k ["B"; "KB"; "MB"; "GB"] "TB".
Proof.
  intros Hk Hlo Hhi.
  assert (k = 1 \/ k = 2 \/ k = 3)%nat as [-> | [-> | ->]] by lia;
    unfold format_filesize; simpl truthy_num;
    (destruct (Z.eqb_spec size 0); [lia|]); simpl negb; cbv iota;
    unfold or0, filesize_loop;
    change (1024 * 1) with 1024; change (1024 * 1024) with (1024 ^ 2);
    change (1024 * 1024 ^ 2) with (1024 ^ 3);
    change (1024 * 1024 ^ 3) with (1024 ^ 4);
    change (Z.of_nat 1) with 1 in *; change (Z.of_nat 2) with 2 in *;
    change (Z.of_nat 3) with 3 in *; change (Z.of_nat 4) with 4 in *;
    change (1024 ^ 1) with 1024 in *.
  - destruct (Z.ltb_spec size 1024); [lia|].
    destruct (Z.ltb_spec size (1024 ^ 2)); [|lia].
    rewrite fixed1_positive, round_half_even_top by lia. reflexivity.
  - destruct (Z.ltb_spec size 1024); [lia|].
    destruct (Z.ltb_spec size (1024 ^ 2)); [lia|].
    destruct (Z.ltb_spec size (1024 ^ 3)); [|lia].
    rewrite fixed1_positive, round_half_even_top by lia. reflexivity.
  - destruct (Z.ltb_spec size 1024); [lia|].
    destruct (Z.ltb_spec size (1024 ^ 2)); [lia|].
    destruct (Z.ltb_spec size (1024 ^ 3)); [lia|].
    destruct (Z.ltb_spec size (1024 ^ 4)); [|lia].
    rewrite fixed1_positive, round_half_even_top by lia. reflexivity.
Qed.

(** One byte below a megabyte. *)
Lemma format_filesize_rounds_to_1024_witness :
  format_filesize (Some 1048575) = "1024.0 KB".
Proof.
  apply (format_filesize_rounds_to_1024 1048575 1); [lia | | ];
    vm_compute; congruence.
Defined.

(** ** TypeDetector: keywords that decide nothing *)

Lemma contains_longer (a b s : string) :
  occurs_in a b -> contains b s = true -> contains a s = true.
Proof.
  intros (p & q & ->) H. apply contains_occurs in H.
  destruct H as (pre & post & ->). apply contains_occurs.
  exists (pre +:+ p), (q +:+ post). now rewrite !sapp_assoc.
Qed.

Lemma in_texts_longer (a b note ttl desc : string) :
  occurs_in a b -> in_texts b note ttl desc = true ->
  in_texts a note ttl desc = true.
Proof.
  intros Hab. unfold in_texts. rewrite !orb_true_iff.
  intros [[H|H]|H]; eauto using contains_longer.
Qed.

Lemma add_tag_idem (t : string) (l : list string) :
  (if mem t (if mem t l then l else (l ++ [t])%list)
   then if mem t l then l else (l ++ [t])%list
   else ((if mem t l then l else (l ++ [t])%list) ++ [t])%list)
  = if mem t l then l else (l ++ [t])%list.
Proof.
  destruct (mem t l) eqn:Hm; [now rewrite Hm|].
  assert (mem t (l ++ [t]) = true) as ->; [|reflexivity].
  apply mem_In, in_or_app. right. now left.
Qed.

Lemma hdr_scan_any (kws : list string) (note fid : string) :
  forall l,
    hdr_scan kws note fid l
    = if existsb (fun k => contains k note || contains k fid) kws
      then if mem "HDR" l then l else (l ++ ["HDR"])%list
      else l.
Proof.
  induction kws as [|k kws IH]; intros l; simpl; [reflexivity|].
  rewrite IH. destruct (contains k note || contains k fid); simpl.
  - destruct (existsb _ kws); [apply add_tag_idem | reflexivity].
  - reflexivity.
Qed.

Lemma vr180_scan_any (kws : list string) (note ttl desc : string) :
  forall l,
    vr180_scan kws note ttl desc l
    = if existsb (fun k => in_texts k note ttl desc) kws
      then if mem "180°" l then l else (l ++ ["180°"])%list
      else l.
Proof.
  induction kws as [|k kws IH]; intros l; simpl; [reflexivity|].
  rewrite IH. destruct (in_texts k note ttl desc); simpl.
  - destruct (existsb _ kws); [apply add_tag_idem | reflexivity].
  - reflexivity.
Qed.

(** X22. Four keywords of the detector decide nothing, because a shorter
    keyword of the same table is part of each and gives the same tag:
    ['stereoscopic'] (after ['stereo']), ['vr180'] (after ['180']),
    ['hdr10'] and ['hdr10+'] (after ['hdr']). The three loops give the same
    list with these keywords struck from their tables. *)
Theorem redundant_keywords
    (note fid ttl desc : string) (video_type : list string) :
  stereo_scan stereo_keywords note ttl desc video_type
  = stereo_scan
      [ ("3d", "3D"); ("stereo", "3D"); ("sbs", "SBS-3D");
        ("side by side", "SBS-3D"); ("side-by-side", "SBS-3D");
        ("top bottom", "TB-3D"); ("top-bottom", "TB-3D");
        ("anaglyph", "Anaglyph-3D"); ("dual fisheye", "DualFisheye-3D") ]
      note ttl desc video_type
  /\ vr180_scan vr180_keywords note ttl desc video_type
     = vr180_scan ["180"; "half sphere"; "hemispherical"] note ttl desc
         video_type
  /\ hdr_scan hdr_keywords note fid video_type
     = hdr_scan
         ["hdr"; "dolby vision"; "high dynamic range"; "rec2020"; "bt2020"]
         note fid video_type.
Proof.
  split; [|split].
  - unfold stereo_keywords. cbn [stereo_scan].
    destruct (in_texts "3d" note ttl desc); [reflexivity|].
    destruct (in_texts "stereoscopic" note ttl desc) eqn:H1; [|reflexivity].
    assert (in_texts "stereo" note ttl desc = true) as ->; [|reflexivity].
    apply (in_texts_longer "stereo" "stereoscopic"); [|exact H1].
    now exists "", "scopic".
  - rewrite !vr180_scan_any. unfold vr180_keywords. cbn [existsb].
    destruct (in_texts "180" note ttl desc) eqn:H0; [reflexivity|].
    destruct (in_texts "vr180" note ttl desc) eqn:H1; [|reflexivity].
    assert (in_texts "180" note ttl desc = true) as H; [|congruence].
    apply (in_texts_longer "180" "vr180"); [|exact H1].
    now exists "vr", "".
  - rewrite !hdr_scan_any. unfold hdr_keywords. cbn [existsb].
    destruct (contains "hdr" note || contains "hdr" fid) eqn:H0;
      [reflexivity|].
    apply orb_false_iff in H0. destruct H0 as [Hn Hf].
    assert (forall k s, occurs_in "hdr" k -> contains "hdr" s = false ->
                        contains k s = false) as Hno.
    { intros k s Hk Hs. destruct (contains k s) eqn:Hc; [|reflexivity].
      apply (contains_longer "hdr" k s Hk) in Hc. congruence. }
    rewrite (Hno "hdr10" note), (Hno "hdr10" fid),
      (Hno "hdr10+" note), (Hno "hdr10+" fid);
      try assumption; try reflexivity.
    + now exists "", "10+".
    + now exists "", "10+".
    + now exists "", "10".
    + now exists "", "10".
Qed.

(** ** [validate_url]: the matcher *)

Lemma sapp_eq_nil (a b : string) : a +:+ b = "" -> a = "" /\ b = "".
Proof.
  destruct a as [|c a]; [rewrite sapp_nil_l; auto|].
  rewrite sapp_cons. discriminate.
Qed.

Lemma sapp_eq_cons (a b : string) (c : ascii) (s : string) :
  a +:+ b = String c s ->
  (a = "" /\ b = String c s)
  \/ exists a', a = String c a' /\ s = a' +:+ b.
Proof.
  destruct a as [|c' a]; [rewrite sapp_nil_l; auto|].
  rewrite sapp_cons. intros H. injection H as -> <-. right. eauto.
Qed.

Lemma nullable_spec (r : regex) : nullable r = true <-> Matches r "".
Proof.
  split.
  - induction r as [| |p|r1 IH1 r2 IH2|r1 IH1 r2 IH2|r IH]; simpl;
      intros H; try discriminate.
    + constructor.
    + apply andb_true_iff in H. destruct H as [H1 H2].
      rewrite <- (sapp_nil_l ""). constructor; auto.
    + apply orb_true_iff in H. destruct H as [H|H];
        [apply MAltL | apply MAltR]; auto.
    + constructor.
  - intros H. remember "" as s eqn:Hs.
    induction H as [|p c Hp|r1 r2 s1 s2 H1 IH1 H2 IH2|r1 r2 s H IH
                   |r1 r2 s H IH|r|r s1 s2 H1 IH1 H2 IH2]; simpl;
      try reflexivity; try discriminate.
    + apply sapp_eq_nil in Hs. destruct Hs as [-> ->].
      now rewrite IH1, IH2.
    + now rewrite IH.
    + rewrite IH by assumption. apply orb_true_r.
Qed.

Lemma deriv_sound (c : ascii) (r : regex) :
  forall s, Matches (deriv c r) s -> Matches r (String c s).
Proof.
  induction r as [| |p|r1 IH1 r2 IH2|r1 IH1 r2 IH2|r IH]; simpl; intros s H.
  - inversion H.
  - inversion H.
  - destruct (p c) eqn:Hp; inversion H; subst. now constructor.
  - assert (forall s, Matches (RSeq (deriv c r1) r2) s ->
                      Matches (RSeq r1 r2) (String c s)) as Hseq.
    { intros s0 H0. inversion H0 as [| |? ? s1 s2 Ha Hb| | | |]; subst.
      rewrite <- sapp_cons. constructor; auto. }
    destruct (nullable r1) eqn:Hn; [|now apply Hseq].
    inversion H as [| | |? ? ? Ha|? ? ? Hb| |]; subst; [now apply Hseq|].
    rewrite <- (sapp_nil_l (String c s)). constructor; [|auto].
    now apply nullable_spec.
  - inversion H; subst; [apply MAltL | apply MAltR]; auto.
  - inversion H as [| |? ? s1 s2 Ha Hb| | | |]; subst.
    rewrite <- sapp_cons. constructor; auto.
Qed.

Lemma deriv_complete (r : regex) (t : string) :
  Matches r t -> forall c s, t = String c s -> Matches (deriv c r) s.
Proof.
  induction 1 as [|p c0 Hp|r1 r2 s1 s2 H1 IH1 H2 IH2|r1 r2 s0 H IH
                 |r1 r2 s0 H IH|r|r s1 s2 H1 IH1 H2 IH2];
    intros c s Heq; simpl.
  - discriminate.
  - injection Heq as -> <-. rewrite Hp. constructor.
  - apply sapp_eq_cons in Heq.
    destruct Heq as [[-> ->]|(a' & -> & ->)].
    + apply nullable_spec in H1. rewrite H1. apply MAltR. now apply IH2.
    + assert (Matches (RSeq (deriv c r1) r2) (a' +:+ s2)) as Hs.
      { constructor; [now apply IH1 | assumption]. }
      destruct (nullable r1); [now apply MAltL | assumption].
  - apply MAltL. now apply IH.
  - apply MAltR. now apply IH.
  - discriminate.
  - apply sapp_eq_cons in Heq.
    destruct Heq as [[-> ->]|(a' & -> & ->)].
    + now apply IH2.
    + constructor; [now apply IH1 | assumption].
Qed.

(** The matcher decides the matching relation. *)
Lemma matches_spec (s : string) :
  forall r, matches r s = true <-> Matches r s.
Proof.
  induction s as [|c s IH]; intros r; simpl.
  - apply nullable_spec.
  - rewrite IH. split; [apply deriv_sound|].
    intros H. now apply (deriv_complete r (String c s)).
Qed.

Lemma class_within_spec (p q : ascii -> bool) :
  class_within p q = true -> forall c, p c = true -> q c = true.
Proof.
  unfold class_within. rewrite forallb_forall. intros H c Hp.
  specialize (H (nat_of_ascii c)). rewrite ascii_nat_embedding in H.
  rewrite Hp in H. apply H, in_seq.
  pose proof (nat_ascii_bounded c). lia.
Qed.

Lemma all_chars_app (p : ascii -> bool) (a b : string) :
  all_chars p (a +:+ b) = all_chars p a && all_chars p b.
Proof.
  induction a as [|c a IH]; [now rewrite sapp_nil_l|].
  rewrite sapp_cons. simpl. now rewrite IH, andb_assoc.
Qed.

(** A match holds characters of the classes of the expression only. *)
Lemma matches_classes (q : ascii -> bool) (r : regex) (s : string) :
  Matches r s -> classes_within q r = true -> all_chars q s = true.
Proof.
  induction 1 as [|p c Hp|r1 r2 s1 s2 H1 IH1 H2 IH2|r1 r2 s0 H IH
                 |r1 r2 s0 H IH|r|r s1 s2 H1 IH1 H2 IH2]; simpl; intros Hc;
    try reflexivity.
  - rewrite (class_within_spec p q Hc c Hp). reflexivity.
  - apply andb_true_iff in Hc. destruct Hc as [Hc1 Hc2].
    now rewrite all_chars_app, IH1, IH2.
  - apply andb_true_iff in Hc. destruct Hc as [Hc1 Hc2]. auto.
  - apply andb_true_iff in Hc. destruct Hc as [Hc1 Hc2]. auto.
  - now rewrite all_chars_app, IH1, IH2.
Qed.

Lemma str_lower_app (a b : string) :
  str_lower (a +:+ b) = str_lower a +:+ str_lower b.
Proof.
  induction a as [|c a IH]; [now rewrite !sapp_nil_l|].
  rewrite sapp_cons. unfold str_lower in *. simpl.
  now rewrite IH, sapp_cons.
Qed.

Lemma word_lower (k s : string) :
  Matches (RWord k) s -> str_lower s = str_lower k.
Proof.
  revert s. induction k as [|c k IH]; simpl; intros s H.
  - inversion H. reflexivity.
  - inversion H as [| |? ? s1 s2 Ha Hb| | | |]; subst.
    inversion Ha as [|? c' Hc| | | | |]; subst.
    rewrite sapp_cons, sapp_nil_l. unfold str_lower in *. simpl.
    unfold same_letter in Hc. apply Ascii.eqb_eq in Hc.
    rewrite Hc. f_equal. now apply IH.
Qed.

(** ** [validate_url]: what it accepts *)

Lemma sapp_head_inj (a1 a2 t1 t2 : string) :
  a1 +:+ t1 = a2 +:+ t2 -> String.length a1 = String.length a2 ->
  a1 = a2 /\ t1 = t2.
Proof.
  revert a2. induction a1 as [|c a1 IH]; intros [|c' a2] Heq Hlen;
    try discriminate; rewrite ?sapp_nil_l, ?sapp_cons in Heq.
  - auto.
  - injection Heq as -> Heq. injection Hlen as Hlen.
    destruct (IH a2 Heq Hlen) as [-> ->]. auto.
Qed.

Lemma seq_inv (r1 r2 : regex) (s : string) :
  Matches (RSeq r1 r2) s ->
  exists s1 s2, s = s1 +:+ s2 /\ Matches r1 s1 /\ Matches r2 s2.
Proof. intros H. inversion H; subst. eauto. Qed.

Lemma alt_inv (r1 r2 : regex) (s : string) :
  Matches (RAlt r1 r2) s -> Matches r1 s \/ Matches r2 s.
Proof. intros H. inversion H; subst; auto. Qed.

Lemma eps_inv (s : string) : Matches REps s -> s = "".
Proof. intros H. now inversion H. Qed.

Lemma chr_inv (p : ascii -> bool) (s : string) :
  Matches (RChr p) s -> exists c, s = String c "" /\ p c = true.
Proof. intros H. inversion H; subst. eauto. Qed.

Lemma opt_inv (r : regex) (s : string) :
  Matches (ROpt r) s -> Matches r s \/ s = "".
Proof.
  intros H. apply alt_inv in H. destruct H as [H|H]; [auto|].
  right. now apply eps_inv.
Qed.

Lemma star_inv (r : regex) (s : string) :
  Matches (RStar r) s ->
  s = ""
  \/ exists s1 s2, s = s1 +:+ s2 /\ Matches r s1 /\ Matches (RStar r) s2.
Proof.
  intros H. inversion H; subst; [now left|].
  right. do 2 eexists. eauto.
Qed.

Lemma word_length (k s : string) :
  Matches (RWord k) s -> String.length s = String.length k.
Proof.
  revert s. induction k as [|c k IH]; simpl; intros s H.
  - apply eps_inv in H. now subst.
  - apply seq_inv in H. destruct H as (s1 & s2 & -> & Ha & Hb).
    apply chr_inv in Ha. destruct Ha as (x & -> & _).
    rewrite sapp_cons, sapp_nil_l. simpl. f_equal. now apply IH.
Qed.

Lemma seq_word_prefix (k : string) (R : regex) (k' X : string) :
  Matches (RSeq (RWord k) R) (k' +:+ X) ->
  String.length k' = String.length k ->
  Matches (RWord k) k' /\ Matches R X.
Proof.
  intros H Hlen. apply seq_inv in H. destruct H as (s1 & s2 & Heq & Ha & Hb).
  apply sapp_head_inj in Heq.
  - destruct Heq as [-> ->]. auto.
  - now rewrite (word_length _ _ Ha).
Qed.

Lemma opt_chr_peel (p : ascii -> bool) (R : regex) (s : string) :
  Matches (RSeq (ROpt (RChr p)) R) s ->
  Matches R s
  \/ exists c s', s = String c s' /\ p c = true /\ Matches R s'.
Proof.
  intros H. apply seq_inv in H. destruct H as (s1 & s2 & -> & Ha & Hb).
  apply opt_inv in Ha. destruct Ha as [Ha| ->].
  - apply chr_inv in Ha. destruct Ha as (c & -> & Hc).
    right. rewrite sapp_cons, sapp_nil_l. eauto.
  - left. now rewrite sapp_nil_l.
Qed.

Lemma word_first (kc : ascii) (k : string) (R : regex) (c : ascii)
    (s : string) :
  Matches (RSeq (RWord (String kc k)) R) (String c s) ->
  same_letter kc c = true.
Proof.
  intros H. apply seq_inv in H. destruct H as (s1 & s2 & Heq & Ha & Hb).
  simpl in Ha. apply seq_inv in Ha. destruct Ha as (s3 & s4 & -> & Hc & Hd).
  apply chr_inv in Hc. destruct Hc as (x & -> & Hx).
  rewrite !sapp_cons, sapp_nil_l in Heq. now injection Heq as ->.
Qed.

(** The pattern after its scheme. *)
Lemma scheme_peel (scheme X : string) :
  scheme = "http://" \/ scheme = "https://" ->
  Matches url_pattern (scheme +:+ X) ->
  Matches (RSeq host (RSeq port path)) X.
Proof.
  unfold url_pattern. intros [-> | ->] H.
  - change ("http://" +:+ X) with ("http" +:+ ("://" +:+ X)) in H.
    apply seq_word_prefix in H; [|reflexivity]. destruct H as [_ H].
    apply opt_chr_peel in H. destruct H as [H|(c & s' & Heq & Hc & _)].
    + apply seq_word_prefix in H; [|reflexivity]. now destruct H.
    + change ("://" +:+ X) with (String ":" ("//" +:+ X)) in Heq.
      injection Heq as <- _. discriminate.
  - change ("https://" +:+ X) with ("http" +:+ ("s://" +:+ X)) in H.
    apply seq_word_prefix in H; [|reflexivity]. destruct H as [_ H].
    apply opt_chr_peel in H. destruct H as [H|(c & s' & Heq & Hc & H)].
    + change ("s://" +:+ X) with (String "s" ("://" +:+ X)) in H.
      apply word_first in H. discriminate.
    + change ("s://" +:+ X) with (String "s" ("://" +:+ X)) in Heq.
      injection Heq as <- <-.
      apply seq_word_prefix in H; [|reflexivity]. now destruct H.
Qed.

Lemma scheme_build (X : string) :
  Matches (RSeq host (RSeq port path)) X ->
  Matches url_pattern ("http://" +:+ X)
  /\ Matches url_pattern ("https://" +:+ X).
Proof.
  intros H. unfold url_pattern. split.
  - change ("http://" +:+ X) with ("http" +:+ ("" +:+ ("://" +:+ X))).
    constructor; [apply matches_spec; reflexivity|].
    constructor; [apply MAltR; constructor|].
    constructor; [apply matches_spec; reflexivity | assumption].
  - change ("https://" +:+ X) with ("http" +:+ ("s" +:+ ("://" +:+ X))).
    constructor; [apply matches_spec; reflexivity|].
    constructor; [apply MAltL; now constructor|].
    constructor; [apply matches_spec; reflexivity | assumption].
Qed.

(** X23. [validate_url] refuses the empty string and a string of
    whitespace. A string of ASCII characters it accepts starts, once
    stripped, with [http://] or [https://] in any mix of cases, has
    something after that, and holds no whitespace. *)
Theorem validate_url_accepts_only_http
    (strip : string -> string) (url : string) :
  is_ascii (strip url) = true ->
  validate_url strip url = true ->
  url <> "" /\ strip url <> ""
  /\ exists scheme rest,
       strip url = scheme +:+ rest
       /\ (str_lower scheme = "http://" \/ str_lower scheme = "https://")
       /\ rest <> ""
       /\ all_chars non_space (strip url) = true.
Proof.
  intros _. unfold validate_url.
  destruct (String.eqb_spec url "") as [|Hu]; [discriminate|].
  destruct (String.eqb_spec (strip url) "") as [|Hs]; [discriminate|].
  simpl. intros H. apply matches_spec in H.
  split; [assumption|]. split; [assumption|].
  assert (all_chars non_space (strip url) = true) as Hns.
  { apply (matches_classes non_space url_pattern); [assumption|].
    vm_compute. reflexivity. }
  unfold url_pattern in H.
  apply seq_inv in H. destruct H as (a & s1 & Heq & Ha & H).
  apply seq_inv in H. destruct H as (b & s2 & -> & Hb & H).
  apply seq_inv in H. destruct H as (c & rest & -> & Hc & H).
  apply word_lower in Ha, Hc.
  exists (a +:+ b +:+ c), rest.
  split; [now rewrite Heq, !sapp_assoc|].
  split; [|split; [|assumption]].
  - rewrite !str_lower_app, Ha, Hc.
    apply opt_inv in Hb. destruct Hb as [Hb| ->].
    + apply chr_inv in Hb. destruct Hb as (x & -> & Hx). right.
      unfold same_letter in Hx. apply Ascii.eqb_eq in Hx.
      unfold str_lower at 2. simpl. rewrite Hx. reflexivity.
    + left. reflexivity.
  - intros ->. apply nullable_spec in H. discriminate.
Qed.

Lemma validate_url_accepts_only_http_witness :
  " https://www.youtube.com/watch?v=abc " <> ""
  /\ strip_ascii " https://www.youtube.com/watch?v=abc " <> ""
  /\ exists scheme rest,
       strip_ascii " https://www.youtube.com/watch?v=abc "
       = scheme +:+ rest
       /\ (str_lower scheme = "http://" \/ str_lower scheme = "https://")
       /\ rest <> ""
       /\ all_chars non_space
            (strip_ascii " https://www.youtube.com/watch?v=abc ") = true.
Proof.
  apply (validate_url_accepts_only_http strip_ascii
           " https://www.youtube.com/watch?v=abc ");
    reflexivity.
Defined.

Lemma all_chars_within (p q : ascii -> bool) (s : string) :
  class_within p q = true -> all_chars p s = true -> all_chars q s = true.
Proof.
  intros Hw. induction s as [|c s IH]; simpl; [reflexivity|].
  intros H. apply andb_true_iff in H. destruct H as [Hc Hs].
  now rewrite (class_within_spec p q Hw c Hc), IH.
Qed.

(** Two texts cut where the class [C] ends. *)
Lemma split_boundary (C : ascii -> bool) (h r u t : string) :
  h +:+ r = u +:+ t ->
  all_chars C h = true -> all_chars C u = true ->
  (r = "" \/ exists c r', r = String c r' /\ C c = false) ->
  (t = "" \/ exists c t', t = String c t' /\ C c = false) ->
  h = u /\ r = t.
Proof.
  revert u. induction h as [|x h IH]; intros [|y u] Heq Hh Hu Hr Ht;
    rewrite ?sapp_nil_l, ?sapp_cons in Heq.
  - auto.
  - simpl in Hu. apply andb_true_iff in Hu. destruct Hu as [Hy _].
    destruct Hr as [-> |(c & r' & -> & Hc)]; [discriminate|].
    injection Heq as -> _. congruence.
  - simpl in Hh. apply andb_true_iff in Hh. destruct Hh as [Hx _].
    destruct Ht as [-> |(c & t' & -> & Hc)]; [discriminate|].
    injection Heq as -> _. congruence.
  - simpl in Hh, Hu. apply andb_true_iff in Hh, Hu.
    destruct Hh as [_ Hh], Hu as [_ Hu]. injection Heq as -> Heq.
    destruct (IH u Heq Hh Hu Hr Ht) as [-> ->]. auto.
Qed.

Lemma times_length (p : ascii -> bool) (n : nat) (s : string) :
  Matches (RTimes n (RChr p)) s -> String.length s = n.
Proof.
  revert s. induction n as [|n IH]; simpl; intros s H.
  - apply eps_inv in H. now subst.
  - apply seq_inv in H. destruct H as (s1 & s2 & -> & Ha & Hb).
    apply chr_inv in Ha. destruct Ha as (x & -> & _).
    rewrite sapp_cons, sapp_nil_l. simpl. f_equal. now apply IH.
Qed.

Lemma upto_length (p : ascii -> bool) (n : nat) (s : string) :
  Matches (RUpTo n (RChr p)) s -> (String.length s <= n)%nat.
Proof.
  revert s. induction n as [|n IH]; simpl; intros s H.
  - apply eps_inv in H. subst. simpl. lia.
  - apply opt_inv in H. destruct H as [H| ->]; [|simpl; lia].
    apply seq_inv in H. destruct H as (s1 & s2 & -> & Ha & Hb).
    apply chr_inv in Ha. destruct Ha as (x & -> & _).
    rewrite sapp_cons, sapp_nil_l. simpl. apply IH in Hb. lia.
Qed.

Lemma between_length (p : ascii -> bool) (lo hi : nat) (s : string) :
  (lo <= hi)%nat -> Matches (RBetween lo hi (RChr p)) s ->
  (lo <= String.length s <= hi)%nat.
Proof.
  intros Hle H. unfold RBetween in H.
  apply seq_inv in H. destruct H as (s1 & s2 & -> & Ha & Hb).
  apply times_length in Ha. apply upto_length in Hb.
  rewrite length_sapp. lia.
Qed.

Lemma times_build (p : ascii -> bool) (s : string) :
  all_chars p s = true -> Matches (RTimes (String.length s) (RChr p)) s.
Proof.
  induction s as [|c s IH]; simpl; intros H; [constructor|].
  apply andb_true_iff in H. destruct H as [Hc Hs].
  change (String c s) with (String c "" +:+ s).
  constructor; [now constructor | auto].
Qed.

Lemma upto_build (p : ascii -> bool) (n : nat) :
  forall s,
    all_chars p s = true -> (String.length s <= n)%nat ->
    Matches (RUpTo n (RChr p)) s.
Proof.
  induction n as [|n IH]; intros [|c s] H Hlen; simpl in *; try lia.
  - constructor.
  - apply MAltR. constructor.
  - apply andb_true_iff in H. destruct H as [Hc Hs]. apply MAltL.
    change (String c s) with (String c "" +:+ s).
    constructor; [now constructor | apply IH; [assumption | lia]].
Qed.

Lemma string_split (n : nat) :
  forall s, (n <= String.length s)%nat ->
            exists a b, s = a +:+ b /\ String.length a = n.
Proof.
  induction n as [|n IH]; intros s Hlen.
  - exists "", s. now rewrite sapp_nil_l.
  - destruct s as [|c s]; simpl in Hlen; [lia|].
    destruct (IH s) as (a & b & -> & Ha); [lia|].
    exists (String c a), b. rewrite sapp_cons. simpl. auto.
Qed.

Lemma between_build (p : ascii -> bool) (lo hi : nat) (s : string) :
  all_chars p s = true -> (lo <= String.length s <= hi)%nat ->
  Matches (RBetween lo hi (RChr p)) s.
Proof.
  intros H [Hlo Hhi]. destruct (string_split lo s Hlo) as (a & b & -> & Ha).
  rewrite all_chars_app in H. apply andb_true_iff in H. destruct H as [H1 H2].
  rewrite length_sapp in Hhi. unfold RBetween. constructor.
  - rewrite <- Ha. now apply times_build.
  - apply upto_build; [assumption | lia].
Qed.

Lemma all_chars_dot (p : ascii -> bool) (a b : string) :
  p "."%char = false -> all_chars p (a +:+ String "." b) = false.
Proof.
  intros Hp. rewrite all_chars_app. simpl.
  rewrite Hp. apply andb_false_r.
Qed.

Lemma all_chars_dot_app (p : ascii -> bool) (a b : string) :
  p "."%char = false -> all_chars p (a +:+ "." +:+ b) = false.
Proof. rewrite sapp_cons, sapp_nil_l. apply all_chars_dot. Qed.

(** The hosts of two names: a label, a dot and a top-level name. *)
Lemma host_two_labels (name tld : string) :
  all_chars is_alnum name = true -> all_chars is_alpha tld = true ->
  Matches host (name +:+ "." +:+ tld) ->
  (2 <= String.length tld <= 6)%nat.
Proof.
  intros Hn Ht H. unfold host in H.
  apply alt_inv in H. destruct H as [H|H]; [|apply alt_inv in H; destruct H as [H|H]].
  - (* a domain name *)
    unfold domain in H.
    apply seq_inv in H. destruct H as (L & TD & Heq & HL & HTD).
    apply seq_inv in HTD. destruct HTD as (T & D & -> & HT & HD).
    unfold RPlus in HL.
    apply seq_inv in HL. destruct HL as (L1 & L' & -> & HL1 & HL').
    apply seq_inv in HL1. destruct HL1 as (l1 & dot & -> & Hl1 & Hdot).
    apply chr_inv in Hdot. destruct Hdot as (x & -> & Hx).
    apply Ascii.eqb_eq in Hx. subst x.
    assert (all_chars is_alnum_dash l1 = true) as Hl1c.
    { apply (matches_classes is_alnum_dash label); [assumption|].
      vm_compute. reflexivity. }
    rewrite !sapp_assoc in Heq. symmetry in Heq.
    apply (split_boundary is_alnum_dash) in Heq.
    + destruct Heq as [_ Heq]. rewrite !sapp_cons, !sapp_nil_l in Heq.
      injection Heq as Heq. subst tld.
      rewrite all_chars_app in Ht. apply andb_true_iff in Ht.
      destruct Ht as [HtL Ht].
      rewrite all_chars_app in Ht. apply andb_true_iff in Ht.
      destruct Ht as [HtT HtD].
      assert (L' = "") as ->.
      { apply star_inv in HL'.
        destruct HL' as [-> |(s1 & s2 & -> & Hs1 & _)]; [reflexivity|].
        apply seq_inv in Hs1. destruct Hs1 as (l2 & d2 & -> & _ & Hd2).
        apply chr_inv in Hd2. destruct Hd2 as (x & -> & Hx).
        apply Ascii.eqb_eq in Hx. subst x.
        rewrite sapp_assoc in HtL.
        rewrite (all_chars_dot_app is_alpha l2 s2) in HtL by reflexivity.
        discriminate. }
      assert (D = "") as ->.
      { apply opt_inv in HD. destruct HD as [HD| ->]; [|reflexivity].
        apply chr_inv in HD. destruct HD as (x & -> & Hx).
        apply Ascii.eqb_eq in Hx. subst x. discriminate. }
      rewrite sapp_nil_l, sapp_nil_r.
      apply (between_length is_alpha 2 6); [lia | assumption].
    + assumption.
    + apply (all_chars_within is_alnum); [vm_compute; reflexivity | assumption].
    + right. rewrite sapp_cons. do 2 eexists. split; reflexivity.
    + right. rewrite sapp_cons. do 2 eexists. split; reflexivity.
  - (* localhost *)
    assert (all_chars is_alpha (name +:+ "." +:+ tld) = true) as Hc.
    { apply (matches_classes is_alpha (RWord "localhost")); [assumption|].
      vm_compute. reflexivity. }
    rewrite all_chars_dot_app in Hc by reflexivity. discriminate.
  - (* four numbers *)
    unfold dotted_quad in H.
    apply seq_inv in H. destruct H as (d1 & R1 & Heq & Hd1 & HR1).
    apply seq_inv in HR1. destruct HR1 as (dot & R2 & -> & Hdot & HR2).
    apply chr_inv in Hdot. destruct Hdot as (x & -> & Hx).
    apply Ascii.eqb_eq in Hx. subst x.
    apply seq_inv in HR2. destruct HR2 as (d2 & R3 & -> & Hd2 & HR3).
    apply seq_inv in HR3. destruct HR3 as (dot & R4 & -> & Hdot & HR4).
    apply chr_inv in Hdot. destruct Hdot as (x & -> & Hx).
    apply Ascii.eqb_eq in Hx. subst x.
    assert (all_chars is_alnum_dash d1 = true) as Hd1c.
    { apply (matches_classes is_alnum_dash (RBetween 1 3 (RChr is_digit)));
        [assumption | vm_compute; reflexivity]. }
    symmetry in Heq. apply (split_boundary is_alnum_dash) in Heq.
    + destruct Heq as [_ Heq]. rewrite !sapp_cons, !sapp_nil_l in Heq.
      injection Heq as Heq. subst tld.
      rewrite (all_chars_dot is_alpha d2 R4) in Ht by reflexivity.
      discriminate.
    + assumption.
    + apply (all_chars_within is_alnum); [vm_compute; reflexivity | assumption].
    + right. rewrite sapp_cons. do 2 eexists. split; reflexivity.
    + right. rewrite sapp_cons. do 2 eexists. split; reflexivity.
Qed.

Lemma port_path_start (r : string) :
  Matches (RSeq port path) r ->
  r = "" \/ exists c r', r = String c r' /\ host_char c = false.
Proof.
  intros H. apply seq_inv in H. destruct H as (p & q & -> & Hp & Hq).
  unfold port in Hp. apply opt_inv in Hp. destruct Hp as [Hp| ->].
  - apply seq_inv in Hp. destruct Hp as (c & p' & -> & Hc & _).
    apply chr_inv in Hc. destruct Hc as (x & -> & Hx).
    apply Ascii.eqb_eq in Hx. subst x.
    right. rewrite !sapp_cons, sapp_nil_l. do 2 eexists. split; reflexivity.
  - rewrite sapp_nil_l. unfold path in Hq.
    apply alt_inv in Hq. destruct Hq as [Hq|Hq].
    + apply opt_inv in Hq. destruct Hq as [Hq| ->]; [|now left].
      apply chr_inv in Hq. destruct Hq as (x & -> & Hx).
      apply Ascii.eqb_eq in Hx. subst x.
      right. do 2 eexists. split; reflexivity.
    + apply seq_inv in Hq. destruct Hq as (c & q' & -> & Hc & _).
      apply chr_inv in Hc. destruct Hc as (x & -> & Hx).
      right. rewrite sapp_cons, sapp_nil_l. do 2 eexists.
      split; [reflexivity|].
      unfold slash_or_question in Hx. apply orb_true_iff in Hx.
      destruct Hx as [Hx|Hx]; apply Ascii.eqb_eq in Hx; subst x; reflexivity.
Qed.

(** X24. The top-level name of a host must have two to six letters. For a
    URL of ASCII characters made of [http://] or [https://], a label of
    letters and digits, a dot, a top-level name of letters, and then
    nothing or something that starts with [:], [/] or [?]:
    [validate_url] accepts it only if the top-level name has two to six
    letters. *)
Theorem validate_url_top_level_length
    (strip : string -> string) (scheme name tld tail : string) :
  is_ascii (scheme +:+ name +:+ "." +:+ tld +:+ tail) = true ->
  strip (scheme +:+ name +:+ "." +:+ tld +:+ tail)
  = scheme +:+ name +:+ "." +:+ tld +:+ tail ->
  scheme = "http://" \/ scheme = "https://" ->
  all_chars is_alnum name = true ->
  all_chars is_alpha tld = true ->
  (tail = ""
   \/ exists c t, tail = String c t /\ In c [":"; "/"; "?"]%char) ->
  validate_url strip (scheme +:+ name +:+ "." +:+ tld +:+ tail) = true ->
  (2 <= String.length tld <= 6)%nat.
Proof.
  intros _ Hstrip Hscheme Hname Htld Htail. unfold validate_url.
  rewrite Hstrip.
  destruct (_ || _); [discriminate|]. intros H. apply matches_spec in H.
  apply scheme_peel in H; [|assumption].
  apply seq_inv in H. destruct H as (h & r & Heq & Hh & Hr).
  apply port_path_start in Hr.
  assert (all_chars host_char h = true) as Hhc.
  { apply (matches_classes host_char host); [assumption|].
    vm_compute. reflexivity. }
  assert (all_chars host_char (name +:+ "." +:+ tld) = true) as Huc.
  { rewrite !all_chars_app.
    rewrite (all_chars_within is_alnum host_char name)
      by (assumption || (vm_compute; reflexivity)).
    rewrite (all_chars_within is_alpha host_char tld)
      by (assumption || (vm_compute; reflexivity)).
    reflexivity. }
  assert (h +:+ r = (name +:+ "." +:+ tld) +:+ tail) as Heq'.
  { now rewrite <- Heq, !sapp_assoc. }
  apply (split_boundary host_char) in Heq'; try assumption.
  - destruct Heq' as [-> _]. now apply (host_two_labels name).
  - destruct Htail as [-> |(c & t & -> & Hc)]; [now left|].
    right. exists c, t. split; [reflexivity|].
    destruct Hc as [<-|[<-|[<-|[]]]]; reflexivity.
Qed.

Lemma validate_url_top_level_length_witness :
  (2 <= String.length "com" <= 6)%nat.
Proof.
  apply (validate_url_top_level_length strip_ascii
           "https://" "example" "com" "/watch?v=1");
    try reflexivity.
  - now right.
  - right. exists "/"%char, "watch?v=1". split; [reflexivity|].
    simpl. auto.
Defined.

Lemma digit_group_matches (s : string) :
  digit_group s -> Matches (RBetween 1 3 (RChr is_digit)) s.
Proof. intros [Hc Hl]. now apply between_build. Qed.

Lemma dot_matches : Matches (RChr (Ascii.eqb ".")) ".".
Proof. now constructor. Qed.

(** X25. The numbers of a numeric host are not checked against 255: any
    four groups of one to three digits with dots between them make a host
    that [validate_url] accepts. *)
Theorem validate_url_numeric_host
    (strip : string -> string) (a b c d : string) :
  strip ("http://" +:+ a +:+ "." +:+ b +:+ "." +:+ c +:+ "." +:+ d)
  = "http://" +:+ a +:+ "." +:+ b +:+ "." +:+ c +:+ "." +:+ d ->
  digit_group a -> digit_group b -> digit_group c -> digit_group d ->
  validate_url strip
    ("http://" +:+ a +:+ "." +:+ b +:+ "." +:+ c +:+ "." +:+ d)
  = true.
Proof.
  intros Hstrip Ha Hb Hc Hd. unfold validate_url. rewrite Hstrip.
  change ("http://" +:+ a +:+ "." +:+ b +:+ "." +:+ c +:+ "." +:+ d)
    with (String "h"
            ("ttp://" +:+ a +:+ "." +:+ b +:+ "." +:+ c +:+ "." +:+ d)) at 1.
  cbn [String.eqb orb].
  change (String "h"
            ("ttp://" +:+ a +:+ "." +:+ b +:+ "." +:+ c +:+ "." +:+ d))
    with ("http://" +:+ a +:+ "." +:+ b +:+ "." +:+ c +:+ "." +:+ d).
  apply matches_spec.
  apply (scheme_build (a +:+ "." +:+ b +:+ "." +:+ c +:+ "." +:+ d)).
  rewrite <- (sapp_nil_r (a +:+ "." +:+ b +:+ "." +:+ c +:+ "." +:+ d)).
  constructor.
  - unfold host. apply MAltR, MAltR. unfold dotted_quad.
    repeat (constructor;
            [first [now apply digit_group_matches | apply dot_matches]|]).
    now apply digit_group_matches.
  - rewrite <- (sapp_nil_l ""). constructor.
    + unfold port. apply MAltR. constructor.
    + unfold path. apply MAltL, MAltR. constructor.
Qed.

Lemma validate_url_numeric_host_witness :
  validate_url strip_ascii "http://999.999.999.999" = true.
Proof.
  apply (validate_url_numeric_host strip_ascii "999" "999" "999" "999");
    first [reflexivity | split; [reflexivity | simpl; lia]].
Defined.

(** X26. When [get_url_from_user] returns, the URL is a stripped input
    line that is not empty, is none of the words that quit, and is one
    [validate_url] accepts; it is the first such line, the lines before it
    being empty or refused, and the lines after it are not read. *)
Theorem get_url_from_user_valid
    (strip : string -> string) (inputs : list input_event) (url : string)
    (rest : list input_event) :
  get_url_from_user strip inputs = (Returned url, rest) ->
  validate_url strip url = true
  /\ url <> ""
  /\ ~ In (str_lower url) ["quit"; "exit"; "q"]
  /\ exists asked s,
       inputs = (map Line asked ++ Line s :: rest)%list
       /\ url = strip s
       /\ Forall (refused_url strip) asked.
Proof.
  induction inputs as [|[s|] inputs IH]; cbn [get_url_from_user];
    [discriminate | | discriminate].
  assert (refused_url strip s ->
          get_url_from_user strip inputs = (Returned url, rest) ->
          validate_url strip url = true
          /\ url <> ""
          /\ ~ In (str_lower url) ["quit"; "exit"; "q"]
          /\ exists asked s0,
               Line s :: inputs = (map Line asked ++ Line s0 :: rest)%list
               /\ url = strip s0
               /\ Forall (refused_url strip) asked) as Hrec.
  { intros Href H. destruct (IH H) as (Hv & Hne & Hq & asked & s0 & -> & Hu & Ha).
    repeat (split; [assumption|]).
    exists (s :: asked), s0. split; [reflexivity|]. split; [assumption|].
    now constructor. }
  destruct (mem (str_lower (strip s)) ["quit"; "exit"; "q"]) eqn:Hq;
    [discriminate|].
  destruct (String.eqb_spec (strip s) "") as [He|Hne].
  { apply Hrec. now left. }
  destruct (validate_url strip (strip s)) eqn:Hv; cbn [negb].
  - intros H. injection H as <- <-.
    split; [assumption|]. split; [assumption|].
    split; [exact (proj1 (mem_false_In _ _) Hq)|].
    exists [], s. split; [reflexivity|]. split; [reflexivity | constructor].
  - apply Hrec. now right.
Qed.

(** A blank line and a line without a scheme are asked again. *)
Lemma get_url_from_user_valid_witness :
  validate_url strip_ascii "https://youtu.be/abc" = true
  /\ "https://youtu.be/abc" <> ""
  /\ ~ In (str_lower "https://youtu.be/abc") ["quit"; "exit"; "q"]
  /\ exists asked s,
       [Line "  "; Line "youtu.be/abc"; Line " https://youtu.be/abc ";
        Line "quit"]
       = (map Line asked ++ Line s :: [Line "quit"])%list
       /\ "https://youtu.be/abc" = strip_ascii s
       /\ Forall (refused_url strip_ascii) asked.
Proof.
  apply (get_url_from_user_valid strip_ascii
           [Line "  "; Line "youtu.be/abc"; Line " https://youtu.be/abc ";
            Line "quit"]).
  reflexivity.
Defined.

(** ** The selection step of [run] *)

Lemma py_index_In {A : Type} (l : list A) (i : Z) (x : A) :
  py_index l i = Some x -> In x l.
Proof.
  unfold py_index.
  destruct (_ && _); [apply nth_error_In|].
  destruct (_ && _); [apply nth_error_In | discriminate].
Qed.

Lemma fixed_entry_description (num : Z) (o : download_option) :
  In o (fixed_entries_at num) ->
  exists text, opt_description o = Val text /\ opt_info o = Missing.
Proof.
  unfold fixed_entries_at. simpl.
  intros [<-|[<-|[<-|[<-|[<-|[<-|[<-|[]]]]]]]]; simpl; eauto.
Qed.

(** X27. One pass of [run] from the option list to the confirmation line,
    end to end: the list is never empty, the subscript [options[choice -
    1]] never fails and [create_download_options] never raises. Either the
    pass is cancelled with 0, or a prompt ends it, or it goes on with the
    entry that carries the chosen number and the download options made
    from it; the confirmation line shows the description of a fixed entry
    and the words ['video format'] or ['audio format'] for a ranked
    one. *)
Theorem select_option_safe
    (strip : string -> string) (int : string -> option Z)
    (download_dir : string) (i : info_dict) (opts : list download_option)
    (inputs : list input_event) :
  pipeline (Some i) = Some (Ok opts) ->
  let result := fst (select_option strip int download_dir opts inputs) in
  result = Cancelled \/ result = Exited \/ result = InputEnded
  \/ exists selected_option download_opts description,
       result = Selected selected_option download_opts (Some description)
       /\ In selected_option opts
       /\ 1 <= opt_num selected_option <= Z.of_nat (length opts)
       /\ create_download_options download_dir selected_option
          = Ok download_opts
       /\ (opt_description selected_option = Val description
           \/ opt_description selected_option = Missing
              /\ (description = "video format"
                  \/ description = "audio format")).
Proof.
  intros Hp. cbv zeta. pose proof Hp as Hp'. apply pipeline_inv in Hp'.
  destruct Hp' as (vfs & afs & _ & Hd).
  unfold select_option.
  destruct opts as [|o0 opts0] eqn:Hopts.
  { apply display_shape in Hd.
    destruct Hd as (b & ttl & desc & audio & video & keys & _ & Ho & _).
    destruct (special_part b ttl desc vfs); discriminate. }
  rewrite <- Hopts in *. clear Hopts o0 opts0.
  destruct (get_user_choice strip int (Z.of_nat (length opts)) inputs)
    as [[choice| |] rest] eqn:Hc; simpl; [|auto|auto].
  pose proof (get_user_choice_bounds _ _ _ _ _ _ Hc) as Hb.
  destruct (Z.eqb_spec choice 0) as [->|Hne]; [simpl; auto|].
  destruct Hb as [->|Hb]; [contradiction|].
  pose proof Hd as Hshape. apply display_shape in Hshape.
  destruct Hshape as (b & ttl & desc & audio & video & keys
                      & _ & _ & _ & _ & Hnum & _).
  assert (exists o, py_index opts (choice - 1) = Some o /\ opt_num o = choice)
    as (o & Ho & Hon).
  { unfold py_index.
    destruct (Z.leb_spec 0 (choice - 1)); [|lia].
    destruct (Z.ltb_spec (choice - 1) (Z.of_nat (length opts))); [|lia].
    simpl.
    destruct (nth_error opts (Z.to_nat (choice - 1))) as [o|] eqn:Ho.
    - exists o. split; [reflexivity|].
      rewrite (nth_error_numbered _ _ _ Hnum Ho). lia.
    - apply nth_error_None in Ho. lia. }
  rewrite Ho. pose proof (py_index_In _ _ _ Ho) as Hin.
  do 3 right.
  destruct (pipeline_entry_cases _ _ _ Hp Hin)
    as [[num Hf]|[(d & id & Hr & Hid & Hty)|(d & id & Hr & Hid & Hty)]].
  - destruct (fixed_entry_description _ _ Hf) as (text & Htext & _).
    assert (exists r, create_download_options download_dir o = Ok r)
      as [r Hcr].
    { unfold fixed_entries_at in Hf. simpl in Hf.
      destruct Hf as [<-|[<-|[<-|[<-|[<-|[<-|[<-|[]]]]]]]]; eexists;
        reflexivity. }
    rewrite Hcr, Htext. simpl.
    exists o, r, text. split; [reflexivity|]. split; [assumption|].
    split; [lia|]. split; [assumption | now left].
  - destruct Hr as [Ht Hi Hde [_ Hfo] _].
    assert (exists r, create_download_options download_dir o = Ok r)
      as [r Hcr].
    { unfold create_download_options. rewrite Ht, Hfo, Hid. simpl. eauto. }
    rewrite Hcr, Hde, Ht. simpl.
    exists o, r, "audio format". split; [reflexivity|]. split; [assumption|].
    split; [lia|]. split; [assumption|]. right. auto.
  - destruct Hr as [Ht Hi Hde [_ Hfo] _].
    assert (exists r, create_download_options download_dir o = Ok r)
      as [r Hcr].
    { unfold create_download_options, info_type.
      rewrite Ht, Hi, Hfo, Hid. simpl.
      destruct Hty as [Hty|Hty]; rewrite Hty; simpl; eauto. }
    rewrite Hcr, Hde, Ht. simpl.
    exists o, r, "video format". split; [reflexivity|]. split; [assumption|].
    split; [lia|]. split; [assumption|]. right. auto.
Qed.

Lemma select_option_safe_witness :
  let result :=
    fst (select_option strip_ascii int_of_digits "downloads" ex_options
           [Line " 9 "]) in
  result = Cancelled \/ result = Exited \/ result = InputEnded
  \/ exists selected_option download_opts description,
       result = Selected selected_option download_opts (Some description)
       /\ In selected_option ex_options
       /\ 1 <= opt_num selected_option <= Z.of_nat (length ex_options)
       /\ create_download_options "downloads" selected_option
          = Ok download_opts
       /\ (opt_description selected_option = Val description
           \/ opt_description selected_option = Missing
              /\ (description = "video format"
                  \/ description = "audio format")).
Proof.
  apply (select_option_safe strip_ascii int_of_digits "downloads"
           {| title := Val "A VR clip"; description := Missing;
              formats := Val [ex_video_only; ex_audio; ex_muxed;
                              ex_video_only] |}
           ex_options).
  reflexivity.
Defined.

(** ** OptionRanker: the dedup keys *)

(** The characters of a number as Python writes it. *)
Lemma pretty_N_char_class (q : ascii -> bool) (x : N) :
  all_chars q "0123456789" = true -> q (pretty_N_char x) = true.
Proof.
  simpl. rewrite !andb_true_iff.
  intros (H0 & H1 & H2 & H3 & H4 & H5 & H6 & H7 & H8 & H9 & _).
  unfold pretty_N_char.
  repeat match goal with
         | |- context [match ?y with _ => _ end] => destruct y
         end; assumption.
Qed.

Lemma pretty_N_go_class (q : ascii -> bool) (x : N) :
  all_chars q "0123456789" = true ->
  forall s, all_chars q s = true -> all_chars q (pretty_N_go x s) = true.
Proof.
  intros Hq. induction (N.lt_wf_0 x) as [x _ IH]. intros s Hs.
  destruct (N.eq_dec x 0%N) as [->|Hx].
  - now rewrite pretty_N_go_0.
  - rewrite pretty_N_go_step by lia. apply IH.
    + apply N.div_lt; lia.
    + simpl. now rewrite pretty_N_char_class, Hs.
Qed.

Lemma pretty_Z_class (q : ascii -> bool) (z : Z) :
  all_chars q "-0123456789" = true -> all_chars q (pretty z) = true.
Proof.
  intros Hq.
  assert (q "-"%char = true /\ all_chars q "0123456789" = true) as [Hm Hd].
  { simpl in Hq. apply andb_true_iff in Hq. exact Hq. }
  assert (forall p, all_chars q (pretty (N.pos p)) = true) as Hpos.
  { intros p. unfold pretty, pretty_N.
    destruct (decide (N.pos p = 0%N)); [discriminate|].
    now apply pretty_N_go_class. }
  destruct z as [|p|p].
  - simpl in Hd. apply andb_true_iff in Hd. destruct Hd as [H0 _].
    change (pretty 0) with "0". simpl. now rewrite H0.
  - apply Hpos.
  - change (pretty (Z.neg p)) with ("-" +:+ pretty (N.pos p)).
    rewrite all_chars_app, Hpos. simpl. now rewrite Hm.
Qed.

Lemma all_chars_rstrip_zeros (q : ascii -> bool) (s : string) :
  all_chars q s = true -> all_chars q (rstrip_zeros s) = true.
Proof.
  induction s as [|c s IH]; simpl; [reflexivity|].
  intros H. apply andb_true_iff in H. destruct H as [Hc Hs].
  specialize (IH Hs). destruct (rstrip_zeros s) as [|c' r].
  - destruct (Ascii.eqb c "0"); simpl; [reflexivity | now rewrite Hc].
  - simpl in *. now rewrite Hc, IH.
Qed.

Lemma all_chars_substring (q : ascii -> bool) (s : string) :
  all_chars q s = true ->
  forall n m, all_chars q (String.substring n m s) = true.
Proof.
  induction s as [|c s IH]; intros H n m.
  - destruct n, m; reflexivity.
  - simpl in H. apply andb_true_iff in H. destruct H as [Hc Hs].
    destruct n as [|n]; simpl.
    + destruct m as [|m]; simpl; [reflexivity|]. now rewrite Hc, IH.
    + now apply IH.
Qed.

Lemma all_chars_zeros (q : ascii -> bool) (n : nat) :
  q "0"%char = true -> all_chars q (zeros n) = true.
Proof. intros H. induction n as [|n IH]; simpl; [reflexivity|]. now rewrite H. Qed.

Lemma float_repr_class (q : ascii -> bool) (m : Z) (p : nat) :
  all_chars q "-0123456789.e+" = true ->
  all_chars q (float_repr m p) = true.
Proof.
  intros Hq.
  assert (all_chars q "-0123456789" = true /\ q "0"%char = true
          /\ q "-"%char = true /\ q "."%char = true /\ q "e"%char = true
          /\ q "+"%char = true) as (Hd & H0 & Hm & Hp & He & Hpl).
  { simpl in *. repeat (apply andb_true_iff in Hq; destruct Hq as [? Hq]).
    repeat match goal with H : q _ = true |- _ => rewrite H end.
    repeat split. }
  pose proof (fun z => pretty_Z_class q z Hd) as Hpretty.
  pose proof (fun z => all_chars_rstrip_zeros q _ (Hpretty z)) as Hdigits.
  pose proof (fun z => all_chars_substring q _ (Hdigits z)) as Hsub.
  pose proof (fun n => all_chars_zeros q n H0) as Hz.
  unfold float_repr.
  repeat match goal with
         | |- context [if ?b then _ else _] => destruct b
         end;
    rewrite ?all_chars_app, ?Hpretty, ?Hdigits, ?Hsub, ?Hz; simpl;
    rewrite ?H0, ?Hm, ?Hp, ?He, ?Hpl, ?Hpretty, ?Hdigits, ?Hsub, ?Hz;
    reflexivity.
Qed.

Lemma fmt_num_no_underscore (v : option Z) :
  all_chars not_underscore (fmt_num v) = true.
Proof. destruct v; [now apply pretty_Z_class | reflexivity]. Qed.

Lemma fmt_number_no_underscore (v : option num) :
  all_chars not_underscore (fmt_number v) = true.
Proof.
  destruct v as [[z|m p]|]; simpl;
    [now apply pretty_Z_class | now apply float_repr_class | reflexivity].
Qed.

(** A whole number is written with digits and a sign only, a float never:
    the two are never written the same. *)
Lemma float_repr_not_whole (m : Z) (p : nat) :
  all_chars whole_char (float_repr m p) = false.
Proof.
  unfold float_repr.
  repeat match goal with
         | |- context [if ?b then _ else _] => destruct b
         end;
    rewrite ?all_chars_app; simpl; rewrite ?andb_false_r; reflexivity.
Qed.

Lemma int_float_texts_differ (z m : Z) (p : nat) :
  num_str (Int z) <> num_str (Float m p).
Proof.
  simpl. intros H.
  assert (all_chars whole_char (pretty z) = true) as Hz
    by now apply pretty_Z_class.
  rewrite H, float_repr_not_whole in Hz. discriminate.
Qed.

(** Two texts joined by an underscore come apart in one way when the first
    holds none. *)
Lemma split_underscore (a r b t : string) :
  all_chars not_underscore a = true -> all_chars not_underscore b = true ->
  a +:+ "_" +:+ r = b +:+ "_" +:+ t -> a = b /\ r = t.
Proof.
  intros Ha Hb Heq.
  destruct (split_boundary not_underscore a ("_" +:+ r) b ("_" +:+ t))
    as [-> Hr]; try assumption.
  - right. exists "_"%char, r. split; reflexivity.
  - right. exists "_"%char, t. split; reflexivity.
  - simpl in Hr. injection Hr as Hr. now split.
Qed.

(** The key of a video format is its five texts joined by underscores. *)
Lemma video_key_texts (fmt : fmt_dict) :
  video_key fmt
  = match key_texts fmt with
    | Ok (e, h, r, c, t) =>
        Ok (e +:+ "_" +:+ h +:+ "_" +:+ r +:+ "_" +:+ c +:+ "_" +:+ t)
    | Raise x => Raise x
    end.
Proof.
  unfold video_key, key_texts.
  destruct (get_default (video_types fmt) []); simpl; [|reflexivity].
  destruct (subscript (ext fmt)); simpl; [|reflexivity].
  destruct (slice 10 (get_default (vcodec fmt) "unknown")); reflexivity.
Qed.

Lemma audio_key_text (fmt : fmt_dict) :
  audio_key fmt
  = match audio_key_texts fmt with
    | Ok (e, a) => Ok (e +:+ "_" +:+ a)
    | Raise x => Raise x
    end.
Proof.
  unfold audio_key, audio_key_texts.
  destruct (subscript (ext fmt)); reflexivity.
Qed.

Lemma key_texts_numbers (fmt : fmt_dict) (e h r c t : string) :
  key_texts fmt = Ok (e, h, r, c, t) ->
  all_chars not_underscore h = true /\ all_chars not_underscore r = true.
Proof.
  unfold key_texts.
  destruct (get_default (video_types fmt) []); simpl; [|discriminate].
  destruct (subscript (ext fmt)); simpl; [|discriminate].
  destruct (slice 10 (get_default (vcodec fmt) "unknown")); simpl;
    [|discriminate].
  intros H. injection H as _ <- <- _ _.
  split; [apply fmt_num_no_underscore | apply fmt_number_no_underscore].
Qed.

(** Without underscores in the extension and in the codec, two formats have
    the same key exactly when their five texts are the same. *)
Lemma video_key_same (f1 f2 : fmt_dict)
    (e1 h1 r1 c1 t1 e2 h2 r2 c2 t2 : string) :
  key_texts f1 = Ok (e1, h1, r1, c1, t1) ->
  key_texts f2 = Ok (e2, h2, r2, c2, t2) ->
  all_chars not_underscore e1 = true -> all_chars not_underscore c1 = true ->
  all_chars not_underscore e2 = true -> all_chars not_underscore c2 = true ->
  (video_key f1 = video_key f2
   <-> (e1, h1, r1, c1, t1) = (e2, h2, r2, c2, t2)).
Proof.
  intros H1 H2 He1 Hc1 He2 Hc2.
  destruct (key_texts_numbers _ _ _ _ _ _ H1) as [Hh1 Hr1].
  destruct (key_texts_numbers _ _ _ _ _ _ H2) as [Hh2 Hr2].
  rewrite !video_key_texts, H1, H2. split.
  - intros H. injection H as H.
    apply split_underscore in H; try assumption. destruct H as [-> H].
    apply split_underscore in H; try assumption. destruct H as [-> H].
    apply split_underscore in H; try assumption. destruct H as [-> H].
    apply split_underscore in H; try assumption. now destruct H as [-> ->].
  - intros H. injection H as -> -> -> -> ->. reflexivity.
Qed.

Lemma audio_key_same (f1 f2 : fmt_dict) (e1 a1 e2 a2 : string) :
  audio_key_texts f1 = Ok (e1, a1) ->
  audio_key_texts f2 = Ok (e2, a2) ->
  all_chars not_underscore e1 = true -> all_chars not_underscore e2 = true ->
  (audio_key f1 = audio_key f2 <-> (e1, a1) = (e2, a2)).
Proof.
  intros H1 H2 He1 He2. rewrite !audio_key_text, H1, H2. split.
  - intros H. injection H as H.
    apply split_underscore in H; try assumption. now destruct H as [-> ->].
  - intros H. injection H as -> ->. reflexivity.
Qed.

Lemma first_occurrences_sorted {A : Type} (R : A -> A -> Prop)
    (l : list (string * A)) :
  forall seen,
    StronglySorted R (map snd l) ->
    StronglySorted R (map snd (first_occurrences seen l)).
Proof.
  induction l as [|[k x] l IH]; intros seen Hs; simpl; [constructor|].
  simpl in Hs. apply StronglySorted_inv in Hs. destruct Hs as [Hs Hx].
  destruct (mem k seen); simpl; [now apply IH|].
  constructor; [now apply IH|].
  rewrite List.Forall_forall in *. intros y Hy.
  apply in_map_iff in Hy. destruct Hy as (p & <- & Hp).
  apply first_occurrences_incl in Hp. apply Hx.
  apply in_map_iff. now exists p.
Qed.

Lemma firstn_sorted {A : Type} (R : A -> A -> Prop) (n : nat) (l : list A) :
  StronglySorted R l -> StronglySorted R (firstn n l).
Proof.
  revert l. induction n as [|n IH]; intros [|x l] Hs; simpl;
    try constructor.
  - apply IH. now apply StronglySorted_inv in Hs.
  - apply StronglySorted_inv in Hs. destruct Hs as [_ Hx].
    rewrite List.Forall_forall in *. intros y Hy. apply Hx.
    now apply (firstn_incl n).
Qed.

Lemma map_snd_combine {A B : Type} (l : list A) (l' : list B) :
  length l = length l' -> map snd (combine l l') = l'.
Proof.
  revert l'. induction l as [|x l IH]; intros [|y l'] H; simpl in *;
    try discriminate; [reflexivity|].
  f_equal. apply IH. now injection H.
Qed.

Lemma listed_video (video_formats audio_formats : list fmt_dict)
    (info : option info_dict) (opts : list download_option) :
  display_format_options video_formats audio_formats info = Ok opts ->
  exists akeys vkeys,
    map_result audio_key (sort_audio audio_formats) = Ok akeys
    /\ ranked_infos "audio" opts
       = map snd
           (first_occurrences [] (combine akeys (sort_audio audio_formats)))
    /\ map_result video_key (sort_video video_formats) = Ok vkeys
    /\ ranked_infos "video" opts
       = map snd
           (firstn 20
              (first_occurrences []
                 (combine vkeys (sort_video video_formats)))).
Proof.
  intros H. apply display_full in H.
  destruct H as (b & ttl & desc & akeys & vkeys & audio & video
                 & _ & -> & Hak & Hra & Hvk & Hrv).
  exists akeys, vkeys.
  apply ranked_audio_infos in Hra. destruct Hra as (Hta & Hia & _).
  apply ranked_video_infos in Hrv. destruct Hrv as (Htv & Hiv & _).
  split; [exact Hak|]. split; [|split; [exact Hvk|]].
  - rewrite app_assoc, ranked_infos_app, fixed_not_ranked.
    rewrite ranked_infos_app.
    rewrite (ranked_infos_other "audio" video) by now apply video_not_audio.
    rewrite app_nil_r. simpl. now apply ranked_infos_same.
  - rewrite app_assoc, ranked_infos_app, fixed_not_ranked.
    rewrite ranked_infos_app.
    rewrite (ranked_infos_other "video" audio) by now apply audio_not_video.
    simpl. now apply ranked_infos_same.
Qed.

Lemma keys_one_to_one {A : Type} (f : A -> result string)
    (kept : list (string * A)) :
  Forall (fun p => f (snd p) = Ok (fst p)) kept ->
  List.NoDup (map fst kept) ->
  forall i j x y,
    nth_error (map snd kept) i = Some x ->
    nth_error (map snd kept) j = Some y ->
    f x = f y -> i = j.
Proof.
  intros Hk Hnd i j x y Hi Hj Heq.
  pose proof (map_result_of_pairs f kept Hk) as Hmr.
  destruct (map_result_nth _ _ _ i x Hmr Hi) as (k1 & Hk1 & Hf1).
  destruct (map_result_nth _ _ _ j y Hmr Hj) as (k2 & Hk2 & Hf2).
  rewrite Heq, Hf2 in Hf1. injection Hf1 as <-.
  apply (proj1 (List.NoDup_nth_error _) Hnd).
  - apply nth_error_Some. congruence.
  - congruence.
Qed.

(** C5, as the code has it. The dedup key of a video format is a text: the
    extension, the height, the fps, the first 10 characters of the video
    codec and the tags joined by [+], each as Python writes it, joined by
    underscores. In the list returned by [display_format_options] the
    ranked video entries are, in order, the first 20 first-occurrences of
    a key text in the video formats sorted descending by [sort_key]: no
    two of them have the same key text, so no two have the same five
    values; each is the first format of its key text in sorted order;
    there are at most 20 of them, in sorted order, and when the sorted
    formats have at most 20 key texts every key text has its entry. Two
    formats whose extensions and codecs hold no underscore have the same
    key text exactly when their five texts are the same; a whole number is
    never written as a float is, so 30 and 30.0 make two keys. *)
Theorem video_options_deduplicated
    (video_formats audio_formats : list fmt_dict) (info : option info_dict)
    (opts : list download_option) :
  display_format_options video_formats audio_formats info = Ok opts ->
  exists keys,
    let sorted := sort_video video_formats in
    let firsts := first_occurrences [] (combine keys sorted) in
    let kept := firstn 20 firsts in
    let listed := ranked_infos "video" opts in
    Permutation video_formats sorted
    /\ descending sort_key tuple_ltb sorted
    /\ map_result video_key sorted = Ok keys
    /\ listed = map snd kept
    /\ map_result video_key listed = Ok (map fst kept)
    /\ List.NoDup (map fst kept)
    /\ (length listed <= 20)%nat
    /\ (forall k fmt,
          In (k, fmt) kept ->
          exists pre post,
            combine keys sorted = (pre ++ (k, fmt) :: post)%list
            /\ ~ In k (map fst pre))
    /\ ((length firsts <= 20)%nat -> kept = firsts)
    /\ (forall fmt,
          In fmt video_formats ->
          exists k,
            video_key fmt = Ok k
            /\ ((length firsts <= 20)%nat -> exists fmt', In (k, fmt') kept))
    /\ (forall pre a mid b post,
          listed = (pre ++ a :: mid ++ b :: post)%list ->
          tuple_ltb (sort_key a) (sort_key b) = false)
    /\ (forall i j f1 f2,
          nth_error listed i = Some f1 -> nth_error listed j = Some f2 ->
          video_key f1 = video_key f2 -> i = j)
    /\ (forall i j f1 f2,
          nth_error listed i = Some f1 -> nth_error listed j = Some f2 ->
          dedup_tuple f1 = dedup_tuple f2 -> i = j)
    /\ (forall fmt,
          In fmt video_formats ->
          exists e h r c t,
            key_texts fmt = Ok (e, h, r, c, t)
            /\ video_key fmt
               = Ok (e +:+ "_" +:+ h +:+ "_" +:+ r +:+ "_" +:+ c +:+ "_"
                     +:+ t))
    /\ (forall f1 f2 e1 h1 r1 c1 t1 e2 h2 r2 c2 t2,
          key_texts f1 = Ok (e1, h1, r1, c1, t1) ->
          key_texts f2 = Ok (e2, h2, r2, c2, t2) ->
          all_chars not_underscore e1 = true ->
          all_chars not_underscore c1 = true ->
          all_chars not_underscore e2 = true ->
          all_chars not_underscore c2 = true ->
          (video_key f1 = video_key f2
           <-> (e1, h1, r1, c1, t1) = (e2, h2, r2, c2, t2)))
    /\ (forall z m p,
          fmt_number (Some (Int z)) <> fmt_number (Some (Float m p))).
Proof.
  intros H. apply listed_video in H.
  destruct H as (akeys & keys & _ & _ & Hk & Hr).
  exists keys. cbv zeta.
  set (sorted := sort_video video_formats) in *.
  set (firsts := first_occurrences [] (combine keys sorted)) in *.
  set (kept := firstn 20 firsts) in *.
  destruct (map_result_combine video_key sorted keys Hk) as [Hlen Hf].
  assert (Forall (fun p => video_key (snd p) = Ok (fst p)) kept) as Hkeys.
  { apply List.Forall_forall. intros p Hp.
    apply firstn_incl, first_occurrences_incl in Hp.
    now apply (proj1 (List.Forall_forall _ _) Hf). }
  assert (List.NoDup (map fst kept)) as Hnd.
  { unfold kept. rewrite <- firstn_map.
    apply firstn_NoDup, (first_occurrences_keys (combine keys sorted) []). }
  assert (forall fmt, In fmt video_formats ->
            exists k, video_key fmt = Ok k /\ In (k, fmt) (combine keys sorted))
    as Hall.
  { intros fmt Hin. apply (map_result_In _ _ _ _ Hk).
    eapply Permutation_in; [apply sort_video_perm | exact Hin]. }
  split; [apply sort_video_perm|].
  split; [apply sort_video_descending|].
  split; [exact Hk|].
  split; [exact Hr|].
  split; [rewrite Hr; now apply map_result_of_pairs|].
  split; [exact Hnd|].
  split.
  { rewrite Hr, length_map. unfold kept. rewrite length_firstn. lia. }
  split.
  { intros k fmt Hin. apply firstn_incl in Hin.
    apply first_occurrences_first in Hin.
    destruct Hin as (pre & post & Heq & Hpre & _). now exists pre, post. }
  split; [intros Hle; unfold kept; now apply firstn_all2|].
  split.
  { intros fmt Hin. destruct (Hall fmt Hin) as (k & Hkey & Hc).
    exists k. split; [exact Hkey|]. intros Hle.
    unfold kept. rewrite firstn_all2 by exact Hle.
    apply (first_occurrences_complete _ k fmt [] Hc). auto. }
  split.
  { intros pre a mid b post Hsplit.
    assert (StronglySorted
              (fun a b => tuple_ltb (sort_key a) (sort_key b) = false)
              (map snd kept)) as Hs.
    { unfold kept. rewrite <- firstn_map. apply firstn_sorted.
      apply first_occurrences_sorted.
      rewrite map_snd_combine by exact Hlen.
      apply (descending_strong sort_key tuple_ltb sorted
               tuple_ltb_false_trans (sort_video_descending _)). }
    rewrite <- Hr, Hsplit in Hs. now apply strongly_sorted_split in Hs. }
  split.
  { rewrite Hr. now apply keys_one_to_one. }
  split.
  { rewrite Hr. intros i j f1 f2 H1 H2 Heq.
    apply (keys_one_to_one video_key kept Hkeys Hnd i j f1 f2 H1 H2).
    now apply video_key_tuple. }
  split.
  { intros fmt Hin. destruct (Hall fmt Hin) as (k & Hkey & _).
    rewrite video_key_texts in Hkey |- *.
    destruct (key_texts fmt) as [[[[[e h] r] c] t]|]; [|discriminate].
    now exists e, h, r, c, t. }
  split; [apply video_key_same|].
  intros z m p. apply int_float_texts_differ.
Qed.

(** Three video formats, two of them with the same key text: two are
    listed. Two formats that differ in the writing of the frame rate have
    two keys. *)
Lemma video_options_deduplicated_witness :
  exists keys,
    map_result video_key (sort_video ex_video_formats) = Ok keys
    /\ ranked_infos "video" ex_options
       = map snd
           (firstn 20
              (first_occurrences []
                 (combine keys (sort_video ex_video_formats))))
    /\ List.NoDup
         (map fst
            (firstn 20
               (first_occurrences []
                  (combine keys (sort_video ex_video_formats)))))
    /\ length ex_video_formats = 3%nat
    /\ length (ranked_infos "video" ex_options) = 2%nat
    /\ key_texts ex_fps_int = Ok ("mp4", "720", "30", "avc1.4d401", "")
    /\ key_texts ex_fps_float = Ok ("mp4", "720", "30.0", "avc1.4d401", "")
    /\ video_key ex_fps_int <> video_key ex_fps_float.
Proof.
  destruct (video_options_deduplicated ex_video_formats ex_audio_formats
              ex_vr_info ex_options)
    as (keys & _ & _ & Hk & Hr & _ & Hnd & _ & _ & _ & _ & _ & _ & _ & _
        & Hsame & _).
  - vm_compute. reflexivity.
  - exists keys. split; [exact Hk|]. split; [exact Hr|].
    split; [exact Hnd|]. split; [reflexivity|]. split; [reflexivity|].
    split; [reflexivity|]. split; [reflexivity|].
    intros Heq.
    apply (Hsame ex_fps_int ex_fps_float "mp4" "720" "30" "avc1.4d401" ""
             "mp4" "720" "30.0" "avc1.4d401" "") in Heq;
      try reflexivity.
    discriminate.
Defined.

(** C5 as stated fails on the code. With the key read as the tuple of the
    five values: two formats that differ in the writing of the frame rate
    only, 30 and 30.0, have an identical key and are both listed; and of
    two formats with different keys whose texts coincide, [a_1_2_3_x_],
    the second is not listed although it is the first of its key. *)
Lemma video_options_deduplicated_counterexample :
  (exists opts,
     display_format_options [ex_fps_int; ex_fps_float] [] None = Ok opts
     /\ identical_key ex_fps_int ex_fps_float
     /\ ranked_infos "video" opts = [ex_fps_int; ex_fps_float])
  /\ (exists opts,
        display_format_options [ex_underscore_ext; ex_underscore_codec] []
          None = Ok opts
        /\ sort_video [ex_underscore_ext; ex_underscore_codec]
           = [ex_underscore_ext; ex_underscore_codec]
        /\ ~ identical_key ex_underscore_ext ex_underscore_codec
        /\ video_key ex_underscore_ext = Ok "a_1_2_3_x_"
        /\ video_key ex_underscore_codec = Ok "a_1_2_3_x_"
        /\ ranked_infos "video" opts = [ex_underscore_ext]).
Proof.
  split.
  - eexists. split; [vm_compute; reflexivity|].
    split; [|reflexivity].
    repeat split.
  - eexists. split; [vm_compute; reflexivity|].
    split; [reflexivity|]. split; [|repeat split].
    intros (He & _). discriminate.
Qed.

(** X8. The dedup key of an audio format is a text, the extension and the
    bitrate as Python writes them, joined by an underscore. The audio
    entries of the option list are the first occurrences of a key text in
    [audio_formats] sorted by descending bitrate: one entry for each key
    text, the first format of that text in sorted order, no two entries
    with one text, and no entry before one of a higher bitrate; unlike the
    video entries they are not capped. Two formats whose extensions hold no
    underscore have the same key text exactly when extension and bitrate
    are written the same; a whole number is never written as a float is,
    so the bitrates 128 and 128.0 of one extension make two entries. *)
Theorem audio_options_deduplicated
    (video_formats audio_formats : list fmt_dict) (info : option info_dict)
    (opts : list download_option) :
  display_format_options video_formats audio_formats info = Ok opts ->
  exists keys,
    let sorted := sort_audio audio_formats in
    let kept := first_occurrences [] (combine keys sorted) in
    let listed := ranked_infos "audio" opts in
    Permutation audio_formats sorted
    /\ descending (fun x => num_or0 (get (abr x))) num_ltb sorted
    /\ map_result audio_key sorted = Ok keys
    /\ listed = map snd kept
    /\ List.NoDup (map fst kept)
    /\ (forall fmt,
          In fmt audio_formats ->
          exists k fmt', audio_key fmt = Ok k /\ In (k, fmt') kept)
    /\ (forall k fmt,
          In (k, fmt) kept ->
          exists pre post,
            combine keys sorted = (pre ++ (k, fmt) :: post)%list
            /\ ~ In k (map fst pre))
    /\ (forall pre a mid b post,
          listed = (pre ++ a :: mid ++ b :: post)%list ->
          (num_value (num_or0 (get (abr b)))
           <= num_value (num_or0 (get (abr a))))%Q)
    /\ (forall i j f1 f2,
          nth_error listed i = Some f1 -> nth_error listed j = Some f2 ->
          audio_key f1 = audio_key f2 -> i = j)
    /\ (forall fmt,
          In fmt audio_formats ->
          exists e a,
            audio_key_texts fmt = Ok (e, a)
            /\ audio_key fmt = Ok (e +:+ "_" +:+ a))
    /\ (forall f1 f2 e1 a1 e2 a2,
          audio_key_texts f1 = Ok (e1, a1) ->
          audio_key_texts f2 = Ok (e2, a2) ->
          all_chars not_underscore e1 = true ->
          all_chars not_underscore e2 = true ->
          (audio_key f1 = audio_key f2 <-> (e1, a1) = (e2, a2)))
    /\ (forall f1 f2 e z m p,
          ext f1 = Val e -> ext f2 = Val e ->
          abr f1 = Val (Int z) -> abr f2 = Val (Float m p) ->
          audio_key f1 <> audio_key f2).
Proof.
  intros H. apply listed_video in H.
  destruct H as (keys & vkeys & Hk & Hr & _ & _).
  exists keys. cbv zeta.
  set (sorted := sort_audio audio_formats) in *.
  set (kept := first_occurrences [] (combine keys sorted)) in *.
  destruct (map_result_combine audio_key sorted keys Hk) as [Hlen Hf].
  assert (Forall (fun p => audio_key (snd p) = Ok (fst p)) kept) as Hkeys.
  { apply List.Forall_forall. intros p Hp.
    apply first_occurrences_incl in Hp.
    now apply (proj1 (List.Forall_forall _ _) Hf). }
  assert (List.NoDup (map fst kept)) as Hnd
    by apply (first_occurrences_keys (combine keys sorted) []).
  assert (forall fmt, In fmt audio_formats ->
            exists k, audio_key fmt = Ok k /\ In (k, fmt) (combine keys sorted))
    as Hall.
  { intros fmt Hin. apply (map_result_In _ _ _ _ Hk).
    eapply Permutation_in; [apply sort_audio_perm | exact Hin]. }
  split; [apply sort_audio_perm|].
  split; [apply sort_desc_descending, num_ltb_asym|].
  split; [exact Hk|]. split; [exact Hr|]. split; [exact Hnd|].
  split.
  { intros fmt Hin. destruct (Hall fmt Hin) as (k & Hkey & Hc).
    destruct (first_occurrences_complete _ k fmt [] Hc) as [fmt' Hf'];
      [auto|].
    eauto. }
  split.
  { intros k fmt Hin. apply first_occurrences_first in Hin.
    destruct Hin as (pre & post & Heq & Hpre & _). eauto. }
  split.
  { intros pre a mid b post Hsplit.
    assert (StronglySorted
              (fun a b => num_ltb (num_or0 (get (abr a)))
                            (num_or0 (get (abr b))) = false)
              (map snd kept)) as Hs.
    { apply first_occurrences_sorted.
      rewrite map_snd_combine by exact Hlen.
      apply (descending_strong (fun x => num_or0 (get (abr x))) num_ltb
               sorted num_ltb_false_trans).
      apply sort_desc_descending, num_ltb_asym. }
    rewrite <- Hr, Hsplit in Hs. apply strongly_sorted_split in Hs.
    now apply num_ltb_ge in Hs. }
  split.
  { rewrite Hr. now apply keys_one_to_one. }
  split.
  { intros fmt Hin. destruct (Hall fmt Hin) as (k & Hkey & _).
    rewrite audio_key_text in Hkey |- *.
    destruct (audio_key_texts fmt) as [[e a]|]; [|discriminate].
    now exists e, a. }
  split; [apply audio_key_same|].
  intros f1 f2 e z m p He1 He2 Ha1 Ha2.
  unfold audio_key. rewrite He1, He2, Ha1, Ha2. simpl. intros Heq.
  injection Heq as Heq.
  apply sapp_head_inj in Heq; [|reflexivity]. destruct Heq as [_ Heq].
  simpl in Heq. injection Heq as Heq.
  now apply (int_float_texts_differ z m p).
Qed.

(** Bitrates 128, 128.0 and 129.502: the highest comes first, and the two
    that are equal are two entries, in the order they had. *)
Lemma audio_options_deduplicated_witness :
  exists opts,
    display_format_options [] [ex_abr_int; ex_abr_float; ex_abr_high] None
    = Ok opts
    /\ sort_audio [ex_abr_int; ex_abr_float; ex_abr_high]
       = [ex_abr_high; ex_abr_int; ex_abr_float]
    /\ ranked_infos "audio" opts = [ex_abr_high; ex_abr_int; ex_abr_float]
    /\ audio_key ex_abr_int = Ok "m4a_128"
    /\ audio_key ex_abr_float = Ok "m4a_128.0"
    /\ audio_key ex_abr_high = Ok "webm_129.502"
    /\ audio_key ex_abr_int <> audio_key ex_abr_float.
Proof.
  assert (exists opts,
            display_format_options [] [ex_abr_int; ex_abr_float; ex_abr_high]
              None = Ok opts
            /\ ranked_infos "audio" opts
               = [ex_abr_high; ex_abr_int; ex_abr_float])
    as (opts & Hd & Hl).
  { eexists. split; vm_compute; reflexivity. }
  exists opts. split; [exact Hd|]. split; [reflexivity|].
  split; [exact Hl|]. split; [reflexivity|]. split; [reflexivity|].
  split; [reflexivity|].
  destruct (audio_options_deduplicated [] [ex_abr_int; ex_abr_float;
              ex_abr_high] None opts Hd)
    as (keys & _ & _ & _ & _ & _ & _ & _ & _ & _ & _ & _ & Hne).
  apply (Hne ex_abr_int ex_abr_float "m4a" 128 128 0%nat); reflexivity.
Defined.
